(** * create-video.py: timeline assembly and narration cache

    A shallow embedding of [src/create-video.py] (the media catalogue, the
    narration cache and the segment-building pass of [main]) together with
    the properties of the written specification that concern them.

    Conventions of the model.
    - File names and path components are [string]s, read as the UTF-8 bytes
      of the Python [str].  The only operations the program applies to them
      are [rfind('.')], slicing at that index, [lower()] followed by a
      membership test in a set of ASCII words, and equality; all of these
      agree on the byte and on the code-point reading.
    - Text read from a file or from a subprocess is a list of code points
      ([pystr]), since [str.strip] looks at Unicode white space.
    - The duration of a segment is an exact rational.  The pass is given
      twice: [loop_body] adds the durations up exactly, [loop_body64] adds
      them up as the program does, in binary64; the two differ in the
      additions only, and what is said of the accumulated total is said of
      [loop_body64].  Modification times are integers (any totally ordered
      time stamp would do: the program only compares them).
    - [print] to standard output is not modelled; the message of a fatal exit
      is kept with the exit status.
    - The external tools are collaborators: the prober is its standard
      output per file, the encoder is whether it returns for a segment, the
      synthesis engine is the chunks it yields for a text.  The thread caps,
      the process priority and the environment variables do not reach the
      timeline and are left out; [Path.suffix] is that of CPython 3.12. *)

From Stdlib Require Import QArith Qround ZArith NArith String Ascii List Lia.
From Stdlib Require Import DecimalString DecimalNat Sorted Permutation.
From Stdlib Require Import SpecFloat.
From stdpp Require Import gmap strings list fin_maps.

Local Open Scope string_scope.
Local Open Scope list_scope.

(** ** Python strings *)

Module Py.

(** [s.rfind('.')]: the index of the last dot, if there is one. *)
Fixpoint rfind_dot (s : string) : option nat :=
  match s with
  | EmptyString => None
  | String c rest =>
      match rfind_dot rest with
      | Some i => Some (S i)
      | None => if Ascii.eqb c "."%char then Some 0%nat else None
      end
  end.

(** [s[i:]] and [s[:i]] for [0 <= i]. *)
Fixpoint drop (i : nat) (s : string) : string :=
  match i, s with
  | O, _ => s
  | S i', String _ rest => drop i' rest
  | S _, EmptyString => EmptyString
  end.

Fixpoint take (i : nat) (s : string) : string :=
  match i, s with
  | O, _ => EmptyString
  | S i', String c rest => String c (take i' rest)
  | S _, EmptyString => EmptyString
  end.

(** [str.lower] on the ASCII letters; bytes above 127 are left alone. *)
Definition lower_ascii (c : ascii) : ascii :=
  let n := nat_of_ascii c in
  if (65 <=? n)%nat && (n <=? 90)%nat then ascii_of_nat (n + 32) else c.

Fixpoint lower (s : string) : string :=
  match s with
  | EmptyString => EmptyString
  | String c rest => String (lower_ascii c) (lower rest)
  end.

(** Text as a sequence of code points. *)
Definition pystr := list N.

Definition of_string (s : string) : pystr :=
  map N_of_ascii (list_ascii_of_string s).

(** [str.isspace] on one code point: the white-space table of CPython. *)
Definition isspace (c : N) : bool :=
  ((9 <=? c) && (c <=? 13) || (28 <=? c) && (c <=? 32)
   || (c =? 133) || (c =? 160) || (c =? 5760)
   || (8192 <=? c) && (c <=? 8202)
   || (c =? 8232) || (c =? 8233) || (c =? 8239) || (c =? 8287)
   || (c =? 12288))%N.

Fixpoint lstrip (s : pystr) : pystr :=
  match s with
  | c :: rest => if isspace c then lstrip rest else s
  | [] => []
  end.

Definition rstrip (s : pystr) : pystr := rev (lstrip (rev s)).

(** [s.strip()] *)
Definition strip (s : pystr) : pystr := rstrip (lstrip s).

End Py.

(** ** Paths (pathlib.PurePosixPath) *)

(** A path is the list of its components ([Path.parts]). *)
Abbreviation Path := (list string).

(** [p / child] *)
Definition joinpath (p : Path) (child : string) : Path := p ++ [child].
Infix "//" := joinpath (at level 40, left associativity).

(** [p.name] *)
Definition name (p : Path) : string := List.last p "".

(** [p.parent] *)
Definition parent (p : Path) : Path := removelast p.

(** [p.suffix]: [name[i:]] when the last dot is neither the first nor the
    last character of the name. *)
Definition suffix (p : Path) : string :=
  let nm := name p in
  match Py.rfind_dot nm with
  | Some i =>
      if (0 <? i)%nat && (i <? String.length nm - 1)%nat then Py.drop i nm else ""
  | None => ""
  end.

(** [p.stem] *)
Definition stem (p : Path) : string :=
  let nm := name p in
  match Py.rfind_dot nm with
  | Some i =>
      if (0 <? i)%nat && (i <? String.length nm - 1)%nat then Py.take i nm else nm
  | None => nm
  end.


(** [str(p)] for a relative path. *)
Fixpoint posix_str (p : Path) : string :=
  match p with
  | [] => "."
  | [x] => x
  | x :: rest => x +:+ "/" +:+ posix_str rest
  end.

(** ** Outcomes of effectful code *)

(** How a run can stop early: [sys.exit(code)] after printing [msg], or an
    exception that nothing catches. *)
Inductive Abort :=
| SysExit (code : Z) (msg : string)
| Raised (exn : string).

(** A computation either runs to its end, or stops early; in both cases the
    state reached so far is kept. *)
Inductive Outcome (S : Type) :=
| Done (s : S)
| Aborted (e : Abort) (s : S).
Arguments Done {S} s.
Arguments Aborted {S} e s.

Definition state_of {S} (o : Outcome S) : S :=
  match o with Done s => s | Aborted _ s => s end.

Definition completes {S} (o : Outcome S) : bool :=
  match o with Done _ => true | Aborted _ _ => false end.

Definition and_then {S} (o : Outcome S) (k : S -> Outcome S) : Outcome S :=
  match o with
  | Done s => k s
  | Aborted e s => Aborted e s
  end.

(** ** Constants *)

Definition FRAME_DURATION : Q := 2.
Definition KOKORO_VOICE : string := "bm_daniel".
Definition SAMPLE_RATE : Z := 24000.

Definition ESC : string := String (ascii_of_nat 27) "".
Definition GREEN : string := ESC +:+ "[0;32m".
Definition YELLOW : string := ESC +:+ "[1;33m".
Definition RED : string := ESC +:+ "[0;31m".
Definition NC : string := ESC +:+ "[0m".
(** The ballot X (U+2717) of the error messages, as its UTF-8 bytes. *)
Definition CROSS : string :=
  String (ascii_of_nat 226) (String (ascii_of_nat 156) (String (ascii_of_nat 151) "")).

(** [x in xs] for a small literal set of strings. *)
Definition str_in (x : string) (xs : list string) : bool :=
  existsb (String.eqb x) xs.

Definition valid_extensions : list string := [".png"; ".mp3"; ".wav"; ".txt"].
Definition audio_suffixes : list string := [".mp3"; ".wav"].

(** ** Segments and the segment-building pass *)

(** One call of the encoder that returned: [build_silent_segment(image,
    segment)] holds [image] for the fixed duration, [build_audio_segment
    (image, audio, segment)] holds it for the length of [audio]. *)
Inductive Segment :=
| SilentHold (image : Path) (duration : Q) (segment : Path)
| AudioHeld (image audio : Path) (duration : Q) (segment : Path).

Definition seg_image (s : Segment) : Path :=
  match s with SilentHold i _ _ => i | AudioHeld i _ _ _ => i end.
Definition seg_duration (s : Segment) : Q :=
  match s with SilentHold _ d _ => d | AudioHeld _ _ d _ => d end.
Definition seg_output (s : Segment) : Path :=
  match s with SilentHold _ _ o => o | AudioHeld _ _ _ o => o end.
Definition is_silent (s : Segment) : bool :=
  match s with SilentHold _ _ _ => true | AudioHeld _ _ _ _ => false end.

(** The collaborators of the pass. *)
Record Collab := {
  (** standard output of the [ffprobe] call of [get_audio_duration] *)
  ffprobe_stdout : Path -> Py.pystr;
  (** Python's [float(value)]; [None] is [ValueError] *)
  py_float : Py.pystr -> option Q;
  (** whether [run_ffmpeg(..., check=True)] returns for this segment *)
  ffmpeg_ok : Segment -> bool;
  (** [str(p.resolve())] *)
  resolve_str : Path -> string
}.

Definition get_audio_duration (c : Collab) (audio_path : Path) : option Q :=
  let value := Py.strip (ffprobe_stdout c audio_path) in
  if bool_decide (value = []) || bool_decide (value = Py.of_string "N/A")
  then None
  else py_float c value.

(** [f"{n:04d}"] *)
Definition decimal (n : nat) : string := NilEmpty.string_of_uint (Nat.to_uint n).

Fixpoint zeros (k : nat) : string :=
  match k with O => "" | S k' => String "0"%char (zeros k') end.

Definition format_04d (n : nat) : string :=
  let s := decimal n in zeros (4 - String.length s) +:+ s.

Definition segment_path (segment_dir : Path) (segment_index : nat) : Path :=
  segment_dir // ("segment-" +:+ format_04d segment_index +:+ ".mp4").

(** The line written to the concat list for a segment file. *)
Definition manifest_line (c : Collab) (segment_file : Path) : string :=
  "file '" +:+ resolve_str c segment_file +:+ "'" +:+ String (ascii_of_nat 10) "".

(** The variables of the loop of [main]; [cl] is the sequence of lines
    written to the concat list, [timeline] the encoder calls that returned. *)
Record BuildState := {
  segment_index : nat;
  current_image : option Path;
  total_duration : Q;
  cl : list string;
  timeline : list Segment
}.

Definition initial_state : BuildState :=
  {| segment_index := 0; current_image := None; total_duration := 0;
     cl := []; timeline := [] |}.

Definition set_current_image (f : Path) (st : BuildState) : BuildState :=
  {| segment_index := segment_index st; current_image := Some f;
     total_duration := total_duration st; cl := cl st; timeline := timeline st |}.

(** The encoder call: on failure [CalledProcessError] escapes; on success
    the segment joins the timeline and its duration is accumulated. *)
Definition render (c : Collab) (seg : Segment) (st : BuildState) : Outcome BuildState :=
  if ffmpeg_ok c seg then
    Done {| segment_index := segment_index st; current_image := current_image st;
            total_duration := total_duration st + seg_duration seg;
            cl := cl st; timeline := timeline st ++ [seg] |}
  else Aborted (Raised "CalledProcessError") st.

(** The end of the loop body: [cl.write(...)] and [segment_index += 1]. *)
Definition write_entry (c : Collab) (segment_file : Path) (st : BuildState) : Outcome BuildState :=
  Done {| segment_index := S (segment_index st); current_image := current_image st;
          total_duration := total_duration st;
          cl := cl st ++ [manifest_line c segment_file]; timeline := timeline st |}.

Section Pass.
Variable c : Collab.
Variable frame_duration : Q.
Variable segment_dir : Path.

(** [media_files[i + 1] if i + 1 < len(media_files) else None] *)
Definition next_file (media_files : list Path) (i : nat) : option Path :=
  if (i + 1 <? length media_files)%nat then nth_error media_files (i + 1) else None.

(** The body of [for i, f in enumerate(media_files)]. *)
Definition loop_body (media_files : list Path) (i : nat) (f : Path)
    (st : BuildState) : Outcome BuildState :=
  let segment_file := segment_path segment_dir (segment_index st) in
  if String.eqb (suffix f) ".png" then
    let st := set_current_image f st in
    match next_file media_files i with
    | Some nf =>
        if str_in (suffix nf) audio_suffixes then Done st
        else and_then (render c (SilentHold f frame_duration segment_file) st)
                      (write_entry c segment_file)
    | None =>
        and_then (render c (SilentHold f frame_duration segment_file) st)
                 (write_entry c segment_file)
    end
  else if str_in (suffix f) audio_suffixes then
    match get_audio_duration c f with
    | None => Done st
    | Some audio_duration =>
        match current_image st with
        | None => Aborted (Raised "AssertionError") st
        | Some img =>
            and_then (render c (AudioHeld img f audio_duration segment_file) st)
                     (write_entry c segment_file)
        end
    end
  else write_entry c segment_file st.

(** [enumerate(l)], counting from [start]. *)
Fixpoint enumerate_from {A} (start : nat) (l : list A) : list (nat * A) :=
  match l with
  | [] => []
  | x :: rest => (start, x) :: enumerate_from (S start) rest
  end.

Fixpoint for_each (media_files : list Path) (items : list (nat * Path))
    (st : BuildState) : Outcome BuildState :=
  match items with
  | [] => Done st
  | (i, f) :: rest => and_then (loop_body media_files i f st) (for_each media_files rest)
  end.

(** The segment-building pass of [main]. *)
Definition build_segments (media_files : list Path) : Outcome BuildState :=
  for_each media_files (enumerate_from 0 media_files) initial_state.

End Pass.

(** ** The file system and the narration cache *)

Inductive FileData :=
| Text (content : Py.pystr)
| Wav (sample_rate : Z) (samples : list Z)
| Binary.

(** A directory entry with its [st_mtime]. *)
Inductive Node :=
| Dir (mtime : Z)
| File (mtime : Z) (data : FileData).

Definition st_mtime (n : Node) : Z :=
  match n with Dir t => t | File t _ => t end.

Definition is_file (n : option Node) : bool :=
  match n with Some (File _ _) => true | _ => false end.

Definition is_dir (n : option Node) : bool :=
  match n with Some (Dir _) => true | _ => false end.

(** What the narration phase reads and changes: the files, the time, the
    module-level [_kokoro_pipeline] (its language code once it is built), and
    two logs kept for the proofs: the calls of [run_kokoro_tts] and the texts
    handed to the synthesis engine. *)
Record World := {
  fs : gmap Path Node;
  clock : Z;
  kokoro_pipeline : option string;
  tts_calls : list (Path * Path);
  engine_calls : list Py.pystr
}.

Definition set_fs (m : gmap Path Node) (w : World) : World :=
  {| fs := m; clock := clock w; kokoro_pipeline := kokoro_pipeline w;
     tts_calls := tts_calls w; engine_calls := engine_calls w |}.

Definition set_clock (t : Z) (w : World) : World :=
  {| fs := fs w; clock := t; kokoro_pipeline := kokoro_pipeline w;
     tts_calls := tts_calls w; engine_calls := engine_calls w |}.

Definition set_pipeline (p : option string) (w : World) : World :=
  {| fs := fs w; clock := clock w; kokoro_pipeline := p;
     tts_calls := tts_calls w; engine_calls := engine_calls w |}.

Definition log_tts_call (input_txt output_wav : Path) (w : World) : World :=
  {| fs := fs w; clock := clock w; kokoro_pipeline := kokoro_pipeline w;
     tts_calls := tts_calls w ++ [(input_txt, output_wav)];
     engine_calls := engine_calls w |}.

Definition log_engine_call (text : Py.pystr) (w : World) : World :=
  {| fs := fs w; clock := clock w; kokoro_pipeline := kokoro_pipeline w;
     tts_calls := tts_calls w; engine_calls := engine_calls w ++ [text] |}.

(** The installation and the synthesis engine. *)
Record TtsEnv := {
  (** [import numpy], [import soundfile] succeed *)
  numpy_soundfile_installed : bool;
  (** [from kokoro import KPipeline] succeeds *)
  kokoro_installed : bool;
  (** the audio chunks the pipeline yields for a text *)
  synthesize : Py.pystr -> list (list Z);
  (** the time the synthesis of a text takes, in ticks of the clock *)
  elapsed : Py.pystr -> nat
}.

(** *** A state and error monad over the world *)

Inductive Result (A : Type) :=
| Ok (a : A) (w : World)
| Fail (e : Abort) (w : World).
Arguments Ok {A} a w.
Arguments Fail {A} e w.

Definition M (A : Type) : Type := World -> Result A.

Definition ret {A} (a : A) : M A := fun w => Ok a w.

Definition bind {A B} (m : M A) (k : A -> M B) : M B :=
  fun w => match m w with
           | Ok a w' => k a w'
           | Fail e w' => Fail e w'
           end.

Definition fail {A} (e : Abort) : M A := fun w => Fail e w.

Definition gets {A} (f : World -> A) : M A := fun w => Ok (f w) w.

Definition modify (f : World -> World) : M unit := fun w => Ok tt (f w).

Notation "x <- m ;; k" := (bind m (fun x => k))
  (at level 100, m at next level, right associativity).
Notation "m ;;; k" := (bind m (fun _ => k))
  (at level 100, right associativity).

Definition world_of {A} (r : Result A) : World :=
  match r with Ok _ w => w | Fail _ w => w end.

Definition succeeded {A} (r : Result A) : bool :=
  match r with Ok _ _ => true | Fail _ _ => false end.

(** *** File operations *)

(** The non-empty prefixes of a path, shortest first. *)
Fixpoint prefixes (p : Path) : list Path :=
  match p with
  | [] => []
  | x :: rest => [x] :: map (cons x) (prefixes rest)
  end.

Definition make_dir (t : Z) (m : gmap Path Node) (q : Path) : gmap Path Node :=
  match m !! q with
  | None => <[q := Dir t]> m
  | Some _ => m
  end.

(** [p.mkdir(parents=True, exist_ok=True)] *)
Definition mkdir_parents (p : Path) : M unit := fun w =>
  if existsb (fun q => is_file (fs w !! q)) (prefixes p)
  then Fail (Raised "OSError") w
  else Ok tt (set_fs (foldl (make_dir (clock w)) (fs w) (prefixes p)) w).

(** [sf.write(str(p), samples, rate)]: the directory of [p] must exist and
    [p] must not be a directory. *)
Definition sf_write (p : Path) (samples : list Z) (rate : Z) : M unit := fun w =>
  if is_dir (fs w !! parent p) && negb (is_dir (fs w !! p))
  then Ok tt (set_fs (<[p := File (clock w) (Wav rate samples)]> (fs w)) w)
  else Fail (Raised "LibsndfileError") w.

(** [p.read_text(encoding="utf-8")] *)
Definition read_text (p : Path) : M Py.pystr := fun w =>
  match fs w !! p with
  | Some (File _ (Text content)) => Ok content w
  | Some (File _ _) => Fail (Raised "UnicodeDecodeError") w
  | _ => Fail (Raised "OSError") w
  end.

(** [wav_path.exists() and wav_path.stat().st_mtime > f.stat().st_mtime] *)
Definition cache_is_fresh (wav_path f : Path) : M bool := fun w =>
  match fs w !! wav_path with
  | None => Ok false w
  | Some cached =>
      match fs w !! f with
      | None => Fail (Raised "OSError") w
      | Some source => Ok (st_mtime source <? st_mtime cached)%Z w
      end
  end.

(** *** Kokoro TTS *)

Definition LANG_CODE_MAP : list (string * string) :=
  [("a", "a"); ("b", "b"); ("e", "e"); ("f", "f"); ("h", "h");
   ("i", "i"); ("j", "j"); ("p", "p"); ("z", "z")].

Definition detect_lang_code (voice : string) : string :=
  match voice with
  | String first_char _ =>
      if (2 <=? String.length voice)%nat then
        match List.find (fun e => String.eqb (fst e) (String first_char "")) LANG_CODE_MAP with
        | Some e => snd e
        | None => "a"
        end
      else "a"
  | EmptyString => "a"
  end.

Definition NEWLINE : string := String (ascii_of_nat 10) "".

Definition kokoro_missing_message : string :=
  RED +:+ CROSS +:+ " kokoro package not installed in current environment" +:+ NC +:+ NEWLINE
  +:+ "Narration .txt files require the kokoro package." +:+ NEWLINE
  +:+ "Install with: pip install 'kokoro>=0.9.4' 'misaki[en]' soundfile".

Definition empty_narration_message (input_txt : Path) : string :=
  RED +:+ CROSS +:+ " Narration file is empty: " +:+ name input_txt +:+ NC.

Definition no_audio_message (input_txt : Path) : string :=
  RED +:+ CROSS +:+ " No audio generated for: " +:+ name input_txt +:+ NC.

Definition ensure_kokoro_pipeline (env : TtsEnv) : M unit := fun w =>
  match kokoro_pipeline w with
  | Some _ => Ok tt w
  | None =>
      if kokoro_installed env
      then Ok tt (set_pipeline (Some (detect_lang_code KOKORO_VOICE)) w)
      else Fail (SysExit 1 kokoro_missing_message) w
  end.

(** The run of the pipeline over a text: the call is logged, the clock moves
    on by the time it took. *)
Definition run_pipeline (env : TtsEnv) (text : Py.pystr) : M (list (list Z)) := fun w =>
  Ok (synthesize env text)
     (set_clock (clock w + Z.of_nat (elapsed env text)) (log_engine_call text w)).

Definition run_kokoro_tts (env : TtsEnv) (input_txt output_wav : Path) : M unit :=
  modify (log_tts_call input_txt output_wav) ;;;
  (if numpy_soundfile_installed env then ret tt else fail (Raised "ModuleNotFoundError")) ;;;
  ensure_kokoro_pipeline env ;;;
  raw <- read_text input_txt ;;
  let text := Py.strip raw in
  match text with
  | [] => fail (SysExit 1 (empty_narration_message input_txt))
  | _ =>
      audio_chunks <- run_pipeline env text ;;
      match audio_chunks with
      | [] => fail (SysExit 1 (no_audio_message input_txt))
      | _ => sf_write output_wav (concat audio_chunks) SAMPLE_RATE
      end
  end.

(** *** Narration resolution *)

(** The cache path of a narration text. *)
Definition cache_path (wav_cache_dir f : Path) : Path :=
  wav_cache_dir // (stem f +:+ ".wav").

(** The body of the conversion loop for a [.txt] file. *)
Definition resolve_narration (env : TtsEnv) (wav_cache_dir f : Path) : M Path :=
  mkdir_parents wav_cache_dir ;;;
  let wav_path := cache_path wav_cache_dir f in
  fresh <- cache_is_fresh wav_path f ;;
  (if fresh then ret tt else run_kokoro_tts env f wav_path) ;;;
  ret wav_path.

(** The directories of a run. *)
Record Dirs := {
  screenshot_dir : Path;
  intro_dir : Path;
  use_intro : bool
}.

Definition generated_wav_dir (ds : Dirs) : Path := screenshot_dir ds // "generated-wav".
Definition intro_generated_wav_dir (ds : Dirs) : Path := intro_dir ds // "generated-wav".

Definition wav_cache_dir_of (ds : Dirs) (f : Path) : Path :=
  if use_intro ds && bool_decide (parent f = intro_dir ds)
  then intro_generated_wav_dir ds
  else generated_wav_dir ds.

(** The conversion loop: [converted_files] and [audio_count] are its
    variables. *)
Fixpoint convert_files (env : TtsEnv) (ds : Dirs) (media_files converted_files : list Path)
    (audio_count : nat) : M (list Path * nat) :=
  match media_files with
  | [] => ret (converted_files, audio_count)
  | f :: rest =>
      if String.eqb (suffix f) ".txt" then
        wav_path <- resolve_narration env (wav_cache_dir_of ds f) f ;;
        convert_files env ds rest (converted_files ++ [wav_path]) (S audio_count)
      else convert_files env ds rest (converted_files ++ [f]) audio_count
  end.

(** ** The media catalogue and [main] *)

(** The order of [sorted] on paths: by components, each as a string. *)
Fixpoint path_compare (p q : Path) : comparison :=
  match p, q with
  | [], [] => Eq
  | [], _ :: _ => Lt
  | _ :: _, [] => Gt
  | x :: p', y :: q' =>
      match String.compare x y with
      | Eq => path_compare p' q'
      | other => other
      end
  end.

Definition path_leb (p q : Path) : bool :=
  match path_compare p q with Gt => false | _ => true end.

Fixpoint insert_sorted (p : Path) (l : list Path) : list Path :=
  match l with
  | [] => [p]
  | q :: rest => if path_leb p q then p :: l else q :: insert_sorted p rest
  end.

(** [sorted(l)] *)
Definition sorted (l : list Path) : list Path := foldr insert_sorted [] l.

(** [dir.iterdir()], in no particular order. *)
Definition iterdir (m : gmap Path Node) (dir : Path) : list Path :=
  List.filter (fun p => bool_decide (p <> [] /\ parent p = dir)) (map fst (map_to_list m)).

(** The files of a directory that the catalogue accepts, sorted. *)
Definition collect (m : gmap Path Node) (dir : Path) : list Path :=
  sorted (List.filter
            (fun f => is_file (m !! f)
                      && str_in (Py.lower (suffix f)) valid_extensions
                      && negb (str_in "generated-wav" f))
            (iterdir m dir)).

(** [sum(1 for f in files if f.suffix in exts)] *)
Definition count_suffix (exts : list string) (files : list Path) : nat :=
  length (List.filter (fun f => str_in (suffix f) exts) files).

Record Args := {
  base_path : Path;
  subfolder_name : string;
  no_intro : bool
}.

(** What [main] has established when the segment-building pass is over. *)
Record Report := {
  media_files : list Path;
  image_count : nat;
  audio_count : nat;
  tts_count : nat;
  build : Outcome BuildState
}.

Definition missing_directory_message (dir : Path) : string :=
  RED +:+ CROSS +:+ " Directory not found: " +:+ posix_str dir +:+ "/" +:+ NC +:+ NEWLINE
  +:+ "Run a demo test with screenshots enabled first.".

Definition no_media_message (dir : Path) : string :=
  RED +:+ CROSS +:+ " No .png, .mp3, .wav, or .txt files found in "
  +:+ posix_str dir +:+ "/" +:+ NC.

Definition no_screenshot_message (dir : Path) : string :=
  RED +:+ CROSS +:+ " No .png screenshots found in " +:+ posix_str dir +:+ "/" +:+ NC +:+ NEWLINE
  +:+ "At least one screenshot is required.".

Definition first_file_message (first_file : Path) : string :=
  RED +:+ CROSS +:+ " First file must be a .png screenshot, got: " +:+ name first_file
  +:+ NC +:+ NEWLINE +:+ "Audio clips need a preceding screenshot to display.".

(** *** The output directories *)

Definition segment_dir_of (args : Args) : Path :=
  base_path args // "test-videos" // (subfolder_name args +:+ "-segments").

Definition output_dir_of (args : Args) : Path := base_path args // "test-videos".

Definition mp4_file_of (args : Args) : Path :=
  output_dir_of args // (subfolder_name args +:+ ".mp4").

Definition gif_file_of (args : Args) : Path :=
  output_dir_of args // (subfolder_name args +:+ ".gif").

(** The file at a path, with its time stamp.  The model does not keep the
    time stamp of a directory up to date when an entry is added to it or
    removed from it, so that what is said of the entries the program leaves
    alone is said of files. *)
Definition file_at (m : gmap Path Node) (q : Path) : option (Z * FileData) :=
  match m !! q with
  | Some (File t data) => Some (t, data)
  | _ => None
  end.

(** [shutil.rmtree(d)] *)
Definition rmtree (d : Path) : M unit := fun w =>
  if is_dir (fs w !! d)
  then Ok tt (set_fs (filter (fun e => ~ d `prefix_of` e.1) (fs w)) w)
  else Fail (Raised "OSError") w.

(** [p.unlink(missing_ok=True)] *)
Definition unlink_missing_ok (p : Path) : M unit := fun w =>
  match fs w !! p with
  | None => Ok tt w
  | Some (File _ _) => Ok tt (set_fs (delete p (fs w)) w)
  | Some (Dir _) => Fail (Raised "OSError") w
  end.

(** The preparation of the output and segment directories in [main]. *)
Definition prepare_output (args : Args) : M unit :=
  mkdir_parents (output_dir_of args) ;;;
  present <- gets (fun w => bool_decide (is_Some (fs w !! segment_dir_of args))) ;;
  (if present then rmtree (segment_dir_of args) else ret tt) ;;;
  mkdir_parents (segment_dir_of args) ;;;
  unlink_missing_ok (mp4_file_of args) ;;;
  unlink_missing_ok (gif_file_of args).

(** [main], from the check of the screenshot directory (line 334) to the
    end of the segment-building pass (line 500), for a command line that
    [argparse] has accepted, with a base folder and a subfolder name that
    are not empty, and with ffmpeg and ffprobe installed.  The concatenation
    and the GIF export come after. *)
Definition main (c : Collab) (env : TtsEnv) (args : Args) : M Report :=
  let screenshot_dir := base_path args // "screenshots" // subfolder_name args in
  let intro_dir := parent screenshot_dir // "intro" in
  let output_dir := base_path args // "test-videos" in
  let segment_dir := output_dir // (subfolder_name args +:+ "-segments") in
  m <- gets fs ;;
  if negb (is_dir (m !! screenshot_dir))
  then fail (SysExit 1 (missing_directory_message screenshot_dir))
  else
  let main_files := collect m screenshot_dir in
  match main_files with
  | [] => fail (SysExit 1 (no_media_message screenshot_dir))
  | _ =>
  let use_intro := negb (no_intro args) && is_dir (m !! intro_dir) in
  let intro_files := if use_intro then collect m intro_dir else [] in
  let use_intro := use_intro && match intro_files with [] => false | _ => true end in
  let media_files := intro_files ++ main_files in
  let image_count := count_suffix [".png"] media_files in
  let audio_count := count_suffix [".mp3"; ".wav"] media_files in
  let tts_count := count_suffix [".txt"] media_files in
  if (image_count =? 0)%nat
  then fail (SysExit 1 (no_screenshot_message screenshot_dir))
  else
  match media_files with
  | [] => fail (Raised "IndexError")
  | first_file :: _ =>
  if negb (String.eqb (suffix first_file) ".png")
  then fail (SysExit 1 (first_file_message first_file))
  else
  converted <-
    (if (0 <? tts_count)%nat
     then convert_files env
            {| screenshot_dir := screenshot_dir; intro_dir := intro_dir;
               use_intro := use_intro |}
            media_files [] audio_count
     else ret (media_files, audio_count)) ;;
  prepare_output args ;;;
  ret {| media_files := fst converted;
         image_count := image_count;
         audio_count := snd converted;
         tts_count := tts_count;
         build := build_segments c FRAME_DURATION segment_dir (fst converted) |}
  end
  end.

Definition report_of (r : Result Report) : option Report :=
  match r with Ok rep _ => Some rep | Fail _ _ => None end.

Definition abort_of {A} (r : Result A) : option Abort :=
  match r with Ok _ _ => None | Fail e _ => Some e end.

(** ** Notions used in the statements *)

(** *** The loop body *)

Section BodyShapes.
Variable c : Collab.
Variable frame_duration : Q.
Variable segment_dir : Path.

(** The shapes a run of the loop body can take. *)
Inductive body_result (f : Path) (st : BuildState) : Outcome BuildState -> Prop :=
| br_skip :
    str_in (suffix f) audio_suffixes = true ->
    get_audio_duration c f = None ->
    body_result f st (Done st)
| br_held : suffix f = ".png" -> body_result f st (Done (set_current_image f st))
| br_abort e :
    str_in (suffix f) audio_suffixes = true ->
    body_result f st (Aborted e st)
| br_abort_image e : suffix f = ".png" -> body_result f st (Aborted e (set_current_image f st))
| br_entry :
    String.eqb (suffix f) ".png" = false ->
    str_in (suffix f) audio_suffixes = false ->
    body_result f st (write_entry c (segment_path segment_dir (segment_index st)) st)
| br_silent :
    suffix f = ".png" ->
    body_result f st
      (write_entry c (segment_path segment_dir (segment_index st))
         {| segment_index := segment_index st; current_image := Some f;
            total_duration := total_duration st + frame_duration;
            cl := cl st;
            timeline := timeline st ++
              [SilentHold f frame_duration (segment_path segment_dir (segment_index st))] |})
| br_audio img d :
    current_image st = Some img ->
    str_in (suffix f) audio_suffixes = true ->
    get_audio_duration c f = Some d ->
    body_result f st
      (write_entry c (segment_path segment_dir (segment_index st))
         {| segment_index := segment_index st; current_image := current_image st;
            total_duration := total_duration st + d;
            cl := cl st;
            timeline := timeline st ++
              [AudioHeld img f d (segment_path segment_dir (segment_index st))] |}).

End BodyShapes.

(** *** Measures of a timeline *)

Definition silent_count (tl : list Segment) : nat := length (List.filter is_silent tl).

(** The sum of the durations of the audio-held segments. *)
Fixpoint audio_total (tl : list Segment) : Q :=
  match tl with
  | [] => 0
  | SilentHold _ _ _ :: rest => audio_total rest
  | AudioHeld _ _ d _ :: rest => d + audio_total rest
  end.

(** The same segment under another fixed duration. *)
Definition retime (d : Q) (s : Segment) : Segment :=
  match s with
  | SilentHold i _ o => SilentHold i d o
  | AudioHeld i a d' o => AudioHeld i a d' o
  end.

(** What the accumulated duration stands for. *)
Definition duration_accounted (d : Q) (st : BuildState) : Prop :=
  (total_duration st ==
     inject_Z (Z.of_nat (silent_count (timeline st))) * d + audio_total (timeline st))%Q
  /\ Forall (fun s => is_silent s = true -> seg_duration s = d) (timeline st).

(** Two runs that differ in the fixed duration only. *)
Definition same_but_silent (d2 : Q) (st1 st2 : BuildState) : Prop :=
  segment_index st2 = segment_index st1 /\
  current_image st2 = current_image st1 /\
  cl st2 = cl st1 /\
  timeline st2 = map (retime d2) (timeline st1).

(** *** Probe failures and held audio *)

(** The three ways the probe of [get_audio_duration] fails. *)
Definition probe_fails (c : Collab) (f : Path) : Prop :=
  let value := Py.strip (ffprobe_stdout c f) in
  value = [] \/ value = Py.of_string "N/A" \/ py_float c value = None.

(** An enumerated item that is an audio file without a duration. *)
Definition probe_skipped (c : Collab) (e : nat * Path) : bool :=
  str_in (suffix (snd e)) audio_suffixes &&
  match get_audio_duration c (snd e) with Some _ => false | None => true end.

(** Every audio-held segment carries the duration its audio probes to. *)
Definition probed_segment (c : Collab) (s : Segment) : Prop :=
  match s with
  | SilentHold _ _ _ => True
  | AudioHeld _ a d _ => get_audio_duration c a = Some d
  end.

(** The segments a block of audio files is due when all of them are held
    against [img], the first one being numbered [k]. *)
Fixpoint held_segments (c : Collab) (segment_dir img : Path) (k : nat)
    (auds : list Path) : list Segment :=
  match auds with
  | [] => []
  | a :: rest =>
      match get_audio_duration c a with
      | None => held_segments c segment_dir img k rest
      | Some d =>
          AudioHeld img a d (segment_path segment_dir k)
            :: held_segments c segment_dir img (S k) rest
      end
  end.

(** *** Manifest entries *)

(** Reading a file number back from its digits. *)
Definition parse_nat (s : string) : option nat :=
  option_map Nat.of_uint (NilEmpty.uint_of_string s).

(** The entry a segment is due in the concat list. *)
Definition entry_of (c : Collab) (s : Segment) : string := manifest_line c (seg_output s).

(** The files of the segment directory that the encoder wrote. *)
Definition rendered_files (st : BuildState) : list Path := map seg_output (timeline st).

(** Every rendered file carries a number below the segment index. *)
Definition numbered_below (segment_dir : Path) (st : BuildState) : Prop :=
  forall seg, In seg (timeline st) ->
  exists j, (j < segment_index st)%nat /\ seg_output seg = segment_path segment_dir j.

(** Once the segment index has passed [k], the file numbered [k] is not
    rendered any more. *)
Definition never_rendered (segment_dir : Path) (k : nat) (st : BuildState) : Prop :=
  (k < segment_index st)%nat /\
  forall seg, In seg (timeline st) -> seg_output seg <> segment_path segment_dir k.

(** The suffixes the segment-building pass tests for. *)
Definition pass_suffix (f : Path) : bool :=
  String.eqb (suffix f) ".png" || str_in (suffix f) audio_suffixes.

(** *** The narration cache *)

(** The cache invariant of the specification: the cached audio exists and
    is strictly newer than the source text. *)
Definition fresh (m : gmap Path Node) (cachedAudio sourceText : Path) : Prop :=
  exists cached source,
    m !! cachedAudio = Some cached /\ m !! sourceText = Some source /\
    (st_mtime source < st_mtime cached)%Z.

(** No prefix of the directory is a file, so that it can be created. *)
Definition cache_dir_usable (m : gmap Path Node) (d : Path) : Prop :=
  Forall (fun q => is_file (m !! q) = false) (prefixes d).

(** How the narration phase may change the files, [c0] being the time it
    started: directories stay, [.txt] files stay, and any other entry stays
    or is replaced by one stamped [c0] or later. *)
Definition evolves (c0 : Z) (m m' : gmap Path Node) : Prop :=
  (forall q t, m !! q = Some (Dir t) -> m' !! q = Some (Dir t)) /\
  (forall q n, suffix q = ".txt" -> m !! q = Some n -> m' !! q = Some n) /\
  (forall q n, m !! q = Some n ->
     m' !! q = Some n \/ exists n', m' !! q = Some n' /\ (c0 <= st_mtime n')%Z).

(** A narration text whose cache directory exists and whose cache entry is
    fresh. *)
Definition settled (ds : Dirs) (m : gmap Path Node) (f : Path) : Prop :=
  Forall (fun q => is_dir (m !! q) = true) (prefixes (wav_cache_dir_of ds f)) /\
  fresh m (cache_path (wav_cache_dir_of ds f) f) f.

(** The media list after narration resolution. *)
Definition resolved (ds : Dirs) (f : Path) : Path :=
  if String.eqb (suffix f) ".txt" then cache_path (wav_cache_dir_of ds f) f else f.

Definition count_txt (media_files : list Path) : nat :=
  length (List.filter (fun f => String.eqb (suffix f) ".txt") media_files).

(** ** Inputs for the examples *)

(** *** A decimal [float] *)

(** [float] on the plain decimal numerals [ddd] and [ddd.ddd]; it stands for
    Python's [float] in the examples only. *)
Definition digit_val (ch : N) : option Z :=
  if ((48 <=? ch) && (ch <=? 57))%N then Some (Z.of_N ch - 48)%Z else None.

Fixpoint decimal_float_aux (s : Py.pystr) (num : Z) (den : positive) (frac : bool)
    : option Q :=
  match s with
  | [] => Some (Qred (num # den))
  | ch :: rest =>
      if (ch =? 46)%N then
        if frac then None else decimal_float_aux rest num den true
      else
        match digit_val ch with
        | Some d =>
            decimal_float_aux rest (num * 10 + d)%Z (if frac then (den * 10)%positive else den) frac
        | None => None
        end
  end.

Definition decimal_float (s : Py.pystr) : option Q :=
  match s with
  | [] => None
  | _ => if bool_decide (s = [46%N]) then None else decimal_float_aux s 0 1 false
  end.

(** *** Collaborators *)

(** A prober that answers from a table of file names, a decimal [float], an
    encoder that never fails, and [/work] as the working directory. *)
Definition demo_collab (probe_table : list (string * string)) : Collab :=
  {| ffprobe_stdout := fun p =>
       match List.find (fun e => String.eqb (fst e) (name p)) probe_table with
       | Some e => Py.of_string (snd e) ++ [10%N]
       | None => []
       end;
     py_float := decimal_float;
     ffmpeg_ok := fun _ => true;
     resolve_str := fun p => "/work/" +:+ posix_str p |}.

(** *** Worlds *)

(** An engine that turns each code point into one sample and takes one tick
    per code point. *)
Definition demo_env : TtsEnv :=
  {| numpy_soundfile_installed := true;
     kokoro_installed := true;
     synthesize := fun text => [map Z.of_N text];
     elapsed := fun text => length text |}.

Definition demo_dirs : Dirs :=
  {| screenshot_dir := ["screenshots"; "demo"];
     intro_dir := ["screenshots"; "intro"];
     use_intro := false |}.

Definition demo_png : Path := ["screenshots"; "demo"; "001.png"].
Definition demo_txt : Path := ["screenshots"; "demo"; "002.txt"].
Definition demo_wav : Path := ["screenshots"; "demo"; "generated-wav"; "002.wav"].

(** The directory of the demo at time 100: a screenshot, and a narration
    text written at time 30. *)
Definition demo_world (narration : string) : World :=
  {| fs := list_to_map
             [(["screenshots"], Dir 10);
              (["screenshots"; "demo"], Dir 10);
              (demo_png, File 20 Binary);
              (demo_txt, File 30 (Text (Py.of_string narration)))];
     clock := 100;
     kokoro_pipeline := None;
     tts_calls := [];
     engine_calls := [] |}.

(** The same with a cached WAV written at time [t]. *)
Definition demo_world_cached (narration : string) (t : Z) : World :=
  set_fs (<[demo_wav := File t (Wav SAMPLE_RATE [])]>
          (<[["screenshots"; "demo"; "generated-wav"] := Dir t]>
           (fs (demo_world narration))))
         (demo_world narration).

(** A directory with the given files, all written at time 20, at time 100. *)
Definition demo_directory (files : list (string * FileData)) : World :=
  {| fs := list_to_map
             ([(["proj"], Dir 10);
               (["proj"; "screenshots"], Dir 10);
               (["proj"; "screenshots"; "demo"], Dir 10)]
              ++ map (fun e => (["proj"; "screenshots"; "demo"; fst e], File 20 (snd e))) files);
     clock := 100;
     kokoro_pipeline := None;
     tts_calls := [];
     engine_calls := [] |}.

Definition demo_args : Args :=
  {| base_path := ["proj"]; subfolder_name := "demo"; no_intro := false |}.

Definition demo_prober : Collab :=
  demo_collab [("002.mp3", "5.0"); ("002.MP3", "5.0"); ("003.wav", "3.2")].

(** The demo directory with a screenshot, an audio clip and a narration
    text, the extensions in capitals or not. *)
Definition demo_upper : World :=
  demo_directory [("001.png", Binary); ("002.MP3", Binary);
                  ("003.TXT", Text (Py.of_string "Hello."))].

Definition demo_lower : World :=
  demo_directory [("001.png", Binary); ("002.mp3", Binary);
                  ("003.txt", Text (Py.of_string "Hello."))].

(** ** More about the segment-building pass *)

(** The entries of the segment files numbered below [n], in order. *)
Definition numbered_entries (c : Collab) (segment_dir : Path) (n : nat) : list string :=
  map (fun k => manifest_line c (segment_path segment_dir k)) (seq 0 n).

(** The last screenshot of a list, if it has one. *)
Fixpoint last_image (items : list Path) : option Path :=
  match items with
  | [] => None
  | f :: rest =>
      match last_image rest with
      | Some p => Some p
      | None => if String.eqb (suffix f) ".png" then Some f else None
      end
  end.

(** One silent hold for each screenshot among enumerated items, numbered by
    the position of the screenshot. *)
Fixpoint silent_holds (d : Q) (segment_dir : Path) (items : list (nat * Path)) : list Segment :=
  match items with
  | [] => []
  | (i, f) :: rest =>
      if String.eqb (suffix f) ".png"
      then SilentHold f d (segment_path segment_dir i) :: silent_holds d segment_dir rest
      else silent_holds d segment_dir rest
  end.

(** The ways a run of the loop may end once an image is at hand: it returns
    with an image at hand, or the encoder has failed. *)
Definition safe_outcome (c : Collab) (o : Outcome BuildState) : Prop :=
  match o with
  | Done s => current_image s <> None
  | Aborted e _ => e = Raised "CalledProcessError" /\ exists seg, ffmpeg_ok c seg = false
  end.

(** ** More about the catalogue *)

(** What the catalogue asks of a path of directory [dir]. *)
Definition catalogued (m : gmap Path Node) (dir f : Path) : Prop :=
  f <> [] /\ parent f = dir /\
  is_file (m !! f) = true /\
  str_in (Py.lower (suffix f)) valid_extensions = true /\
  str_in "generated-wav" f = false.

(** Strictly ascending file names. *)
Definition name_lt (p q : Path) : Prop := String.ltb (name p) (name q) = true.

(** ** More about [main] *)

(** The directories [main] derives from its arguments. *)
Definition shots_dir (args : Args) : Path :=
  base_path args // "screenshots" // subfolder_name args.

Definition intro_dir_of (args : Args) : Path := parent (shots_dir args) // "intro".

(** The files of the intro directory that [main] prepends. *)
Definition intro_files_of (m : gmap Path Node) (args : Args) : list Path :=
  if negb (no_intro args) && is_dir (m !! intro_dir_of args)
  then collect m (intro_dir_of args)
  else [].

(** The media list of [main] before narration resolution. *)
Definition catalogue (m : gmap Path Node) (args : Args) : list Path :=
  intro_files_of m args ++ collect m (shots_dir args).

Definition dirs_of (m : gmap Path Node) (args : Args) : Dirs :=
  {| screenshot_dir := shots_dir args;
     intro_dir := intro_dir_of args;
     use_intro := (negb (no_intro args) && is_dir (m !! intro_dir_of args))
                  && match intro_files_of m args with [] => false | _ => true end |}.

(** The narration phase of [main] (lines 390-427): the conversion loop when
    there is a narration text. *)
Definition narration_stage (env : TtsEnv) (args : Args) (w : World)
    : Result (list Path * nat) :=
  let media := catalogue (fs w) args in
  if (0 <? count_suffix [".txt"] media)%nat
  then convert_files env (dirs_of (fs w) args) media []
         (count_suffix [".mp3"; ".wav"] media) w
  else Ok (media, count_suffix [".mp3"; ".wav"] media) w.

(** The four exits of [main] before any work is done. *)
Definition preflight_exit (args : Args) (media : list Path) (e : Abort) : Prop :=
  e = SysExit 1 (missing_directory_message (shots_dir args)) \/
  e = SysExit 1 (no_media_message (shots_dir args)) \/
  e = SysExit 1 (no_screenshot_message (shots_dir args)) \/
  exists first rest, media = first :: rest /\ suffix first <> ".png" /\
                     e = SysExit 1 (first_file_message first).

(** A segment that shows a screenshot of the list and, if it plays audio,
    plays an audio file of the list for the duration it probes to. *)
Definition segment_of_media (c : Collab) (d : Q) (media : list Path) (s : Segment) : Prop :=
  In (seg_image s) media /\ suffix (seg_image s) = ".png" /\
  match s with
  | SilentHold _ d' _ => d' = d
  | AudioHeld _ a d' _ =>
      In a media /\ str_in (suffix a) audio_suffixes = true /\
      get_audio_duration c a = Some d'
  end.

(** The language codes Kokoro knows. *)
Definition lang_codes : list string := map fst LANG_CODE_MAP.

(** The demo directory with a file where the segment directory goes. *)
Definition demo_blocked_outputs : World :=
  set_fs (<[["proj"; "test-videos"; "demo-segments"] := File 50 Binary]>
          (<[["proj"; "test-videos"] := Dir 50]> (fs demo_upper)))
         demo_upper.

(** A project with a segment directory and a video left by an earlier
    run. *)
Definition demo_stale_outputs : World :=
  set_fs (<[["proj"; "test-videos"; "demo-segments"; "segment-0003.mp4"] := File 50 Binary]>
          (<[["proj"; "test-videos"; "demo-segments"] := Dir 50]>
           (<[["proj"; "test-videos"; "demo.mp4"] := File 60 Binary]>
            (<[["proj"; "test-videos"] := Dir 50]> (fs demo_lower)))))
         demo_lower.

(** ** Sizes for the summary *)

(** The decimal digits of a natural number given as an integer. *)
Definition decimal_Z (z : Z) : string := NilEmpty.string_of_uint (N.to_uint (Z.to_N z)).

(** The integer nearest to [n / d], ties going to the even one. *)
Definition nearest_even (n d : Z) : Z :=
  let floor := (n / d)%Z in
  match (2 * (n mod d) ?= d)%Z with
  | Lt => floor
  | Gt => (floor + 1)%Z
  | Eq => if Z.even floor then floor else (floor + 1)%Z
  end.

(** [f"{q:.1f}"] for a non-negative number: the nearest multiple of one
    tenth, ties going to the even digit. *)
Definition format_1f (q : Q) : string :=
  let tenths := nearest_even (Qnum (q * 10)) (Z.pos (Qden (q * 10))) in
  decimal_Z (tenths / 10) +:+ "." +:+ decimal_Z (tenths mod 10).

(** The loop of [human_readable_size] over the units that are left. *)
Fixpoint size_loop (units : list string) (size : Q) : string :=
  match units with
  | [] => format_1f size +:+ "P"
  | unit :: rest =>
      if Qlt_le_dec size 1024 then
        if String.eqb unit "B" then decimal_Z (Qfloor size) +:+ unit
        else format_1f size +:+ unit
      else size_loop rest (size / 1024)
  end.

(** [human_readable_size], as a function of [st_size].  Below 2^53 bytes
    the floating-point divisions by 1024 are exact, and so is the model. *)
Definition human_readable_size (st_size : Z) : string :=
  size_loop ["B"; "K"; "M"; "G"; "T"] (inject_Z st_size).

(** 1024 to the power [k]. *)
Fixpoint pow1024 (k : nat) : positive :=
  match k with
  | O => 1%positive
  | S k' => (pow1024 k' * 1024)%positive
  end.

(** ** kokoro-generate.py *)

(** The Kokoro engine: the audio chunks that
    [KPipeline(lang_code=l)(text, voice=v, speed=s, split_pattern=r'\n+')]
    yields, and the time the call takes in ticks of the clock. *)
Record Engine := {
  speak : string -> string -> Q -> Py.pystr -> list (list Z);
  speak_time : string -> string -> Q -> Py.pystr -> nat
}.

(** The engine as [create-video.py] drives it: the pipeline of
    [KOKORO_VOICE]'s language, that voice, speed 1.0. *)
Definition in_process (numpy_soundfile kokoro : bool) (eng : Engine) : TtsEnv :=
  {| numpy_soundfile_installed := numpy_soundfile;
     kokoro_installed := kokoro;
     synthesize := speak eng (detect_lang_code KOKORO_VOICE) KOKORO_VOICE 1;
     elapsed := speak_time eng (detect_lang_code KOKORO_VOICE) KOKORO_VOICE 1 |}.

(** [with open(p, 'r', encoding='utf-8') as f: f.read()] *)
Definition open_read (p : Path) : M Py.pystr := fun w =>
  match fs w !! p with
  | Some (File _ (Text content)) => Ok content w
  | Some (File _ _) => Fail (Raised "UnicodeDecodeError") w
  | Some (Dir _) => Fail (Raised "IsADirectoryError") w
  | None =>
      if existsb (fun q => is_file (fs w !! q)) (prefixes (parent p))
      then Fail (Raised "NotADirectoryError") w
      else Fail (Raised "FileNotFoundError") w
  end.

(** [try: m except exn: handler] *)
Definition try_except {A} (m : M A) (exn : string) (handler : M A) : M A := fun w =>
  match m w with
  | Fail (Raised e) w' => if String.eqb e exn then handler w' else Fail (Raised e) w'
  | r => r
  end.

Module KokoroGenerate.

(** The parsed command line. *)
Record Args := {
  input : Path;
  output : Path;
  voice : string;
  speed : Q;
  lang : option string
}.

(** The command line [kokoro-generate.py input output], every option at its
    default. *)
Definition default_args (input_txt output_wav : Path) : Args :=
  {| input := input_txt; output := output_wav; voice := "bm_daniel"; speed := 1;
     lang := None |}.

Definition not_found_message (args : Args) : string :=
  "Error: Input file not found: " +:+ posix_str (input args).

Definition empty_message (args : Args) : string :=
  "Error: Input file is empty: " +:+ posix_str (input args).

Definition no_audio_message : string := "Error: No audio generated".

(** [args.lang if args.lang else detect_lang_code(args.voice)] *)
Definition lang_code_of (args : Args) : string :=
  match lang args with
  | Some (String ch rest) => String ch rest
  | _ => detect_lang_code (voice args)
  end.

(** The run of a new pipeline over a text. *)
Definition run_pipeline (eng : Engine) (args : Args) (text : Py.pystr) : M (list (list Z)) :=
  fun w =>
  Ok (speak eng (lang_code_of args) (voice args) (speed args) text)
     (set_clock (clock w + Z.of_nat (speak_time eng (lang_code_of args) (voice args) (speed args) text))
                (log_engine_call text w)).

Definition main (eng : Engine) (args : Args) : M unit :=
  raw <- try_except (open_read (input args)) "FileNotFoundError"
           (fail (SysExit 1 (not_found_message args))) ;;
  let text := Py.strip raw in
  match text with
  | [] => fail (SysExit 1 (empty_message args))
  | _ =>
      audio_chunks <- run_pipeline eng args text ;;
      match audio_chunks with
      | [] => fail (SysExit 1 no_audio_message)
      | _ => sf_write (output args) (concat audio_chunks) SAMPLE_RATE
      end
  end.

(** The script once [parser.parse_args()] has returned the parsed command
    line (a command line that [argparse] turns down, or [--help], ends the
    run inside [parse_args], before anything here): the imports at the top of
    the module, then [main] from the reading of the input on (line 67). *)
Definition script (numpy_soundfile kokoro : bool) (eng : Engine) (args : Args) : M unit :=
  (if numpy_soundfile then ret tt else fail (Raised "ModuleNotFoundError")) ;;;
  (if kokoro then ret tt else fail (Raised "ModuleNotFoundError")) ;;;
  main eng args.

End KokoroGenerate.

(** An engine that turns each code point into one sample, whatever the
    voice, and takes one tick per code point. *)
Definition demo_engine : Engine :=
  {| speak := fun _ _ _ text => [map Z.of_N text];
     speak_time := fun _ _ _ text => length text |}.


(** ** An item the pass owes a segment *)

(** A screenshot that is not followed at once by an audio file, or an audio
    file that probes. *)
Definition owed_segment (c : Collab) (media : list Path) (e : nat * Path) : bool :=
  if String.eqb (suffix (snd e)) ".png" then
    match next_file media (fst e) with
    | Some nf => negb (str_in (suffix nf) audio_suffixes)
    | None => true
    end
  else
    str_in (suffix (snd e)) audio_suffixes &&
    match get_audio_duration c (snd e) with Some _ => true | None => false end.

(** ** The accumulated duration in binary64 *)

(** [total_duration] is a Python [float], an IEEE 754 binary64 number:
    precision 53, exponents below 1024.  The operations are those of the
    Standard Library's [SpecFloat]. *)
Definition float_add (x y : spec_float) : spec_float := SFadd 53 1024 x y.

(** [float(n)] for an integer [n]. *)
Definition float_of_Z (n : Z) : spec_float := binary_normalize 53 1024 n 0 false.

(** The binary64 number of a rational, as the correctly rounded quotient of
    its numerator and its denominator.  Where both are below 2^53, as for
    every decimal of up to 15 digits, and where the rational is a binary64
    number itself, this is the nearest binary64 number: what [float(value)]
    returns, and what the integer [FRAME_DURATION] becomes in a sum. *)
Definition float_of_Q (q : Q) : spec_float :=
  SFdiv 53 1024 (float_of_Z (Qnum q)) (float_of_Z (Z.pos (Qden q))).

(** The exact value of a finite binary64 number. *)
Definition float_value (x : spec_float) : option Q :=
  match x with
  | S754_zero _ => Some 0%Q
  | S754_finite s m e =>
      Some ((if s then - inject_Z (Z.pos m) else inject_Z (Z.pos m)) * Qpower 2 e)%Q
  | _ => None
  end.

(** The variables of the loop, [total_duration] being a [float]. *)
Record BuildState64 := {
  segment_index64 : nat;
  current_image64 : option Path;
  total_duration64 : spec_float;
  cl64 : list string;
  timeline64 : list Segment
}.

(** [total_duration: float = 0.0] *)
Definition initial_state64 : BuildState64 :=
  {| segment_index64 := 0; current_image64 := None; total_duration64 := S754_zero false;
     cl64 := []; timeline64 := [] |}.

Definition set_current_image64 (f : Path) (st : BuildState64) : BuildState64 :=
  {| segment_index64 := segment_index64 st; current_image64 := Some f;
     total_duration64 := total_duration64 st; cl64 := cl64 st; timeline64 := timeline64 st |}.

(** The encoder call, followed by [total_duration += ...] in binary64. *)
Definition render64 (c : Collab) (seg : Segment) (st : BuildState64) : Outcome BuildState64 :=
  if ffmpeg_ok c seg then
    Done {| segment_index64 := segment_index64 st; current_image64 := current_image64 st;
            total_duration64 := float_add (total_duration64 st) (float_of_Q (seg_duration seg));
            cl64 := cl64 st; timeline64 := timeline64 st ++ [seg] |}
  else Aborted (Raised "CalledProcessError") st.

Definition write_entry64 (c : Collab) (segment_file : Path) (st : BuildState64)
    : Outcome BuildState64 :=
  Done {| segment_index64 := S (segment_index64 st); current_image64 := current_image64 st;
          total_duration64 := total_duration64 st;
          cl64 := cl64 st ++ [manifest_line c segment_file]; timeline64 := timeline64 st |}.

Section Pass64.
Variable c : Collab.
Variable frame_duration : Q.
Variable segment_dir : Path.

(** The body of [for i, f in enumerate(media_files)]. *)
Definition loop_body64 (media_files : list Path) (i : nat) (f : Path)
    (st : BuildState64) : Outcome BuildState64 :=
  let segment_file := segment_path segment_dir (segment_index64 st) in
  if String.eqb (suffix f) ".png" then
    let st := set_current_image64 f st in
    match next_file media_files i with
    | Some nf =>
        if str_in (suffix nf) audio_suffixes then Done st
        else and_then (render64 c (SilentHold f frame_duration segment_file) st)
                      (write_entry64 c segment_file)
    | None =>
        and_then (render64 c (SilentHold f frame_duration segment_file) st)
                 (write_entry64 c segment_file)
    end
  else if str_in (suffix f) audio_suffixes then
    match get_audio_duration c f with
    | None => Done st
    | Some audio_duration =>
        match current_image64 st with
        | None => Aborted (Raised "AssertionError") st
        | Some img =>
            and_then (render64 c (AudioHeld img f audio_duration segment_file) st)
                     (write_entry64 c segment_file)
        end
    end
  else write_entry64 c segment_file st.

Fixpoint for_each64 (media_files : list Path) (items : list (nat * Path))
    (st : BuildState64) : Outcome BuildState64 :=
  match items with
  | [] => Done st
  | (i, f) :: rest => and_then (loop_body64 media_files i f st) (for_each64 media_files rest)
  end.

(** The segment-building pass of [main], with the total it prints. *)
Definition build_segments64 (media_files : list Path) : Outcome BuildState64 :=
  for_each64 media_files (enumerate_from 0 media_files) initial_state64.

End Pass64.

(** The variables of the loop other than [total_duration]. *)
Definition same_variables (st64 : BuildState64) (st : BuildState) : Prop :=
  segment_index64 st64 = segment_index st /\
  current_image64 st64 = current_image st /\
  cl64 st64 = cl st /\
  timeline64 st64 = timeline st.

Definition same_outcome (o64 : Outcome BuildState64) (o : Outcome BuildState) : Prop :=
  match o64, o with
  | Done a, Done b => same_variables a b
  | Aborted e a, Aborted e' b => e = e' /\ same_variables a b
  | _, _ => False
  end.

(** The durations of a timeline added up in binary64, in the order of
    emission, from 0.0. *)
Definition float_sum (tl : list Segment) : spec_float :=
  fold_left (fun acc s => float_add acc (float_of_Q (seg_duration s))) tl (S754_zero false).

(** The sum by kind, in binary64: the durations of the SilentHold segments
    added up, plus the durations of the AudioHeld segments added up. *)
Definition float_sum_by_kind (tl : list Segment) : spec_float :=
  float_add (float_sum (List.filter is_silent tl))
            (float_sum (List.filter (fun s => negb (is_silent s)) tl)).

(** The durations of a timeline added up exactly. *)
Definition exact_sum (tl : list Segment) : Q :=
  fold_right (fun s acc => seg_duration s + acc)%Q 0%Q tl.

(** The demo with a narration text stamped [t]. *)
Definition demo_world_stamped (narration : string) (t : Z) : World :=
  set_fs (<[demo_txt := File t (Text (Py.of_string narration))]> (fs (demo_world narration)))
         (demo_world narration).

(** * Properties *)

(** ** Sanity checks of the embedding *)

Example suffix_ex1 : suffix ["shots"; "001-welcome.png"] = ".png".
Proof. reflexivity. Qed.
Example suffix_ex2 : suffix ["shots"; "001.PNG"] = ".PNG".
Proof. reflexivity. Qed.
Example suffix_ex3 : suffix ["shots"; ".png"] = "".
Proof. reflexivity. Qed.
Example suffix_ex4 : suffix ["shots"; "a.b.txt"] = ".txt" /\ stem ["shots"; "a.b.txt"] = "a.b".
Proof. split; reflexivity. Qed.
Example lower_ex : Py.lower ".Mp3" = ".mp3".
Proof. reflexivity. Qed.
Example strip_ex : Py.strip (Py.of_string "  5.0 ") = Py.of_string "5.0".
Proof. reflexivity. Qed.
Example decimal_float_ex1 : decimal_float (Py.of_string "5.0") = Some 5%Q.
Proof. reflexivity. Qed.
Example decimal_float_ex2 : decimal_float (Py.of_string "3.2") = Some (16 # 5)%Q.
Proof. reflexivity. Qed.
Example decimal_float_ex3 : decimal_float (Py.of_string "abc") = None.
Proof. reflexivity. Qed.
Example format_04d_ex : format_04d 7 = "0007" /\ format_04d (100 * 123) = "12300" /\ format_04d 0 = "0000".
Proof. repeat split; reflexivity. Qed.

(** ** Paths *)

Lemma name_joinpath (d : Path) (n : string) : name (d // n) = n.
Proof. unfold name, joinpath. apply last_last. Qed.

Lemma parent_joinpath (d : Path) (n : string) : parent (d // n) = d.
Proof. unfold parent, joinpath. apply removelast_last. Qed.

Lemma suffix_joinpath (d : Path) (n : string) : suffix (d // n) = suffix [n].
Proof. unfold suffix. now rewrite name_joinpath. Qed.

Lemma stem_joinpath (d : Path) (n : string) : stem (d // n) = stem [n].
Proof. unfold stem. now rewrite name_joinpath. Qed.

(** ** The loop *)

Lemma and_then_assoc {S} (o : Outcome S) (k1 k2 : S -> Outcome S) :
  and_then (and_then o k1) k2 = and_then o (fun s => and_then (k1 s) k2).
Proof. destruct o; reflexivity. Qed.

Lemma and_then_ext {S} (o : Outcome S) (k1 k2 : S -> Outcome S) :
  (forall s, k1 s = k2 s) -> and_then o k1 = and_then o k2.
Proof. intros H. destruct o; simpl; auto. Qed.

Lemma enumerate_from_app {A} (k : nat) (a b : list A) :
  enumerate_from k (a ++ b) = enumerate_from k a ++ enumerate_from (k + length a) b.
Proof.
  revert k. induction a as [|x a IH]; intros k; simpl.
  - now rewrite Nat.add_0_r.
  - rewrite IH. do 3 f_equal. lia.
Qed.

Section PassFacts.
Variable c : Collab.
Variable frame_duration : Q.
Variable segment_dir : Path.

Local Abbreviation body := (loop_body c frame_duration segment_dir).
Local Abbreviation run := (for_each c frame_duration segment_dir).

Lemma for_each_app media a b st :
  run media (a ++ b) st = and_then (run media a st) (run media b).
Proof.
  revert st. induction a as [|[i f] a IH]; intros st; simpl; [reflexivity|].
  rewrite and_then_assoc. destruct (body media i f st); simpl; auto.
Qed.

(** The lookahead sees the head of the rest of the list. *)
Lemma next_file_split (pre post : list Path) (f : Path) :
  next_file (pre ++ f :: post) (length pre) = head post.
Proof.
  unfold next_file. rewrite length_app. simpl.
  replace (length pre + 1)%nat with (length pre + 1 + 0)%nat at 2 by lia.
  destruct post as [|g post]; simpl.
  - destruct (Nat.ltb_spec (length pre + 1) (length pre + 1)); [lia|reflexivity].
  - destruct (Nat.ltb_spec (length pre + 1) (length pre + S (S (length post)))); [|lia].
    rewrite nth_error_app2 by lia.
    replace (length pre + 1 + 0 - length pre)%nat with 1%nat by lia. reflexivity.
Qed.

(** Running the pass over a split list. *)
Lemma build_segments_split (pre post : list Path) :
  build_segments c frame_duration segment_dir (pre ++ post) =
  and_then (run (pre ++ post) (enumerate_from 0 pre) initial_state)
           (run (pre ++ post) (enumerate_from (length pre) post)).
Proof.
  unfold build_segments. now rewrite enumerate_from_app, for_each_app.
Qed.
End PassFacts.

Section Steps.
Variable c : Collab.
Variable frame_duration : Q.
Variable segment_dir : Path.

Local Abbreviation body := (loop_body c frame_duration segment_dir).
Local Abbreviation run := (for_each c frame_duration segment_dir).

Lemma audio_is_not_png (s : string) :
  str_in s audio_suffixes = true -> String.eqb s ".png" = false.
Proof.
  unfold str_in, audio_suffixes; simpl. rewrite orb_false_r.
  intros H. apply orb_true_iff in H.
  destruct H as [H|H]; apply String.eqb_eq in H; subst; reflexivity.
Qed.

(** An image whose successor is an audio file: no segment, no entry. *)
Lemma body_image_held media i f nf st :
  suffix f = ".png" ->
  next_file media i = Some nf ->
  str_in (suffix nf) audio_suffixes = true ->
  body media i f st = Done (set_current_image f st).
Proof.
  intros Hf Hn Ha. unfold loop_body. rewrite Hf, Hn, Ha. reflexivity.
Qed.

(** Any other image gets its silent segment. *)
Lemma body_image_shown media i f st :
  suffix f = ".png" ->
  match next_file media i with
  | Some nf => str_in (suffix nf) audio_suffixes = false
  | None => True
  end ->
  body media i f st =
  and_then (render c (SilentHold f frame_duration (segment_path segment_dir (segment_index st)))
                   (set_current_image f st))
           (write_entry c (segment_path segment_dir (segment_index st))).
Proof.
  intros Hf Hn. unfold loop_body. rewrite Hf.
  destruct (next_file media i) as [nf|]; [rewrite Hn|]; reflexivity.
Qed.

(** An audio file whose probe fails: the state is left as it was. *)
Lemma body_audio_skipped media i f st :
  str_in (suffix f) audio_suffixes = true ->
  get_audio_duration c f = None ->
  body media i f st = Done st.
Proof.
  intros Ha Hd. unfold loop_body. rewrite (audio_is_not_png _ Ha), Ha, Hd. reflexivity.
Qed.

(** An audio file whose probe succeeds is held against the current image. *)
Lemma body_audio_held media i f d img st :
  str_in (suffix f) audio_suffixes = true ->
  get_audio_duration c f = Some d ->
  current_image st = Some img ->
  body media i f st =
  and_then (render c (AudioHeld img f d (segment_path segment_dir (segment_index st))) st)
           (write_entry c (segment_path segment_dir (segment_index st))).
Proof.
  intros Ha Hd Hi. unfold loop_body.
  rewrite (audio_is_not_png _ Ha), Ha, Hd, Hi. reflexivity.
Qed.

(** A file that is neither: an entry is written all the same. *)
Lemma body_other media i f st :
  String.eqb (suffix f) ".png" = false ->
  str_in (suffix f) audio_suffixes = false ->
  body media i f st = write_entry c (segment_path segment_dir (segment_index st)) st.
Proof.
  intros Hp Ha. unfold loop_body. rewrite Hp, Ha. reflexivity.
Qed.

End Steps.

(** ** Scenario A *)

(** C1.  For the media list [001.png, 002.mp3, 003.png] in any directory,
    with 002.mp3 probing to 5.0 seconds, a fixed duration of 2 seconds and an
    encoder that renders the two segments, the pass ends with exactly the
    segments AudioHeld(001.png, 002.mp3, 5.0) and SilentHold(003.png, 2), in
    this order, two manifest entries and a total duration of 7: 001.png gets
    no silent hold of its own. *)
Theorem scenario_A_timeline (c : Collab) (dir segment_dir : Path) :
  let p1 := dir // "001.png" in
  let p2 := dir // "002.mp3" in
  let p3 := dir // "003.png" in
  let s0 := segment_path segment_dir 0 in
  let s1 := segment_path segment_dir 1 in
  get_audio_duration c p2 = Some 5%Q ->
  ffmpeg_ok c (AudioHeld p1 p2 5 s0) = true ->
  ffmpeg_ok c (SilentHold p3 2 s1) = true ->
  build_segments c FRAME_DURATION segment_dir [p1; p2; p3] =
  Done {| segment_index := 2;
          current_image := Some p3;
          total_duration := 7;
          cl := [manifest_line c s0; manifest_line c s1];
          timeline := [AudioHeld p1 p2 5 s0; SilentHold p3 2 s1] |}.
Proof.
  intros p1 p2 p3 s0 s1 Hprobe Hr1 Hr2.
  assert (E1 : suffix p1 = ".png") by (unfold p1; now rewrite suffix_joinpath).
  assert (E2 : str_in (suffix p2) audio_suffixes = true)
    by (unfold p2; now rewrite suffix_joinpath).
  assert (E3 : suffix p3 = ".png") by (unfold p3; now rewrite suffix_joinpath).
  unfold build_segments. cbn [enumerate_from for_each].
  rewrite (body_image_held c _ _ _ 0 p1 p2) by (try reflexivity; assumption).
  cbn [and_then].
  rewrite (body_audio_held c _ _ _ 1 p2 5%Q p1) by (try reflexivity; assumption).
  unfold render at 1. cbn [set_current_image segment_index current_image
    total_duration cl timeline initial_state]. fold s0. rewrite Hr1.
  cbn [and_then write_entry segment_index current_image total_duration cl timeline].
  rewrite (body_image_shown c _ _ _ 2 p3) by (try reflexivity; assumption).
  unfold render. cbn [set_current_image segment_index current_image
    total_duration cl timeline]. fold s1. unfold FRAME_DURATION. rewrite Hr2.
  reflexivity.
Qed.

(** Scenario A in the directory [shots], with a prober that answers 5.0. *)
Lemma scenario_A_witness :
  build_segments (demo_collab [("002.mp3", "5.0")]) FRAME_DURATION ["out"; "demo-segments"]
    [["shots"; "001.png"]; ["shots"; "002.mp3"]; ["shots"; "003.png"]] =
  Done {| segment_index := 2;
          current_image := Some ["shots"; "003.png"];
          total_duration := 7;
          cl := ["file '/work/out/demo-segments/segment-0000.mp4'" +:+ String (ascii_of_nat 10) "";
                 "file '/work/out/demo-segments/segment-0001.mp4'" +:+ String (ascii_of_nat 10) ""];
          timeline :=
            [AudioHeld ["shots"; "001.png"] ["shots"; "002.mp3"] 5
               ["out"; "demo-segments"; "segment-0000.mp4"];
             SilentHold ["shots"; "003.png"] 2
               ["out"; "demo-segments"; "segment-0001.mp4"]] |}.
Proof.
  apply (scenario_A_timeline (demo_collab [("002.mp3", "5.0")]) ["shots"]
           ["out"; "demo-segments"]); reflexivity.
Defined.

(** ** Invariants of the pass *)

Section Invariants.
Variable c : Collab.
Variable frame_duration : Q.
Variable segment_dir : Path.

Local Abbreviation body := (loop_body c frame_duration segment_dir).
Local Abbreviation run := (for_each c frame_duration segment_dir).

(** A property kept by every run of the loop body holds of the state the
    loop stops in, whether it runs to the end or not. *)
Lemma for_each_invariant_in (P : BuildState -> Prop) media items :
  (forall i f st, In (i, f) items -> P st -> P (state_of (body media i f st))) ->
  forall st, P st -> P (state_of (run media items st)).
Proof.
  induction items as [|[i f] items IH]; intros Hstep st HP; simpl; [exact HP|].
  pose proof (Hstep i f st (or_introl eq_refl) HP) as H1.
  destruct (body media i f st) as [s|e s]; simpl in *; auto.
Qed.

Lemma for_each_invariant (P : BuildState -> Prop) media :
  (forall i f st, P st -> P (state_of (body media i f st))) ->
  forall items st, P st -> P (state_of (run media items st)).
Proof.
  intros Hstep items. apply for_each_invariant_in. intros i f st _. apply Hstep.
Qed.

Lemma body_cases media i f st :
  body_result c frame_duration segment_dir f st (body media i f st).
Proof.
  unfold loop_body.
  destruct (String.eqb (suffix f) ".png") eqn:Hp.
  - apply String.eqb_eq in Hp.
    assert (Hs : body_result c frame_duration segment_dir f st
      (and_then (render c (SilentHold f frame_duration
                   (segment_path segment_dir (segment_index st))) (set_current_image f st))
                (write_entry c (segment_path segment_dir (segment_index st))))).
    { unfold render. destruct (ffmpeg_ok c _); simpl.
      - now apply br_silent.
      - now apply br_abort_image. }
    destruct (next_file media i) as [nf|]; [|exact Hs].
    destruct (str_in (suffix nf) audio_suffixes); [now apply br_held|exact Hs].
  - destruct (str_in (suffix f) audio_suffixes) eqn:Ha; [|now apply br_entry].
    destruct (get_audio_duration c f) as [d|] eqn:Hd; [|now apply br_skip].
    destruct (current_image st) as [img|] eqn:Hi; [|now apply br_abort].
    unfold render. destruct (ffmpeg_ok c _); simpl.
    + now apply br_audio with (img := img) (d := d).
    + now apply br_abort.
Qed.

End Invariants.

(** ** Total duration *)

Lemma silent_count_snoc tl s :
  silent_count (tl ++ [s]) = (silent_count tl + (if is_silent s then 1 else 0))%nat.
Proof.
  unfold silent_count. rewrite List.filter_app, length_app. simpl.
  destruct (is_silent s); reflexivity.
Qed.

Lemma audio_total_snoc tl s :
  (audio_total (tl ++ [s]) == audio_total tl + (if is_silent s then 0 else seg_duration s))%Q.
Proof.
  induction tl as [|x tl IH]; simpl.
  - destruct s; simpl; ring.
  - destruct x; simpl; rewrite IH; ring.
Qed.

Lemma audio_total_retime d tl : audio_total (map (retime d) tl) = audio_total tl.
Proof.
  induction tl as [|x tl IH]; simpl; [reflexivity|].
  destruct x; simpl; now rewrite IH.
Qed.

Lemma silent_count_retime d tl : silent_count (map (retime d) tl) = silent_count tl.
Proof.
  unfold silent_count. induction tl as [|x tl IH]; simpl; [reflexivity|].
  destruct x; simpl; now rewrite IH.
Qed.

Lemma inject_succ (n : nat) (d : Q) :
  (inject_Z (Z.of_nat (n + 1)) * d == inject_Z (Z.of_nat n) * d + d)%Q.
Proof.
  rewrite Nat2Z.inj_add, inject_Z_plus. simpl (inject_Z (Z.of_nat 1)). ring.
Qed.

Section Duration.
Variable c : Collab.
Variable segment_dir : Path.

Lemma duration_accounted_body d media i f st :
  duration_accounted d st ->
  duration_accounted d (state_of (loop_body c d segment_dir media i f st)).
Proof.
  intros [Ht Hs].
  destruct (body_cases c d segment_dir media i f st); simpl;
    try (split; assumption).
  - split; simpl.
    + rewrite silent_count_snoc, audio_total_snoc. simpl.
      rewrite inject_succ, Ht. ring.
    + apply Forall_app; split; [assumption|]. repeat constructor.
  - split; simpl.
    + rewrite silent_count_snoc, audio_total_snoc. simpl.
      rewrite Nat.add_0_r, Ht. ring.
    + apply Forall_app; split; [assumption|]. constructor; [|constructor].
      simpl. discriminate.
Qed.

Lemma duration_accounted_build d media :
  duration_accounted d (state_of (build_segments c d segment_dir media)).
Proof.
  unfold build_segments. apply for_each_invariant.
  - intros i f st. apply duration_accounted_body.
  - split; simpl; [reflexivity|constructor].
Qed.

Lemma same_but_silent_body d1 d2 media i f st1 st2 r1 r2 :
  same_but_silent d2 st1 st2 ->
  loop_body c d1 segment_dir media i f st1 = Done r1 ->
  loop_body c d2 segment_dir media i f st2 = Done r2 ->
  same_but_silent d2 r1 r2.
Proof.
  intros (Hi & Hc & Hl & Ht). unfold loop_body, render, write_entry.
  rewrite Hi, Hc.
  destruct (String.eqb (suffix f) ".png").
  - destruct (next_file media i) as [nf|];
      [destruct (str_in (suffix nf) audio_suffixes)|];
      repeat (match goal with |- context [ffmpeg_ok c ?s] => destruct (ffmpeg_ok c s) end);
      simpl; intros E1 E2; inversion E1; inversion E2; subst; clear E1 E2;
      unfold same_but_silent; simpl; rewrite ?Hl, ?Ht, ?map_app; auto.
  - destruct (str_in (suffix f) audio_suffixes).
    + destruct (get_audio_duration c f) as [d|].
      * destruct (current_image st1) as [img|]; [|discriminate].
        repeat (match goal with |- context [ffmpeg_ok c ?s] => destruct (ffmpeg_ok c s) end);
        simpl; intros E1 E2; inversion E1; inversion E2; subst; clear E1 E2;
        unfold same_but_silent; simpl; rewrite ?Hl, ?Ht, ?map_app; auto.
      * intros E1 E2; inversion E1; inversion E2; subst.
        unfold same_but_silent; auto.
    + intros E1 E2; inversion E1; inversion E2; subst.
      unfold same_but_silent; simpl; rewrite ?Hl; auto.
Qed.

Lemma and_then_done {S} (o : Outcome S) k r :
  and_then o k = Done r -> exists s, o = Done s /\ k s = Done r.
Proof. destruct o; simpl; [eauto|discriminate]. Qed.

Lemma same_but_silent_run d1 d2 media items :
  forall st1 st2 r1 r2,
  same_but_silent d2 st1 st2 ->
  for_each c d1 segment_dir media items st1 = Done r1 ->
  for_each c d2 segment_dir media items st2 = Done r2 ->
  same_but_silent d2 r1 r2.
Proof.
  induction items as [|[i f] items IH]; simpl; intros st1 st2 r1 r2 HR E1 E2.
  - inversion E1; inversion E2; subst; assumption.
  - apply and_then_done in E1 as (s1 & B1 & E1).
    apply and_then_done in E2 as (s2 & B2 & E2).
    eapply IH; [|exact E1|exact E2].
    eapply same_but_silent_body; eauto.
Qed.

End Duration.

(** ** Probe failures *)

Lemma get_audio_duration_fails (c : Collab) (f : Path) :
  probe_fails c f -> get_audio_duration c f = None.
Proof.
  unfold probe_fails, get_audio_duration. intros [H|[H|H]].
  - rewrite H. reflexivity.
  - rewrite H. reflexivity.
  - destruct (_ || _); [reflexivity|assumption].
Qed.

Section Skips.
Variable c : Collab.
Variable frame_duration : Q.
Variable segment_dir : Path.

Local Abbreviation body := (loop_body c frame_duration segment_dir).
Local Abbreviation run := (for_each c frame_duration segment_dir).

(** Dropping the items whose probe fails from the iteration (the lookahead
    still sees them) does not change the pass. *)
Lemma run_without_skipped media items st :
  run media items st =
  run media (List.filter (fun e => negb (probe_skipped c e)) items) st.
Proof.
  revert st. induction items as [|[i f] items IH]; intros st; [reflexivity|].
  cbn [List.filter for_each].
  destruct (probe_skipped c (i, f)) eqn:Hs; cbn [negb for_each].
  - unfold probe_skipped in Hs. simpl in Hs. apply andb_true_iff in Hs as [Ha Hd].
    destruct (get_audio_duration c f) eqn:Hg; [discriminate|].
    rewrite (body_audio_skipped c frame_duration segment_dir media i f st Ha Hg).
    simpl. apply IH.
  - destruct (body media i f st); simpl; auto.
Qed.

Lemma probed_segment_body media i f st :
  Forall (probed_segment c) (timeline st) ->
  Forall (probed_segment c) (timeline (state_of (body media i f st))).
Proof.
  intros H. destruct (body_cases c frame_duration segment_dir media i f st); simpl;
    try assumption;
    apply Forall_app; split; try assumption; repeat constructor; assumption.
Qed.

End Skips.

(** ** Total duration in binary64 *)

Section Binary64.
Variable c : Collab.
Variable segment_dir : Path.

Lemma float_sum_snoc (tl : list Segment) (s : Segment) :
  float_sum (tl ++ [s]) = float_add (float_sum tl) (float_of_Q (seg_duration s)).
Proof. unfold float_sum. now rewrite fold_left_app. Qed.

(** The binary64 pass and the pass take the same branches. *)
Lemma same_outcome_body d media i f st64 st :
  same_variables st64 st ->
  same_outcome (loop_body64 c d segment_dir media i f st64)
               (loop_body c d segment_dir media i f st).
Proof.
  intros (Hi & Hc & Hl & Ht).
  unfold loop_body64, loop_body, render64, render, write_entry64, write_entry,
    set_current_image64, set_current_image.
  rewrite Hi, Hc.
  destruct (String.eqb (suffix f) ".png").
  - destruct (next_file media i) as [nf|];
      [destruct (str_in (suffix nf) audio_suffixes)|];
      try (destruct (ffmpeg_ok c _)); simpl; unfold same_variables; simpl;
      rewrite ?Hl, ?Ht; repeat split; congruence.
  - destruct (str_in (suffix f) audio_suffixes).
    + destruct (get_audio_duration c f) as [dur|].
      * destruct (current_image st) as [img|] eqn:Hcur.
        -- destruct (ffmpeg_ok c _); simpl; unfold same_variables; simpl;
             rewrite ?Hl, ?Ht; repeat split; congruence.
        -- simpl. unfold same_variables. repeat split; congruence.
      * simpl. unfold same_variables. repeat split; congruence.
    + simpl. unfold same_variables. simpl. rewrite ?Hl, ?Ht. repeat split; congruence.
Qed.

Lemma same_outcome_run d media items :
  forall st64 st,
  same_variables st64 st ->
  same_outcome (for_each64 c d segment_dir media items st64)
               (for_each c d segment_dir media items st).
Proof.
  induction items as [|[i f] items IH]; intros st64 st H; [exact H|].
  cbn [for_each64 for_each].
  pose proof (same_outcome_body d media i f st64 st H) as Hb.
  destruct (loop_body64 c d segment_dir media i f st64),
           (loop_body c d segment_dir media i f st); simpl in *;
    try contradiction; auto.
Qed.

Lemma same_outcome_build d media :
  same_outcome (build_segments64 c d segment_dir media)
               (build_segments c d segment_dir media).
Proof. apply same_outcome_run. unfold same_variables. auto. Qed.

Lemma same_outcome_state (o64 : Outcome BuildState64) (o : Outcome BuildState) :
  same_outcome o64 o -> same_variables (state_of o64) (state_of o).
Proof. destruct o64, o; simpl; try contradiction; tauto. Qed.

Lemma same_outcome_done (o64 : Outcome BuildState64) (o : Outcome BuildState) st64 :
  same_outcome o64 o -> o64 = Done st64 -> exists st, o = Done st /\ same_variables st64 st.
Proof. intros H ->. destruct o; simpl in H; [eauto|contradiction]. Qed.

Lemma timeline64_build d media :
  timeline64 (state_of (build_segments64 c d segment_dir media)) =
  timeline (state_of (build_segments c d segment_dir media)).
Proof. apply (same_outcome_state _ _ (same_outcome_build d media)). Qed.

(** Every addition to the total is the addition of the duration of the
    segment that has just been rendered. *)
Lemma float_sum_body d media i f st :
  total_duration64 st = float_sum (timeline64 st) ->
  total_duration64 (state_of (loop_body64 c d segment_dir media i f st)) =
  float_sum (timeline64 (state_of (loop_body64 c d segment_dir media i f st))).
Proof.
  intros H.
  unfold loop_body64, render64, write_entry64, set_current_image64.
  destruct (String.eqb (suffix f) ".png").
  - destruct (next_file media i) as [nf|];
      [destruct (str_in (suffix nf) audio_suffixes)|];
      try (destruct (ffmpeg_ok c _)); simpl; rewrite ?float_sum_snoc, ?H; reflexivity.
  - destruct (str_in (suffix f) audio_suffixes).
    + destruct (get_audio_duration c f) as [dur|]; [|exact H].
      destruct (current_image64 st) as [img|]; [|exact H].
      destruct (ffmpeg_ok c _); simpl; rewrite ?float_sum_snoc, ?H; reflexivity.
    + exact H.
Qed.

Lemma float_sum_run d media items :
  forall st,
  total_duration64 st = float_sum (timeline64 st) ->
  total_duration64 (state_of (for_each64 c d segment_dir media items st)) =
  float_sum (timeline64 (state_of (for_each64 c d segment_dir media items st))).
Proof.
  induction items as [|[i f] items IH]; intros st H; [exact H|].
  cbn [for_each64].
  pose proof (float_sum_body d media i f st H) as Hb.
  destruct (loop_body64 c d segment_dir media i f st) as [s|e s]; simpl in *; auto.
Qed.

End Binary64.

(** In exact arithmetic the sum of the durations is the sum by kind. *)
Lemma exact_sum_by_kind (d : Q) (tl : list Segment) :
  Forall (fun s => is_silent s = true -> seg_duration s = d) tl ->
  (exact_sum tl ==
     inject_Z (Z.of_nat (silent_count tl)) * d + audio_total tl)%Q.
Proof.
  induction 1 as [|s tl Hs _ IH]; [change (0 == 0 * d + 0)%Q; ring|].
  change (exact_sum (s :: tl)) with (seg_duration s + exact_sum tl)%Q. rewrite IH.
  destruct s as [img dur out|img a dur out].
  - change (silent_count (SilentHold img dur out :: tl)) with (S (silent_count tl)).
    rewrite <- Nat.add_1_r, inject_succ.
    simpl in Hs. rewrite (Hs eq_refl). simpl. ring.
  - change (silent_count (AudioHeld img a dur out :: tl)) with (silent_count tl).
    simpl. ring.
Qed.

Lemma audio_held_retime (d : Q) (tl : list Segment) :
  List.filter (fun s => negb (is_silent s)) (map (retime d) tl) =
  List.filter (fun s => negb (is_silent s)) tl.
Proof.
  induction tl as [|s tl IH]; [reflexivity|].
  destruct s; simpl; [exact IH|now rewrite IH].
Qed.

(** An audio clip of 0.1 s under 001.png, 003.png alone, an audio clip of
    0.2 s under 004.png: the total the pass accumulates, ((0.0 + 0.1) + 2)
    + 0.2, is 2.3000000000000003, the sum by kind, 2 + (0.1 + 0.2), is
    2.3 (2.2999999999999998), and the exact sum of the three durations is
    neither. *)
Lemma total_duration_counterexample :
  let c := demo_collab [("002.mp3", "0.1"); ("005.mp3", "0.2")] in
  let media := [["shots"; "001.png"]; ["shots"; "002.mp3"]; ["shots"; "003.png"];
                ["shots"; "004.png"]; ["shots"; "005.mp3"]] in
  let o := build_segments64 c FRAME_DURATION ["seg"] media in
  completes o = true /\
  map seg_duration (timeline64 (state_of o)) = [(1 # 10)%Q; 2%Q; (1 # 5)%Q] /\
  map is_silent (timeline64 (state_of o)) = [false; true; false] /\
  total_duration64 (state_of o) = S754_finite false 5179139571476071 (-51) /\
  float_sum_by_kind (timeline64 (state_of o)) = S754_finite false 5179139571476070 (-51) /\
  total_duration64 (state_of o) <> float_sum_by_kind (timeline64 (state_of o)) /\
  ~ (exists q, float_value (total_duration64 (state_of o)) = Some q /\
               (q == 2 * 1 + ((1 # 10) + (1 # 5)))%Q).
Proof.
  intros c media o.
  assert (Ht : total_duration64 (state_of o) = S754_finite false 5179139571476071 (-51))
    by (vm_compute; reflexivity).
  assert (Hk : float_sum_by_kind (timeline64 (state_of o)) =
               S754_finite false 5179139571476070 (-51))
    by (vm_compute; reflexivity).
  split; [vm_compute; reflexivity|].
  split; [vm_compute; reflexivity|].
  split; [vm_compute; reflexivity|].
  split; [exact Ht|]. split; [exact Hk|]. split.
  - rewrite Ht, Hk. discriminate.
  - intros (q & Hq & E). rewrite Ht in Hq. injection Hq as <-.
    vm_compute in E. discriminate.
Qed.

(** C5, amended.  After the pass, whether it ran to the end or stopped
    early, the accumulated total is the sum of the durations of the emitted
    segments, added in binary64 in the order of emission from 0.0; every
    SilentHold lasts the fixed duration and every AudioHeld the duration its
    audio file probes to, an item that is skipped adding nothing; and in
    exact arithmetic the sum of these durations is the fixed duration times
    the number of SilentHold segments plus the sum of the durations of the
    AudioHeld segments.  Two completed passes over the same list under
    different fixed durations emit the same segments up to the duration of
    the SilentHold ones: the number of silent holds, the AudioHeld segments
    and their sum, exact or binary64, are the same. *)
Theorem total_duration_decomposition (c : Collab) (segment_dir : Path) (media : list Path) :
  (forall d,
     let st := state_of (build_segments64 c d segment_dir media) in
     total_duration64 st = float_sum (timeline64 st) /\
     Forall (fun s => if is_silent s then seg_duration s = d else probed_segment c s)
            (timeline64 st) /\
     (exact_sum (timeline64 st) ==
        inject_Z (Z.of_nat (silent_count (timeline64 st))) * d
        + audio_total (timeline64 st))%Q) /\
  (forall d1 d2 st1 st2,
     build_segments64 c d1 segment_dir media = Done st1 ->
     build_segments64 c d2 segment_dir media = Done st2 ->
     timeline64 st2 = map (retime d2) (timeline64 st1) /\
     silent_count (timeline64 st2) = silent_count (timeline64 st1) /\
     audio_total (timeline64 st2) = audio_total (timeline64 st1) /\
     float_sum (List.filter (fun s => negb (is_silent s)) (timeline64 st2)) =
     float_sum (List.filter (fun s => negb (is_silent s)) (timeline64 st1))).
Proof.
  split.
  - intros d st.
    assert (Hsil : Forall (fun s => is_silent s = true -> seg_duration s = d) (timeline64 st)).
    { unfold st. rewrite timeline64_build. apply duration_accounted_build. }
    assert (Hprobed : Forall (probed_segment c) (timeline64 st)).
    { unfold st. rewrite timeline64_build. unfold build_segments. apply for_each_invariant.
      - intros i g s. apply probed_segment_body.
      - constructor. }
    split; [|split].
    + apply float_sum_run. reflexivity.
    + rewrite List.Forall_forall in *. intros s Hin.
      destruct (is_silent s) eqn:Hs; [now apply Hsil|now apply Hprobed].
    + now apply exact_sum_by_kind.
  - intros d1 d2 st1 st2 E1 E2.
    destruct (same_outcome_done _ _ st1 (same_outcome_build c segment_dir d1 media) E1)
      as (s1 & B1 & (_ & _ & _ & T1)).
    destruct (same_outcome_done _ _ st2 (same_outcome_build c segment_dir d2 media) E2)
      as (s2 & B2 & (_ & _ & _ & T2)).
    assert (HR : same_but_silent d2 s1 s2).
    { eapply same_but_silent_run; [|exact B1|exact B2]. repeat split. }
    destruct HR as (_ & _ & _ & Ht).
    assert (Ht64 : timeline64 st2 = map (retime d2) (timeline64 st1))
      by (rewrite T1, T2; exact Ht).
    split; [exact Ht64|]. rewrite Ht64.
    split; [apply silent_count_retime|]. split; [apply audio_total_retime|].
    now rewrite audio_held_retime.
Qed.

(** Scenario A under the fixed durations 2 and 3: the totals are 7.0 and
    8.0. *)
Lemma total_duration_decomposition_witness :
  let c := demo_collab [("002.mp3", "5.0")] in
  let media := [["shots"; "001.png"]; ["shots"; "002.mp3"]; ["shots"; "003.png"]] in
  let st1 := state_of (build_segments64 c 2 ["seg"] media) in
  let st2 := state_of (build_segments64 c 3 ["seg"] media) in
  total_duration64 st1 = float_sum (timeline64 st1) /\
  float_sum (timeline64 st1) = float_of_Z 7 /\
  timeline64 st2 = map (retime 3) (timeline64 st1) /\
  total_duration64 st2 = float_of_Z 8.
Proof.
  intros c media st1 st2.
  destruct (total_duration_decomposition c ["seg"] media) as [H1 H2].
  destruct (H1 2%Q) as (Ht & _). fold st1 in Ht.
  destruct (H2 2%Q 3%Q st1 st2 eq_refl eq_refl) as (Hr & _).
  split; [exact Ht|]. split; [vm_compute; reflexivity|].
  split; [exact Hr|vm_compute; reflexivity].
Defined.

(** ** Consecutive audio files *)

Section AudioBlocks.
Variable c : Collab.
Variable frame_duration : Q.
Variable segment_dir : Path.
Hypothesis encoder_ok : forall seg, ffmpeg_ok c seg = true.

Local Abbreviation body := (loop_body c frame_duration segment_dir).
Local Abbreviation run := (for_each c frame_duration segment_dir).

(** A block of audio files leaves the current image alone and adds, for each
    file that probes, one segment held against it. *)
Lemma run_audio_block media img auds :
  Forall (fun a => str_in (suffix a) audio_suffixes = true) auds ->
  forall k st,
  current_image st = Some img ->
  exists st',
    run media (enumerate_from k auds) st = Done st' /\
    current_image st' = Some img /\
    timeline st' = timeline st ++ held_segments c segment_dir img (segment_index st) auds /\
    segment_index st' =
      (segment_index st + length (held_segments c segment_dir img (segment_index st) auds))%nat /\
    cl st' = cl st ++
      map (fun s => manifest_line c (seg_output s))
          (held_segments c segment_dir img (segment_index st) auds).
Proof.
  induction 1 as [|a auds Ha _ IH]; intros k st Hi.
  - exists st. simpl. rewrite !app_nil_r, Nat.add_0_r. auto.
  - cbn [enumerate_from for_each held_segments].
    destruct (get_audio_duration c a) as [d|] eqn:Hd.
    + rewrite (body_audio_held c frame_duration segment_dir media k a d img st Ha Hd Hi).
      unfold render. rewrite encoder_ok. cbn [and_then write_entry].
      match goal with |- context [run media _ ?s] => destruct (IH (S k) s Hi)
        as (st' & Hr & Hi' & Ht & Hn & Hl) end.
      cbn [segment_index current_image total_duration cl timeline] in *.
      exists st'. rewrite Hr, Hi', Ht, Hn, Hl. cbn [length map seg_output].
      rewrite <- !app_assoc. repeat split; try reflexivity. lia.
    + rewrite (body_audio_skipped c frame_duration segment_dir media k a st Ha Hd).
      cbn [and_then]. apply IH. exact Hi.
Qed.

Lemma held_segments_image img k auds :
  Forall (fun s => seg_image s = img /\ is_silent s = false)
         (held_segments c segment_dir img k auds).
Proof.
  revert k. induction auds as [|a auds IH]; intros k; simpl; [constructor|].
  destruct (get_audio_duration c a); [constructor; [now split|]|]; apply IH.
Qed.

Lemma held_segments_complete img auds a d :
  In a auds -> get_audio_duration c a = Some d ->
  forall k, exists o, In (AudioHeld img a d o) (held_segments c segment_dir img k auds).
Proof.
  induction auds as [|b auds IH]; intros Hin Hd k; [destruct Hin|].
  simpl. destruct Hin as [->|Hin].
  - rewrite Hd. eexists. left. reflexivity.
  - destruct (get_audio_duration c b).
    + destruct (IH Hin Hd (S k)) as [o Ho]. exists o. now right.
    + now apply IH.
Qed.

End AudioBlocks.

(** C6.  Let an image be followed by a block of two or more audio files, the
    items before it having been processed without a stop, and let the encoder
    render every segment.  The image gets no silent hold, and only because
    of the first audio file of the block: whatever follows that file, the loop
    body for the image just records it as the current image.  After the block
    the image is still the current image, and the timeline has grown by
    exactly one AudioHeld segment, held against that image, for each file of
    the block that probes, in order. *)
Theorem consecutive_audio_share_image (c : Collab) (d : Q) (segment_dir : Path)
    (pre post : list Path) (img first : Path) (others : list Path) (st0 : BuildState) :
  let auds := first :: others in
  let media := pre ++ img :: auds ++ post in
  (forall seg, ffmpeg_ok c seg = true) ->
  suffix img = ".png" ->
  Forall (fun a => str_in (suffix a) audio_suffixes = true) auds ->
  (1 <= length others)%nat ->
  for_each c d segment_dir media (enumerate_from 0 pre) initial_state = Done st0 ->
  (forall rest st,
      loop_body c d segment_dir (pre ++ img :: first :: rest) (length pre) img st =
      Done (set_current_image img st)) /\
  exists st1,
    for_each c d segment_dir media (enumerate_from 0 (pre ++ img :: auds)) initial_state
      = Done st1 /\
    current_image st1 = Some img /\
    timeline st1 = timeline st0 ++ held_segments c segment_dir img (segment_index st0) auds /\
    Forall (fun s => seg_image s = img /\ is_silent s = false)
           (held_segments c segment_dir img (segment_index st0) auds) /\
    (forall a da, In a auds -> get_audio_duration c a = Some da ->
       exists o, In (AudioHeld img a da o) (timeline st1)).
Proof.
  intros auds media Hok Himg Hauds Hlen Hpre.
  assert (Hfirst : str_in (suffix first) audio_suffixes = true)
    by (inversion Hauds; assumption).
  assert (Hbody : forall rest st,
      loop_body c d segment_dir (pre ++ img :: first :: rest) (length pre) img st =
      Done (set_current_image img st)).
  { intros rest st. apply body_image_held with (nf := first); try assumption.
    apply next_file_split. }
  split; [exact Hbody|].
  destruct (run_audio_block c d segment_dir Hok media img auds Hauds
              (S (length pre)) (set_current_image img st0) eq_refl)
    as (st1 & Hr & Hi & Ht & Hn & Hl).
  exists st1. repeat split.
  - rewrite enumerate_from_app, for_each_app, Hpre. cbn [and_then].
    rewrite Nat.add_0_l. cbn [enumerate_from for_each].
    unfold media, auds. cbn [app]. rewrite Hbody. cbn [and_then]. exact Hr.
  - exact Hi.
  - exact Ht.
  - apply held_segments_image.
  - intros a da Hin Hd. rewrite Ht.
    destruct (held_segments_complete c segment_dir img auds a da Hin Hd (segment_index st0))
      as [o Ho].
    exists o. apply in_or_app. right. exact Ho.
Qed.

(** An image followed by two clips of 2.5 and 1.5 seconds. *)
Lemma consecutive_audio_witness :
  let c := demo_collab [("002.mp3", "2.5"); ("003.wav", "1.5")] in
  let img := ["shots"; "001.png"] in
  let a1 := ["shots"; "002.mp3"] in
  let a2 := ["shots"; "003.wav"] in
  let media := [img; a1; a2; ["shots"; "004.png"]] in
  exists st1,
    for_each c 2 ["seg"] media (enumerate_from 0 [img; a1; a2]) initial_state = Done st1 /\
    current_image st1 = Some img /\
    timeline st1 = [AudioHeld img a1 (5 # 2) ["seg"; "segment-0000.mp4"];
                    AudioHeld img a2 (3 # 2) ["seg"; "segment-0001.mp4"]].
Proof.
  intros c img a1 a2 media.
  destruct (consecutive_audio_share_image c 2 ["seg"] [] [["shots"; "004.png"]]
              img a1 [a2] initial_state)
    as (_ & st1 & Hr & Hi & Ht & _).
  - intros seg. reflexivity.
  - reflexivity.
  - repeat constructor.
  - simpl. lia.
  - reflexivity.
  - exists st1. split; [exact Hr|]. split; [exact Hi|exact Ht].
Defined.

(** ** Which images reach the timeline *)

Section Images.
Variable c : Collab.
Variable frame_duration : Q.
Variable segment_dir : Path.

Local Abbreviation body := (loop_body c frame_duration segment_dir).
Local Abbreviation run := (for_each c frame_duration segment_dir).

(** A segment of the final timeline was there before, or shows one of the
    items processed, or shows the image that was current at the start. *)
Lemma timeline_images media items :
  forall st seg,
  In seg (timeline (state_of (run media items st))) ->
  In seg (timeline st) \/ In (seg_image seg) (map snd items) \/
  current_image st = Some (seg_image seg).
Proof.
  induction items as [|[i f] items IH]; intros st seg Hin; [now left|].
  cbn [for_each] in Hin. cbn [map snd In].
  destruct (body_cases c frame_duration segment_dir media i f st) as
    [Ha Hg|Hp|e Ha|e Hp|Hp Ha|Hp|img d Hi Ha Hg];
    cbn [and_then state_of write_entry] in Hin;
    try (apply IH in Hin as [Hin|[Hin|Hin]]);
    cbn [timeline current_image set_current_image] in Hin; auto.
  - inversion Hin; subst; auto.
  - apply in_app_or in Hin as [Hin|[<-|[]]]; auto.
  - inversion Hin; subst; auto.
  - apply in_app_or in Hin as [Hin|[<-|[]]]; auto.
Qed.

(** Once an image has been processed, the image current before it is out of
    reach. *)
Lemma timeline_images_after_image media i p items st seg :
  suffix p = ".png" ->
  In seg (timeline (state_of (run media ((i, p) :: items) st))) ->
  In seg (timeline st) \/ In (seg_image seg) (p :: map snd items).
Proof.
  intros Hp Hin. cbn [for_each] in Hin.
  assert (Hnot : str_in (suffix p) audio_suffixes = true -> False)
    by (intros Ha; apply audio_is_not_png in Ha; rewrite Hp in Ha; discriminate).
  destruct (body_cases c frame_duration segment_dir media i p st) as
    [Ha Hg|_|e Ha|e _|Hq Ha|_|img d Hi Ha Hg];
    try (exfalso; auto; fail);
    try (rewrite Hp in Hq; discriminate);
    cbn [and_then state_of write_entry] in Hin.
  - apply timeline_images in Hin as [Hin|[Hin|Hin]];
      cbn [timeline current_image set_current_image] in Hin.
    + now left.
    + right. now right.
    + inversion Hin. right. now left.
  - now left.
  - apply timeline_images in Hin as [Hin|[Hin|Hin]];
      cbn [timeline current_image] in Hin.
    + apply in_app_or in Hin as [Hin|[<-|[]]]; [now left|]. right. now left.
    + right. now right.
    + inversion Hin. right. now left.
Qed.

(** Items that are no images and, if audio, do not probe: nothing reaches
    the timeline and the run goes on. *)
Lemma run_unheard_block media items :
  Forall (fun e => String.eqb (suffix (snd e)) ".png" = false /\
                   (str_in (suffix (snd e)) audio_suffixes = true ->
                    get_audio_duration c (snd e) = None)) items ->
  forall st, exists st',
    run media items st = Done st' /\
    timeline st' = timeline st /\ current_image st' = current_image st.
Proof.
  induction 1 as [|[i f] items [Hp Ha] _ IH]; intros st; [now exists st|].
  cbn [for_each]. cbn [snd] in Hp, Ha.
  destruct (str_in (suffix f) audio_suffixes) eqn:Haud.
  - rewrite (body_audio_skipped c frame_duration segment_dir media i f st Haud (Ha eq_refl)).
    apply IH.
  - rewrite (body_other c frame_duration segment_dir media i f st Hp Haud).
    cbn [write_entry and_then].
    match goal with |- context [run media items ?s] => destruct (IH s) as (st' & Hr & Ht & Hi) end.
    exists st'. now rewrite Hr.
Qed.

End Images.

Lemma enumerate_from_snd {A} (k : nat) (l : list A) : map snd (enumerate_from k l) = l.
Proof. revert k. induction l as [|x l IH]; intros k; simpl; [|rewrite IH]; reflexivity. Qed.

Lemma Forall_enumerate_from {A} (P : A -> Prop) (k : nat) (l : list A) :
  Forall P l -> Forall (fun e => P (snd e)) (enumerate_from k l).
Proof.
  intros H. revert k. induction H; intros k; simpl; constructor; auto.
Qed.

(** An image followed by a clip that does not probe and by one that does: the
    second clip is held against the image. *)
Lemma vanishing_image_counterexample :
  let c := demo_collab [("002.mp3", "N/A"); ("003.mp3", "4.0")] in
  let img := ["shots"; "001.png"] in
  let media := [img; ["shots"; "002.mp3"]; ["shots"; "003.mp3"]] in
  suffix img = ".png" /\
  str_in (suffix ["shots"; "002.mp3"]) audio_suffixes = true /\
  get_audio_duration c ["shots"; "002.mp3"] = None /\
  timeline (state_of (build_segments c 2 ["seg"] media)) =
    [AudioHeld img ["shots"; "003.mp3"] 4 ["seg"; "segment-0000.mp4"]] /\
  ~ (forall seg, In seg (timeline (state_of (build_segments c 2 ["seg"] media))) ->
                 seg_image seg <> img).
Proof.
  repeat split.
  intros H.
  apply (H (AudioHeld ["shots"; "001.png"] ["shots"; "003.mp3"] 4 ["seg"; "segment-0000.mp4"])).
  - left. reflexivity.
  - reflexivity.
Qed.

(** C9, amended.  Let an image be followed at once by an audio file whose
    probe fails, let no item between the image and the next image (or the end
    of the list) be an audio file that probes, and let the path of the image
    be listed once only.  Then no segment of the timeline shows that image. *)
Theorem unheard_image_vanishes (c : Collab) (d : Q) (segment_dir : Path)
    (pre rest post : list Path) (img a : Path) :
  let media := pre ++ img :: (a :: rest) ++ post in
  suffix img = ".png" ->
  str_in (suffix a) audio_suffixes = true ->
  get_audio_duration c a = None ->
  Forall (fun g => String.eqb (suffix g) ".png" = false /\
                   (str_in (suffix g) audio_suffixes = true ->
                    get_audio_duration c g = None)) rest ->
  match post with [] => True | p :: _ => suffix p = ".png" end ->
  ~ In img pre -> ~ In img post ->
  forall seg,
    In seg (timeline (state_of (build_segments c d segment_dir media))) ->
    seg_image seg <> img.
Proof.
  intros media Himg Ha Hg Hrest Hpost Hpre Hnpost seg Hin Heq.
  unfold build_segments, media in Hin.
  rewrite enumerate_from_app, for_each_app in Hin. rewrite Nat.add_0_l in Hin.
  fold media in Hin.
  destruct (for_each c d segment_dir media (enumerate_from 0 pre) initial_state)
    as [st0|e st0] eqn:Hrun0.
  2:{ cbn [and_then state_of] in Hin.
      pose proof (timeline_images c d segment_dir media (enumerate_from 0 pre)
                    initial_state seg) as Hti.
      rewrite Hrun0 in Hti. destruct (Hti Hin) as [[]|[Hi|Hi]].
      - rewrite enumerate_from_snd, Heq in Hi. contradiction.
      - discriminate. }
  assert (H0 : forall s, In s (timeline st0) -> seg_image s <> img).
  { intros s Hs Es.
    pose proof (timeline_images c d segment_dir media (enumerate_from 0 pre)
                  initial_state s) as Hti.
    rewrite Hrun0 in Hti. destruct (Hti Hs) as [[]|[Hi|Hi]].
    - rewrite enumerate_from_snd, Es in Hi. contradiction.
    - discriminate. }
  cbn [and_then enumerate_from for_each] in Hin.
  rewrite (body_image_held c d segment_dir media (length pre) img a st0) in Hin;
    [|assumption|unfold media; apply next_file_split|assumption].
  cbn [and_then] in Hin.
  change (enumerate_from (S (length pre)) (a :: rest ++ post))
    with (enumerate_from (S (length pre)) ((a :: rest) ++ post)) in Hin.
  rewrite enumerate_from_app, for_each_app in Hin.
  assert (Hblock : Forall (fun e => String.eqb (suffix (snd e)) ".png" = false /\
                   (str_in (suffix (snd e)) audio_suffixes = true ->
                    get_audio_duration c (snd e) = None))
             (enumerate_from (S (length pre)) (a :: rest))).
  { apply (Forall_enumerate_from
             (fun g => String.eqb (suffix g) ".png" = false /\
                       (str_in (suffix g) audio_suffixes = true ->
                        get_audio_duration c g = None))).
    constructor; [|assumption]. split; [now apply audio_is_not_png|auto]. }
  destruct (run_unheard_block c d segment_dir media _ Hblock (set_current_image img st0))
    as (st2 & Hr2 & Ht2 & Hi2).
  rewrite Hr2 in Hin. cbn [and_then] in Hin.
  cbn [set_current_image timeline] in Ht2.
  destruct post as [|p post'].
  - cbn [enumerate_from for_each state_of] in Hin. rewrite Ht2 in Hin.
    exact (H0 seg Hin Heq).
  - cbn [enumerate_from] in Hin.
    apply (timeline_images_after_image c d segment_dir media _ p _ st2 seg Hpost) in Hin.
    destruct Hin as [Hin|Hin].
    + rewrite Ht2 in Hin. exact (H0 seg Hin Heq).
    + rewrite enumerate_from_snd, Heq in Hin. contradiction.
Qed.

(** An image between a clip that does not probe and the next image. *)
Lemma unheard_image_witness :
  let c := demo_collab [("002.mp3", "N/A")] in
  let img := ["shots"; "001.png"] in
  let media := [img; ["shots"; "002.mp3"]; ["shots"; "003.png"]] in
  Forall (fun seg => seg_image seg <> img)
         (timeline (state_of (build_segments c 2 ["seg"] media))).
Proof.
  intros c img media. apply List.Forall_forall.
  apply (unheard_image_vanishes c 2 ["seg"] [] [] [["shots"; "003.png"]] img
           ["shots"; "002.mp3"]); try reflexivity.
  - constructor.
  - intros [].
  - intros [E|[]]. discriminate.
Defined.

(** ** Segment files and manifest entries *)

Lemma string_length_append (s t : string) :
  String.length (s +:+ t) = (String.length s + String.length t)%nat.
Proof. induction s as [|ch s IH]; simpl; [reflexivity|now rewrite IH]. Qed.

Lemma string_append_inv_tail (s1 s2 t : string) : s1 +:+ t = s2 +:+ t -> s1 = s2.
Proof.
  revert s2. induction s1 as [|ch s1 IH]; intros [|ch2 s2] H; simpl in H.
  - reflexivity.
  - apply (f_equal String.length) in H. rewrite ?string_length_append in H.
    simpl in H. rewrite ?string_length_append in H. lia.
  - apply (f_equal String.length) in H. rewrite ?string_length_append in H.
    simpl in H. rewrite ?string_length_append in H. lia.
  - injection H as -> H. f_equal. now apply IH.
Qed.

Lemma parse_zeros (k : nat) (s : string) :
  parse_nat (zeros k +:+ s) = parse_nat s.
Proof.
  unfold parse_nat. induction k as [|k IH]; simpl; [reflexivity|].
  rewrite <- IH. destruct (NilEmpty.uint_of_string (zeros k +:+ s)); reflexivity.
Qed.

Lemma parse_format_04d (n : nat) : parse_nat (format_04d n) = Some n.
Proof.
  unfold format_04d. rewrite parse_zeros. unfold parse_nat, decimal.
  rewrite NilEmpty.usu. simpl. now rewrite DecimalNat.Unsigned.of_to.
Qed.

Lemma segment_path_inj (segment_dir : Path) (i j : nat) :
  segment_path segment_dir i = segment_path segment_dir j -> i = j.
Proof.
  unfold segment_path, joinpath. intros H. apply app_inv_head in H.
  injection H as H.
  change (format_04d i +:+ ".mp4" = format_04d j +:+ ".mp4") in H.
  apply string_append_inv_tail in H.
  pose proof (parse_format_04d i) as Hi. rewrite H, parse_format_04d in Hi.
  now injection Hi.
Qed.

Section Entries.
Variable c : Collab.
Variable frame_duration : Q.
Variable segment_dir : Path.

Local Abbreviation body := (loop_body c frame_duration segment_dir).
Local Abbreviation run := (for_each c frame_duration segment_dir).

(** Entries are only ever added. *)
Lemma entries_kept media items line :
  forall st, In line (cl st) -> In line (cl (state_of (run media items st))).
Proof.
  apply (for_each_invariant c frame_duration segment_dir (fun s => In line (cl s))).
  intros i f st H.
  destruct (body_cases c frame_duration segment_dir media i f st); simpl; auto;
    apply in_or_app; now left.
Qed.

Lemma numbered_below_run media items :
  forall st, numbered_below segment_dir st ->
  numbered_below segment_dir (state_of (run media items st)).
Proof.
  apply (for_each_invariant c frame_duration segment_dir (numbered_below segment_dir)).
  intros i f st H.
  destruct (body_cases c frame_duration segment_dir media i f st); simpl; auto;
    intros seg Hin; simpl in Hin.
  - destruct (H seg Hin) as (j & Hj & E). exists j. split; [simpl; lia|exact E].
  - apply in_app_or in Hin as [Hin|[<-|[]]].
    + destruct (H seg Hin) as (j & Hj & E). exists j. split; [simpl; lia|exact E].
    + exists (segment_index st). split; [simpl; lia|reflexivity].
  - apply in_app_or in Hin as [Hin|[<-|[]]].
    + destruct (H seg Hin) as (j & Hj & E). exists j. split; [simpl; lia|exact E].
    + exists (segment_index st). split; [simpl; lia|reflexivity].
Qed.

Lemma never_rendered_run k media items :
  forall st, never_rendered segment_dir k st ->
  never_rendered segment_dir k (state_of (run media items st)).
Proof.
  apply (for_each_invariant c frame_duration segment_dir (never_rendered segment_dir k)).
  intros i f st [Hk H].
  destruct (body_cases c frame_duration segment_dir media i f st); simpl; auto;
    (split; [simpl; lia|]); intros seg Hin; simpl in Hin; auto;
    apply in_app_or in Hin as [Hin|[<-|[]]]; auto; simpl;
    intros E; apply segment_path_inj in E; lia.
Qed.

Lemma enumerate_from_In {A} (k i : nat) (x : A) (l : list A) :
  In (i, x) (enumerate_from k l) -> In x l.
Proof.
  revert k. induction l as [|y l IH]; intros k; simpl; [auto|].
  intros [E|H]; [injection E as _ ->; now left|right; eauto].
Qed.

(** X5.  When every item has one of the three suffixes the pass tests for,
    the concat list has exactly the entries of the timeline, in order,
    wherever the pass stops. *)
Lemma manifest_matches_timeline media :
  Forall (fun f => pass_suffix f = true) media ->
  let st := state_of (build_segments c frame_duration segment_dir media) in
  cl st = map (entry_of c) (timeline st).
Proof.
  intros Hall. unfold build_segments.
  apply (for_each_invariant_in c frame_duration segment_dir
           (fun s => cl s = map (entry_of c) (timeline s))); [|reflexivity].
  intros i f st Hin H. apply enumerate_from_In in Hin.
  rewrite List.Forall_forall in Hall. specialize (Hall f Hin). unfold pass_suffix in Hall.
  destruct (body_cases c frame_duration segment_dir media i f st)
    as [Ha Hg|Hp|e Ha|e Hp|Hp Ha|Hp|img d Hi Ha Hg]; simpl; auto.
  - rewrite Hp, Ha in Hall. discriminate.
  - rewrite map_app, H. reflexivity.
  - rewrite map_app, H. reflexivity.
Qed.

End Entries.

(** C10.  Take a file that the catalogue accepts although its suffix is not
    exactly .png, .mp3, .wav or .txt, and let the pass reach it.  The loop
    body renders nothing and accumulates nothing for it, yet appends the
    entry of the segment file of the current number to the concat list and
    advances the segment index.  When the pass stops, that entry is in the
    concat list, and no rendered file has that name. *)
Theorem case_variant_gets_entry_only (c : Collab) (d : Q) (segment_dir : Path)
    (pre post : list Path) (f : Path) (st0 : BuildState) :
  let media := pre ++ f :: post in
  str_in (Py.lower (suffix f)) valid_extensions = true ->
  str_in (suffix f) valid_extensions = false ->
  for_each c d segment_dir media (enumerate_from 0 pre) initial_state = Done st0 ->
  let k := segment_index st0 in
  let final := state_of (build_segments c d segment_dir media) in
  loop_body c d segment_dir media (length pre) f st0 =
    Done {| segment_index := S k;
            current_image := current_image st0;
            total_duration := total_duration st0;
            cl := cl st0 ++ [manifest_line c (segment_path segment_dir k)];
            timeline := timeline st0 |} /\
  In (manifest_line c (segment_path segment_dir k)) (cl final) /\
  ~ In (segment_path segment_dir k) (rendered_files final).
Proof.
  intros media Hlow Hexact Hpre k final.
  assert (Hp : String.eqb (suffix f) ".png" = false).
  { unfold str_in, valid_extensions in Hexact. simpl in Hexact.
    apply orb_false_iff in Hexact as [H _]. exact H. }
  assert (Ha : str_in (suffix f) audio_suffixes = false).
  { unfold str_in, valid_extensions, audio_suffixes in *. simpl in *.
    apply orb_false_iff in Hexact as [_ H]. apply orb_false_iff in H as [H1 H].
    apply orb_false_iff in H as [H2 _]. now rewrite H1, H2. }
  pose proof (body_other c d segment_dir media (length pre) f st0 Hp Ha) as Hbody.
  unfold write_entry in Hbody. fold k in Hbody.
  split; [exact Hbody|].
  assert (Hfinal : final =
    state_of (for_each c d segment_dir media (enumerate_from (S (length pre)) post)
      {| segment_index := S k; current_image := current_image st0;
         total_duration := total_duration st0;
         cl := cl st0 ++ [manifest_line c (segment_path segment_dir k)];
         timeline := timeline st0 |})).
  { unfold final, media. rewrite build_segments_split. fold media. rewrite Hpre.
    cbn [and_then enumerate_from for_each]. rewrite Hbody. reflexivity. }
  rewrite Hfinal. split.
  - apply entries_kept. simpl. apply in_or_app. right. now left.
  - unfold rendered_files. rewrite in_map_iff. intros (seg & Hout & Hin).
    assert (Hbelow : numbered_below segment_dir st0).
    { pose proof (numbered_below_run c d segment_dir media (enumerate_from 0 pre)
                    initial_state) as Hn.
      rewrite Hpre in Hn. apply Hn. intros s []. }
    match type of Hin with In _ (timeline (state_of (for_each _ _ _ _ ?items ?s))) =>
      destruct (never_rendered_run c d segment_dir k media items s) as [_ Hnever] end.
    + split; [simpl; lia|]. simpl. intros s Hs E.
      destruct (Hbelow s Hs) as (j & Hj & Ej). rewrite Ej in E.
      apply segment_path_inj in E. fold k in Hj. lia.
    + exact (Hnever seg Hin Hout).
Qed.

(** 002.PNG between two screenshots. *)
Lemma case_variant_witness :
  let c := demo_collab [] in
  let media := [["shots"; "001.png"]; ["shots"; "002.PNG"]; ["shots"; "003.png"]] in
  let final := state_of (build_segments c 2 ["seg"] media) in
  In (manifest_line c ["seg"; "segment-0001.mp4"]) (cl final) /\
  ~ In ["seg"; "segment-0001.mp4"] (rendered_files final).
Proof.
  intros c media final.
  destruct (case_variant_gets_entry_only c 2 ["seg"] [["shots"; "001.png"]]
              [["shots"; "003.png"]] ["shots"; "002.PNG"]
              (state_of (for_each c 2 ["seg"] media (enumerate_from 0 [["shots"; "001.png"]])
                           initial_state)))
    as (_ & H1 & H2); try reflexivity.
  split; [exact H1|exact H2].
Defined.

(** C7, at the failing input.  For a directory that holds 001.png and
    002.PNG the catalogue lists both files; the run reaches the pass, which
    renders one segment and writes two entries: the second entry names
    segment-0001.mp4, which no encoder call produced. *)
Theorem manifest_entry_without_segment :
  let c := demo_collab [] in
  let w := demo_directory [("001.png", Binary); ("002.PNG", Binary)] in
  let segment_dir := ["proj"; "test-videos"; "demo-segments"] in
  let img := ["proj"; "screenshots"; "demo"; "001.png"] in
  option_map build (report_of (main c demo_env demo_args w)) =
  Some (Done {| segment_index := 2;
                current_image := Some img;
                total_duration := 2;
                cl := [manifest_line c (segment_dir // "segment-0000.mp4");
                       manifest_line c (segment_dir // "segment-0001.mp4")];
                timeline := [SilentHold img 2 (segment_dir // "segment-0000.mp4")] |}).
Proof. vm_compute. reflexivity. Qed.

(** ** The file system *)

Lemma prefixes_length (p q : Path) : In q (prefixes p) -> (length q <= length p)%nat.
Proof.
  revert q. induction p as [|x p IH]; intros q; simpl; [tauto|].
  intros [<-|H]; [simpl; lia|].
  apply in_map_iff in H as (q' & <- & H). apply IH in H. simpl. lia.
Qed.

Lemma cache_path_not_prefix (d f : Path) : ~ In (cache_path d f) (prefixes d).
Proof.
  intros H. apply prefixes_length in H. unfold cache_path, joinpath in H.
  rewrite length_app in H. simpl in H. lia.
Qed.

Lemma prefixes_self (p : Path) : p <> [] -> In p (prefixes p).
Proof.
  induction p as [|x p IH]; [congruence|]. intros _. simpl.
  destruct p as [|y p]; [now left|]. right. apply in_map. apply IH. discriminate.
Qed.

Lemma make_dirs_kept (t : Z) (ps : list Path) (m : gmap Path Node) (q : Path) (n : Node) :
  m !! q = Some n -> foldl (make_dir t) m ps !! q = Some n.
Proof.
  revert m. induction ps as [|p ps IH]; intros m H; simpl; [exact H|].
  apply IH. unfold make_dir. destruct (m !! p) eqn:Hp; [exact H|].
  rewrite lookup_insert_ne; [exact H|]. intros ->. congruence.
Qed.

Lemma make_dirs_elsewhere (t : Z) (ps : list Path) (m : gmap Path Node) (q : Path) :
  ~ In q ps -> foldl (make_dir t) m ps !! q = m !! q.
Proof.
  revert m. induction ps as [|p ps IH]; intros m H; simpl; [reflexivity|].
  rewrite IH by (intros H'; apply H; now right).
  unfold make_dir. destruct (m !! p); [reflexivity|].
  apply lookup_insert_ne. intros ->. apply H. now left.
Qed.

Lemma make_dirs_new (t : Z) (ps : list Path) (m : gmap Path Node) (q : Path) :
  m !! q = None -> In q ps -> foldl (make_dir t) m ps !! q = Some (Dir t).
Proof.
  revert m. induction ps as [|p ps IH]; intros m Hq Hin; simpl; [destruct Hin|].
  destruct (decide (p = q)) as [->|Hne].
  - apply make_dirs_kept. unfold make_dir. rewrite Hq. apply lookup_insert_eq.
  - destruct Hin as [E|Hin]; [congruence|].
    apply IH; [|exact Hin]. unfold make_dir. destruct (m !! p); [exact Hq|].
    now rewrite lookup_insert_ne.
Qed.

Lemma make_dirs_present (t : Z) (ps : list Path) (m : gmap Path Node) :
  Forall (fun q => is_dir (m !! q) = true) ps -> foldl (make_dir t) m ps = m.
Proof.
  induction 1 as [|p ps Hp _ IH]; simpl; [reflexivity|].
  unfold make_dir at 2. destruct (m !! p); [exact IH|discriminate].
Qed.

Lemma make_dirs_lookup (t : Z) (ps : list Path) (m : gmap Path Node) (q : Path) :
  foldl (make_dir t) m ps !! q = m !! q \/
  (m !! q = None /\ foldl (make_dir t) m ps !! q = Some (Dir t)).
Proof.
  destruct (m !! q) as [n|] eqn:Hq.
  - left. now apply make_dirs_kept.
  - destruct (decide (q ∈ ps)) as [Hin|Hout].
    + right. split; [reflexivity|]. apply make_dirs_new; [exact Hq|].
      now apply list_elem_of_In.
    + left. rewrite make_dirs_elsewhere; [exact Hq|].
      intros Hin. apply Hout. now apply list_elem_of_In.
Qed.

Lemma set_fs_same (w : World) : set_fs (fs w) w = w.
Proof. destruct w; reflexivity. Qed.

(** What [mkdir] does when it succeeds. *)
Lemma mkdir_parents_ok (d : Path) (w w' : World) :
  mkdir_parents d w = Ok tt w' ->
  w' = set_fs (foldl (make_dir (clock w)) (fs w) (prefixes d)) w /\
  cache_dir_usable (fs w) d /\
  Forall (fun q => is_dir (fs w' !! q) = true) (prefixes d).
Proof.
  unfold mkdir_parents.
  destruct (existsb _ (prefixes d)) eqn:Hex; [discriminate|].
  intros E. injection E as <-. split; [reflexivity|].
  assert (Hus : cache_dir_usable (fs w) d).
  { unfold cache_dir_usable. apply List.Forall_forall. intros q Hq.
    destruct (is_file (fs w !! q)) eqn:Hf; [|reflexivity].
    assert (existsb (fun q => is_file (fs w !! q)) (prefixes d) = true)
      by (apply existsb_exists; eauto).
    congruence. }
  split; [exact Hus|].
  apply List.Forall_forall. intros q Hq. simpl.
  unfold cache_dir_usable in Hus. rewrite List.Forall_forall in Hus. specialize (Hus q Hq).
  destruct (fs w !! q) as [n|] eqn:Hl.
  - rewrite (make_dirs_kept _ _ _ _ n Hl). destruct n; [reflexivity|discriminate].
  - rewrite make_dirs_new by assumption. reflexivity.
Qed.

Lemma mkdir_parents_usable (d : Path) (w : World) :
  cache_dir_usable (fs w) d ->
  mkdir_parents d w = Ok tt (set_fs (foldl (make_dir (clock w)) (fs w) (prefixes d)) w).
Proof.
  intros Hus. unfold mkdir_parents.
  destruct (existsb _ (prefixes d)) eqn:Hex; [|reflexivity].
  apply existsb_exists in Hex as (q & Hq & Hf).
  unfold cache_dir_usable in Hus. rewrite List.Forall_forall in Hus.
  rewrite (Hus q Hq) in Hf. discriminate.
Qed.

Lemma mkdir_parents_present (d : Path) (w : World) :
  Forall (fun q => is_dir (fs w !! q) = true) (prefixes d) ->
  mkdir_parents d w = Ok tt w.
Proof.
  intros Hd. rewrite mkdir_parents_usable.
  - rewrite make_dirs_present by assumption. now rewrite set_fs_same.
  - unfold cache_dir_usable. eapply List.Forall_impl; [|exact Hd].
    intros q Hq. simpl in Hq. destruct (fs w !! q) as [[|]|]; simpl in *; congruence.
Qed.

(** ** The suffix of a cache path *)

Lemma rfind_dot_wav (s : string) : Py.rfind_dot (s +:+ ".wav") = Some (String.length s).
Proof. induction s as [|ch s IH]; simpl; [reflexivity|now rewrite IH]. Qed.

Lemma drop_append (s t : string) : Py.drop (String.length s) (s +:+ t) = t.
Proof. induction s as [|ch s IH]; simpl; [now destruct t|exact IH]. Qed.

Lemma suffix_cache_path (d f : Path) :
  suffix (cache_path d f) = ".wav" \/ suffix (cache_path d f) = "".
Proof.
  unfold cache_path. rewrite suffix_joinpath. unfold suffix. cbn [name List.last].
  rewrite rfind_dot_wav.
  destruct (_ && _); [left; apply drop_append|now right].
Qed.

Lemma cache_path_not_txt (d f : Path) : suffix (cache_path d f) <> ".txt".
Proof. destruct (suffix_cache_path d f) as [-> | ->]; discriminate. Qed.

(** ** The cache test and the synthesis *)

Lemma cache_is_fresh_true (w : World) (wav f : Path) :
  fresh (fs w) wav f -> cache_is_fresh wav f w = Ok true w.
Proof.
  intros (cached & source & Hc & Hs & Hlt). unfold cache_is_fresh.
  rewrite Hc, Hs. f_equal. now apply Z.ltb_lt.
Qed.

Lemma cache_is_fresh_false (w : World) (wav f : Path) (n : Node) :
  fs w !! f = Some n -> ~ fresh (fs w) wav f -> cache_is_fresh wav f w = Ok false w.
Proof.
  intros Hs Hnot. unfold cache_is_fresh. rewrite Hs.
  destruct (fs w !! wav) as [cached|] eqn:Hc; [|reflexivity].
  f_equal. apply Z.ltb_ge. destruct (Z.lt_ge_cases (st_mtime n) (st_mtime cached)) as [Hlt|Hge];
    [|exact Hge].
  exfalso. apply Hnot. exists cached, n. auto.
Qed.

Lemma cache_is_fresh_world (w w' : World) (wav f : Path) (b : bool) :
  cache_is_fresh wav f w = Ok b w' -> w' = w /\ (b = true <-> fresh (fs w) wav f).
Proof.
  unfold cache_is_fresh.
  destruct (fs w !! wav) as [cached|] eqn:Hc.
  - destruct (fs w !! f) as [source|] eqn:Hs; [|discriminate].
    intros E. injection E as <- <-. split; [reflexivity|]. split.
    + intros Hlt. apply Z.ltb_lt in Hlt. exists cached, source. auto.
    + intros (c' & s' & Hc' & Hs' & Hlt). rewrite Hc in Hc'. rewrite Hs in Hs'.
      injection Hc' as <-. injection Hs' as <-. now apply Z.ltb_lt.
  - intros E. injection E as <- <-. split; [reflexivity|]. split; [discriminate|].
    intros (c' & s' & Hc' & _). congruence.
Qed.

Arguments Py.strip : simpl never.

Ltac tts_unfold :=
  unfold run_kokoro_tts, bind, modify, ret, fail, ensure_kokoro_pipeline, read_text,
    run_pipeline, sf_write, log_tts_call; simpl.

(** Every call of [run_kokoro_tts] is logged, once, however it ends. *)
Lemma run_kokoro_tts_logged (env : TtsEnv) (f wav : Path) (w : World) :
  tts_calls (world_of (run_kokoro_tts env f wav w)) = tts_calls w ++ [(f, wav)].
Proof.
  tts_unfold.
  destruct (numpy_soundfile_installed env); [|reflexivity].
  destruct (kokoro_pipeline w); [|destruct (kokoro_installed env); [|reflexivity]];
    simpl;
    (destruct (fs w !! f) as [[t|t [raw| |]]|]; try reflexivity;
     destruct (Py.strip raw) as [|ch text]; [reflexivity|];
     destruct (synthesize env (ch :: text)); [reflexivity|];
     simpl; destruct (_ && _); reflexivity).
Qed.

(** What a call of [run_kokoro_tts] that returns has done. *)
Lemma run_kokoro_tts_ok (env : TtsEnv) (f wav : Path) (w w' : World) :
  run_kokoro_tts env f wav w = Ok tt w' ->
  exists t raw,
    fs w !! f = Some (File t (Text raw)) /\
    Py.strip raw <> [] /\
    clock w' = (clock w + Z.of_nat (elapsed env (Py.strip raw)))%Z /\
    engine_calls w' = engine_calls w ++ [Py.strip raw] /\
    is_dir (fs w !! wav) = false /\
    fs w' = <[wav := File (clock w')
                      (Wav SAMPLE_RATE (concat (synthesize env (Py.strip raw))))]> (fs w).
Proof.
  tts_unfold.
  destruct (numpy_soundfile_installed env); [|discriminate].
  assert (Hcore : forall w1 : World,
    fs w1 = fs w -> clock w1 = clock w -> engine_calls w1 = engine_calls w ->
    match
      match fs w1 !! f with
      | Some (File _ (Text content)) => Ok content w1
      | Some (File _ _) => Fail (Raised "UnicodeDecodeError") w1
      | _ => Fail (Raised "OSError") w1
      end
    with
    | Ok raw w2 =>
        match Py.strip raw with
        | [] => fun w3 => Fail (SysExit 1 (empty_narration_message f)) w3
        | _ :: _ => fun w3 =>
            match synthesize env (Py.strip raw) with
            | [] => fun w4 => Fail (SysExit 1 (no_audio_message f)) w4
            | _ :: _ => fun w4 =>
                if is_dir (fs w4 !! parent wav) && negb (is_dir (fs w4 !! wav))
                then Ok tt (set_fs (<[wav := File (clock w4)
                               (Wav SAMPLE_RATE (concat (synthesize env (Py.strip raw))))]>
                               (fs w4)) w4)
                else Fail (Raised "LibsndfileError") w4
            end (set_clock (clock w3 + Z.of_nat (elapsed env (Py.strip raw)))
                           (log_engine_call (Py.strip raw) w3))
        end w2
    | Fail e w2 => Fail e w2
    end = Ok tt w' ->
    exists t raw,
      fs w !! f = Some (File t (Text raw)) /\
      Py.strip raw <> [] /\
      clock w' = (clock w + Z.of_nat (elapsed env (Py.strip raw)))%Z /\
      engine_calls w' = engine_calls w ++ [Py.strip raw] /\
      is_dir (fs w !! wav) = false /\
      fs w' = <[wav := File (clock w')
                        (Wav SAMPLE_RATE (concat (synthesize env (Py.strip raw))))]> (fs w)).
  { intros w1 Hfs Hclock Heng. rewrite Hfs.
    destruct (fs w !! f) as [[t|t [raw| |]]|] eqn:Hf; try discriminate.
    destruct (Py.strip raw) as [|ch text] eqn:Hstrip; [discriminate|].
    destruct (synthesize env (ch :: text)) as [|a chunks] eqn:Hsyn; [discriminate|].
    simpl. rewrite Hfs.
    destruct (is_dir (fs w !! parent wav)); [|discriminate].
    destruct (is_dir (fs w !! wav)) eqn:Hdir; [discriminate|].
    simpl. intros E. injection E as <-. exists t, raw. rewrite Hstrip, Hsyn. simpl.
    rewrite Hclock, Heng. repeat split; try reflexivity. discriminate. }
  destruct (kokoro_pipeline w); [|destruct (kokoro_installed env); [|discriminate]];
    apply Hcore; reflexivity.
Qed.

(** Empty narration stops the run before the engine is asked, with a message
    that names the file, and leaves the files as they are. *)
Lemma run_kokoro_tts_empty (env : TtsEnv) (f wav : Path) (w : World) (t : Z) (raw : Py.pystr) :
  numpy_soundfile_installed env = true ->
  (kokoro_installed env = true \/ kokoro_pipeline w <> None) ->
  fs w !! f = Some (File t (Text raw)) ->
  Py.strip raw = [] ->
  exists w',
    run_kokoro_tts env f wav w = Fail (SysExit 1 (empty_narration_message f)) w' /\
    fs w' = fs w /\ engine_calls w' = engine_calls w.
Proof.
  intros Hnp Hk Hf Hempty. tts_unfold.
  rewrite Hnp.
  destruct (kokoro_pipeline w) as [code|] eqn:Hp.
  - simpl. rewrite Hf, Hempty. eexists. split; [reflexivity|]. split; reflexivity.
  - destruct Hk as [Hk|Hk]; [|congruence]. rewrite Hk. simpl.
    rewrite Hf, Hempty. eexists. split; [reflexivity|]. split; reflexivity.
Qed.

(** ** Resolving one narration text *)

Lemma fresh_after_mkdir (t : Z) (m : gmap Path Node) (d f : Path) :
  is_file (m !! f) = true ->
  fresh (foldl (make_dir t) m (prefixes d)) (cache_path d f) f <->
  fresh m (cache_path d f) f.
Proof.
  intros Hf. destruct (m !! f) as [n|] eqn:Hn; [|discriminate].
  unfold fresh.
  rewrite (make_dirs_elsewhere t (prefixes d) m (cache_path d f) (cache_path_not_prefix d f)).
  rewrite (make_dirs_kept t (prefixes d) m f n Hn), Hn. reflexivity.
Qed.

(** A fresh entry is returned as it is: nothing but the cache directory can
    have been created. *)
Lemma resolve_narration_fresh (env : TtsEnv) (d f : Path) (w : World) :
  is_file (fs w !! f) = true ->
  cache_dir_usable (fs w) d ->
  fresh (fs w) (cache_path d f) f ->
  resolve_narration env d f w =
  Ok (cache_path d f) (set_fs (foldl (make_dir (clock w)) (fs w) (prefixes d)) w).
Proof.
  intros Hf Hus Hfresh. unfold resolve_narration, bind.
  rewrite (mkdir_parents_usable d w Hus).
  rewrite cache_is_fresh_true; [reflexivity|].
  simpl. now apply fresh_after_mkdir.
Qed.

(** A stale or missing entry goes through [run_kokoro_tts]. *)
Lemma resolve_narration_stale (env : TtsEnv) (d f : Path) (w : World) :
  is_file (fs w !! f) = true ->
  cache_dir_usable (fs w) d ->
  ~ fresh (fs w) (cache_path d f) f ->
  resolve_narration env d f w =
  match run_kokoro_tts env f (cache_path d f)
          (set_fs (foldl (make_dir (clock w)) (fs w) (prefixes d)) w) with
  | Ok _ w' => Ok (cache_path d f) w'
  | Fail e w' => Fail e w'
  end.
Proof.
  intros Hf Hus Hstale. unfold resolve_narration, bind.
  rewrite (mkdir_parents_usable d w Hus).
  destruct (fs w !! f) as [n|] eqn:Hn; [|discriminate].
  rewrite (cache_is_fresh_false _ _ _ n).
  - destruct (run_kokoro_tts _ _ _ _); reflexivity.
  - simpl. now apply make_dirs_kept.
  - simpl. intros H. apply Hstale. apply (fresh_after_mkdir (clock w)); [|exact H].
    now rewrite Hn.
Qed.

(** ** How the files change *)

Lemma evolves_refl (c0 : Z) (m : gmap Path Node) : evolves c0 m m.
Proof. repeat split; auto. Qed.

Lemma evolves_trans (c0 : Z) (m1 m2 m3 : gmap Path Node) :
  evolves c0 m1 m2 -> evolves c0 m2 m3 -> evolves c0 m1 m3.
Proof.
  intros (D1 & T1 & N1) (D2 & T2 & N2). repeat split; auto.
  intros q n Hq. destruct (N1 q n Hq) as [H|(n' & H & Hle)].
  - apply (N2 q n H).
  - right. destruct (N2 q n' H) as [H'|(n'' & H' & Hle')]; eauto.
Qed.

Lemma evolves_make_dirs (c0 t : Z) (m : gmap Path Node) (ps : list Path) :
  evolves c0 m (foldl (make_dir t) m ps).
Proof.
  repeat split; intros; try left; now apply make_dirs_kept.
Qed.

Lemma evolves_write (c0 t : Z) (m : gmap Path Node) (wav : Path) (data : FileData) :
  is_dir (m !! wav) = false -> suffix wav <> ".txt" -> (c0 <= t)%Z ->
  evolves c0 m (<[wav := File t data]> m).
Proof.
  intros Hdir Hsuf Hle. repeat split.
  - intros q t' Hq. rewrite lookup_insert_ne; [exact Hq|].
    intros <-. rewrite Hq in Hdir. discriminate.
  - intros q n Hs Hq. rewrite lookup_insert_ne; [exact Hq|]. intros <-. contradiction.
  - intros q n Hq. destruct (decide (wav = q)) as [<-|Hne].
    + right. exists (File t data). split; [apply lookup_insert_eq|exact Hle].
    + left. now rewrite lookup_insert_ne.
Qed.

Lemma evolves_dirs (c0 : Z) (m m' : gmap Path Node) (ps : list Path) :
  evolves c0 m m' ->
  Forall (fun q => is_dir (m !! q) = true) ps ->
  Forall (fun q => is_dir (m' !! q) = true) ps.
Proof.
  intros (D & _ & _). apply List.Forall_impl. intros q Hq.
  destruct (m !! q) as [[t|]|] eqn:E; try discriminate.
  now rewrite (D q t E).
Qed.

Lemma evolves_fresh (c0 : Z) (m m' : gmap Path Node) (wav f : Path) (n : Node) :
  evolves c0 m m' ->
  suffix f = ".txt" -> m !! f = Some n -> (st_mtime n < c0)%Z ->
  fresh m wav f -> fresh m' wav f.
Proof.
  intros (_ & T & N) Hs Hn Hold (cached & source & Hc & Hf & Hlt).
  rewrite Hn in Hf. injection Hf as <-.
  destruct (N wav cached Hc) as [H|(n' & H & Hnew)].
  - exists cached, n. auto.
  - exists n', n. repeat split; auto. lia.
Qed.

(** One narration text resolved, seen from the start time [c0] of the
    phase. *)
Lemma resolve_narration_step (env : TtsEnv) (c0 : Z) (d f p : Path) (w w' : World) :
  resolve_narration env d f w = Ok p w' ->
  (c0 <= clock w)%Z ->
  p = cache_path d f /\
  evolves c0 (fs w) (fs w') /\
  (c0 <= clock w')%Z /\
  Forall (fun q => is_dir (fs w' !! q) = true) (prefixes d) /\
  (forall n, suffix f = ".txt" -> fs w !! f = Some n -> (st_mtime n < c0)%Z ->
             fresh (fs w') (cache_path d f) f).
Proof.
  unfold resolve_narration, bind. intros Hrun Hc0.
  destruct (mkdir_parents d w) as [[] wa|] eqn:Hmk; [|discriminate].
  apply mkdir_parents_ok in Hmk as (-> & Hus & Hdirs).
  set (wa := set_fs (foldl (make_dir (clock w)) (fs w) (prefixes d)) w) in *.
  assert (Hev : evolves c0 (fs w) (fs wa)) by apply evolves_make_dirs.
  destruct (cache_is_fresh (cache_path d f) f wa) as [b wb|] eqn:Hfr; [|discriminate].
  apply cache_is_fresh_world in Hfr as (-> & Hb).
  destruct b.
  - unfold ret in Hrun. injection Hrun as <- <-.
    refine (conj eq_refl (conj Hev (conj Hc0 (conj Hdirs _)))).
    intros n _ Hn Hold. now apply Hb.
  - destruct (run_kokoro_tts env f (cache_path d f) wa) as [[] wc|] eqn:Htts; [|discriminate].
    unfold ret in Hrun. injection Hrun as <- <-.
    apply run_kokoro_tts_ok in Htts as (t & raw & Hsrc & _ & Hclock & _ & Hnd & Hfs).
    assert (Hc : (c0 <= clock wc)%Z) by (rewrite Hclock; simpl; lia).
    assert (Hev2 : evolves c0 (fs wa) (fs wc)).
    { rewrite Hfs. apply evolves_write; [exact Hnd|apply cache_path_not_txt|exact Hc]. }
    refine (conj eq_refl (conj _ (conj Hc (conj _ _)))).
    + eapply evolves_trans; eassumption.
    + eapply evolves_dirs; eassumption.
    + intros n Htxt Hn Hold. exists (File (clock wc) (Wav SAMPLE_RATE
        (concat (synthesize env (Py.strip raw))))), n.
      rewrite Hfs. split; [apply lookup_insert_eq|]. split; [|simpl; lia].
      rewrite lookup_insert_ne.
      * simpl. now apply make_dirs_kept.
      * intros E. pose proof (cache_path_not_txt d f) as Hne.
        rewrite E in Hne. contradiction.
Qed.

(** ** The conversion loop *)

Lemma settled_evolves (ds : Dirs) (c0 : Z) (m m' : gmap Path Node) (f : Path) (n : Node) :
  evolves c0 m m' ->
  suffix f = ".txt" -> m !! f = Some n -> (st_mtime n < c0)%Z ->
  settled ds m f -> settled ds m' f.
Proof.
  intros Hev Hs Hn Hold [Hd Hf]. split.
  - eapply evolves_dirs; eassumption.
  - eapply evolves_fresh; eassumption.
Qed.

Lemma count_txt_cons (f : Path) (media : list Path) :
  count_txt (f :: media) =
  ((if String.eqb (suffix f) ".txt" then 1 else 0) + count_txt media)%nat.
Proof. unfold count_txt. simpl. destruct (String.eqb (suffix f) ".txt"); reflexivity. Qed.

(** A first run that comes to its end leaves every narration text settled,
    provided the texts were last written before it started. *)
Lemma convert_files_settles (env : TtsEnv) (ds : Dirs) (c0 : Z) (media : list Path) :
  forall conv k w files k' w1,
  convert_files env ds media conv k w = Ok (files, k') w1 ->
  (c0 <= clock w)%Z ->
  (forall f, In f media -> suffix f = ".txt" ->
     exists n, fs w !! f = Some n /\ (st_mtime n < c0)%Z) ->
  evolves c0 (fs w) (fs w1) /\
  files = conv ++ map (resolved ds) media /\
  k' = (k + count_txt media)%nat /\
  (forall f, In f media -> suffix f = ".txt" -> settled ds (fs w1) f).
Proof.
  induction media as [|f media IH]; intros conv k w files k' w1 Hrun Hc0 Hold.
  - simpl in Hrun. unfold ret in Hrun. injection Hrun as <- <- <-.
    split; [apply evolves_refl|]. rewrite app_nil_r, Nat.add_0_r.
    split; [reflexivity|]. split; [reflexivity|]. intros g [].
  - cbn [convert_files] in Hrun. rewrite count_txt_cons. unfold resolved at 1. cbn [map].
    destruct (String.eqb (suffix f) ".txt") eqn:Htxt.
    + apply String.eqb_eq in Htxt. unfold bind in Hrun.
      destruct (resolve_narration env (wav_cache_dir_of ds f) f w) as [p wa|] eqn:Hres;
        [|discriminate].
      destruct (resolve_narration_step env c0 _ f p w wa Hres Hc0)
        as (-> & Hev & Hca & Hdirs & Hfresh).
      destruct (Hold f (or_introl eq_refl) Htxt) as (n & Hn & Hnold).
      assert (Hold' : forall g, In g media -> suffix g = ".txt" ->
                exists n, fs wa !! g = Some n /\ (st_mtime n < c0)%Z).
      { intros g Hg Hs. destruct (Hold g (or_intror Hg) Hs) as (ng & Hng & Hgo).
        exists ng. split; [|exact Hgo]. destruct Hev as (_ & T & _). now apply T. }
      destruct (IH _ _ _ _ _ _ Hrun Hca Hold') as (Hev' & -> & -> & Hset).
      split; [eapply evolves_trans; eassumption|].
      split; [unfold resolved; rewrite <- app_assoc; reflexivity|].
      split; [lia|].
      intros g [<-|Hg] Hs; [|now apply Hset].
      apply (settled_evolves ds c0 (fs wa) (fs w1) f n Hev' Htxt); auto.
      * destruct Hev as (_ & T & _). now apply T.
      * split; [exact Hdirs|]. now apply (Hfresh n).
    + assert (Hold' : forall g, In g media -> suffix g = ".txt" ->
                exists n, fs w !! g = Some n /\ (st_mtime n < c0)%Z)
        by (intros g Hg; apply Hold; now right).
      destruct (IH _ _ _ _ _ _ Hrun Hc0 Hold') as (Hev' & -> & -> & Hset).
      split; [exact Hev'|]. split; [rewrite <- app_assoc; reflexivity|].
      split; [lia|].
      intros g [<-|Hg] Hs; [|now apply Hset].
      apply String.eqb_neq in Htxt. contradiction.
Qed.

(** A run over settled texts asks for no synthesis and changes nothing. *)
Lemma convert_files_settled (env : TtsEnv) (ds : Dirs) (w : World) (media : list Path) :
  (forall f, In f media -> suffix f = ".txt" -> settled ds (fs w) f) ->
  forall conv k,
  convert_files env ds media conv k w =
  Ok (conv ++ map (resolved ds) media, (k + count_txt media)%nat) w.
Proof.
  induction media as [|f media IH]; intros Hset conv k.
  - simpl. unfold ret. now rewrite app_nil_r, Nat.add_0_r.
  - cbn [convert_files]. rewrite count_txt_cons. unfold resolved at 1. cbn [map].
    destruct (String.eqb (suffix f) ".txt") eqn:Htxt.
    + apply String.eqb_eq in Htxt.
      destruct (Hset f (or_introl eq_refl) Htxt) as [Hd Hf].
      unfold bind, resolve_narration, bind.
      rewrite (mkdir_parents_present _ _ Hd), (cache_is_fresh_true _ _ _ Hf).
      unfold ret. rewrite IH by (intros g Hg; apply Hset; now right).
      rewrite <- app_assoc. do 2 f_equal. lia.
    + rewrite IH by (intros g Hg; apply Hset; now right).
      rewrite <- app_assoc. reflexivity.
Qed.

Lemma fresh_decidable (m : gmap Path Node) (wav f : Path) :
  fresh m wav f \/ ~ fresh m wav f.
Proof.
  unfold fresh.
  destruct (m !! wav) as [cached|]; [|right; intros (c & s & H & _); discriminate].
  destruct (m !! f) as [source|]; [|right; intros (c & s & _ & H & _); discriminate].
  destruct (Z.lt_ge_cases (st_mtime source) (st_mtime cached)) as [Hlt|Hge].
  - left. eauto.
  - right. intros (c & s & Hc & Hs & Hlt). injection Hc as <-. injection Hs as <-. lia.
Qed.

(** C2.  For a narration text that is a file, with a cache directory that
    can be created: the cached WAV is reused, [run_kokoro_tts] not being
    called and the engine not being asked, exactly when the cached file
    exists and is strictly newer than the text; then the cache entry is
    left as it is.  Otherwise [run_kokoro_tts] is called exactly once, and
    when it returns the engine has been asked once and its audio is the
    content of the cache path.  A second pass of the conversion loop over
    texts that were last written before the first pass started, whenever it
    takes place, returns the same list and changes nothing: no call, no
    synthesis; and so does any pass over texts whose cache entries are
    fresh. *)
Theorem narration_cache_reuse (env : TtsEnv) :
  (forall (d f : Path) (w : World),
     is_file (fs w !! f) = true ->
     cache_dir_usable (fs w) d ->
     let wav := cache_path d f in
     let r := resolve_narration env d f w in
     (fresh (fs w) wav f <-> tts_calls (world_of r) = tts_calls w) /\
     (fresh (fs w) wav f ->
        r = Ok wav (world_of r) /\
        engine_calls (world_of r) = engine_calls w /\
        fs (world_of r) !! wav = fs w !! wav) /\
     (~ fresh (fs w) wav f ->
        tts_calls (world_of r) = tts_calls w ++ [(f, wav)] /\
        (succeeded r = true ->
           r = Ok wav (world_of r) /\
           exists text,
             engine_calls (world_of r) = engine_calls w ++ [text] /\
             fs (world_of r) !! wav =
               Some (File (clock (world_of r))
                          (Wav SAMPLE_RATE (concat (synthesize env text))))))) /\
  (forall (ds : Dirs) (media : list Path) (w : World),
     (forall f, In f media -> suffix f = ".txt" -> settled ds (fs w) f) ->
     convert_files env ds media [] 0 w = Ok (map (resolved ds) media, count_txt media) w) /\
  (forall (ds : Dirs) (media files : list Path) (k : nat) (w w1 : World) (later : Z),
     convert_files env ds media [] 0 w = Ok (files, k) w1 ->
     (forall f, In f media -> suffix f = ".txt" ->
        exists n, fs w !! f = Some n /\ (st_mtime n < clock w)%Z) ->
     convert_files env ds media [] 0 (set_clock later w1) = Ok (files, k) (set_clock later w1)).
Proof.
  split; [|split].
  - intros d f w Hfile Hus wav r.
    assert (Hyes : fresh (fs w) wav f ->
              r = Ok wav (set_fs (foldl (make_dir (clock w)) (fs w) (prefixes d)) w))
      by (intros Hf; now apply resolve_narration_fresh).
    assert (Hno : ~ fresh (fs w) wav f ->
              tts_calls (world_of r) = tts_calls w ++ [(f, wav)]).
    { intros Hstale. unfold r. rewrite resolve_narration_stale by assumption.
      pose proof (run_kokoro_tts_logged env f wav
                    (set_fs (foldl (make_dir (clock w)) (fs w) (prefixes d)) w)) as Hlog.
      fold wav. destruct (run_kokoro_tts env f wav _); exact Hlog. }
    split; [|split].
    + split.
      * intros Hf. rewrite (Hyes Hf). reflexivity.
      * intros Hsame. destruct (fresh_decidable (fs w) wav f) as [Hf|Hstale]; [exact Hf|].
        rewrite (Hno Hstale) in Hsame.
        apply (f_equal (@length _)) in Hsame. rewrite length_app in Hsame. simpl in Hsame. lia.
    + intros Hf. rewrite (Hyes Hf). simpl. repeat split.
      apply make_dirs_elsewhere. apply cache_path_not_prefix.
    + intros Hstale. split; [now apply Hno|].
      unfold r. rewrite resolve_narration_stale by assumption. fold wav.
      destruct (run_kokoro_tts env f wav _) as [[] wc|e wc] eqn:Htts; [|discriminate].
      intros _. split; [reflexivity|].
      apply run_kokoro_tts_ok in Htts as (t & raw & _ & _ & _ & Heng & _ & Hfs).
      exists (Py.strip raw). simpl. split; [exact Heng|].
      rewrite Hfs. apply lookup_insert_eq.
  - intros ds media w Hset. apply (convert_files_settled env ds w media Hset [] 0%nat).
  - intros ds media files k w w1 later Hrun Hold.
    destruct (convert_files_settles env ds (clock w) media [] 0 w files k w1 Hrun
                (Z.le_refl _) Hold) as (_ & -> & -> & Hset).
    apply (convert_files_settled env ds (set_clock later w1) media Hset).
Qed.

(** A narration without cache entry, resolved twice. *)
Lemma narration_cache_witness :
  let w := demo_world "Hello." in
  let r := resolve_narration demo_env (generated_wav_dir demo_dirs) demo_txt w in
  (fresh (fs w) demo_wav demo_txt <-> tts_calls (world_of r) = tts_calls w) /\
  let first := convert_files demo_env demo_dirs [demo_png; demo_txt] [] 0 w in
  convert_files demo_env demo_dirs [demo_png; demo_txt] [] 0 (set_clock 500 (world_of first)) =
  Ok ([demo_png; demo_wav], 1%nat) (set_clock 500 (world_of first)).
Proof.
  intros w r.
  destruct (narration_cache_reuse demo_env) as (Hitem & _ & Hloop).
  split.
  - destruct (Hitem (generated_wav_dir demo_dirs) demo_txt w) as (Hiff & _ & _).
    + reflexivity.
    + repeat constructor.
    + exact Hiff.
  - intros first.
    apply (Hloop demo_dirs [demo_png; demo_txt] [demo_png; demo_wav] 1%nat w
             (world_of first) 500%Z).
    + vm_compute. reflexivity.
    + intros f [<-|[<-|[]]] Hs; [discriminate|].
      exists (File 30 (Text (Py.of_string "Hello."))). split; [reflexivity|simpl; lia].
Defined.

(** A narration text that bears the time stamp its WAV is going to get, 106:
    the first pass synthesises it, and a second pass over the same, unchanged
    sources synthesises it again, the cached WAV not being strictly newer. *)
Lemma narration_cache_counterexample :
  let w := demo_world_stamped "Hello." 106 in
  let first := convert_files demo_env demo_dirs [demo_png; demo_txt] [] 0 w in
  let second := convert_files demo_env demo_dirs [demo_png; demo_txt] [] 0 (world_of first) in
  first = Ok ([demo_png; demo_wav], 1%nat) (world_of first) /\
  fs (world_of first) !! demo_txt = fs w !! demo_txt /\
  fs (world_of first) !! demo_png = fs w !! demo_png /\
  option_map st_mtime (fs (world_of first) !! demo_wav) = Some 106%Z /\
  tts_calls (world_of first) = [(demo_txt, demo_wav)] /\
  tts_calls (world_of second) = [(demo_txt, demo_wav); (demo_txt, demo_wav)] /\
  engine_calls (world_of second) = [Py.of_string "Hello."; Py.of_string "Hello."].
Proof. repeat split; vm_compute; reflexivity. Qed.

(** ** Empty narration *)

Lemma convert_files_app (env : TtsEnv) (ds : Dirs) (pre rest : list Path) :
  forall conv k w,
  convert_files env ds (pre ++ rest) conv k w =
  match convert_files env ds pre conv k w with
  | Ok (conv', k') w' => convert_files env ds rest conv' k' w'
  | Fail e w' => Fail e w'
  end.
Proof.
  induction pre as [|f pre IH]; intros conv k w; [reflexivity|].
  cbn [app convert_files].
  destruct (String.eqb (suffix f) ".txt"); [|apply IH].
  unfold bind. destruct (resolve_narration env (wav_cache_dir_of ds f) f w); [apply IH|reflexivity].
Qed.

(** A narration of three spaces with a cached WAV newer than it: the run goes
    on, and nothing is synthesised. *)
Lemma empty_narration_counterexample :
  let w := demo_world_cached "   " 40 in
  let r := convert_files demo_env demo_dirs [demo_png; demo_txt] [] 0 w in
  suffix demo_txt = ".txt" /\
  fs w !! demo_txt = Some (File 30 (Text (Py.of_string "   "))) /\
  Py.strip (Py.of_string "   ") = [] /\
  r = Ok ([demo_png; demo_wav], 1%nat) w /\
  ~ (exists e w', r = Fail e w').
Proof.
  intros w r.
  assert (Hr : r = Ok ([demo_png; demo_wav], 1%nat) w) by (vm_compute; reflexivity).
  repeat split; try reflexivity; try exact Hr.
  intros (e & w' & H). rewrite Hr in H. discriminate.
Qed.

(** C8, amended.  Let the conversion loop reach a narration text whose
    cache entry is not fresh and whose content is empty once stripped, the
    modules of the engine being installed.  Then the run stops with exit
    status 1 and the message that names the file; the engine has not been
    asked, and the cache path holds what it held before. *)
Theorem empty_narration_is_fatal (env : TtsEnv) (ds : Dirs) (pre post conv : list Path)
    (f : Path) (k : nat) (w0 w : World) (t : Z) (raw : Py.pystr) :
  let d := wav_cache_dir_of ds f in
  suffix f = ".txt" ->
  numpy_soundfile_installed env = true ->
  kokoro_installed env = true \/ kokoro_pipeline w <> None ->
  convert_files env ds pre [] 0 w0 = Ok (conv, k) w ->
  fs w !! f = Some (File t (Text raw)) ->
  Py.strip raw = [] ->
  cache_dir_usable (fs w) d ->
  ~ fresh (fs w) (cache_path d f) f ->
  exists w',
    convert_files env ds (pre ++ f :: post) [] 0 w0 =
      Fail (SysExit 1 (RED +:+ CROSS +:+ " Narration file is empty: " +:+ name f +:+ NC)) w' /\
    engine_calls w' = engine_calls w /\
    fs w' !! cache_path d f = fs w !! cache_path d f.
Proof.
  intros d Htxt Hnp Hk Hpre Hf Hempty Hus Hstale.
  set (wa := set_fs (foldl (make_dir (clock w)) (fs w) (prefixes d)) w).
  destruct (run_kokoro_tts_empty env f (cache_path d f) wa t raw Hnp) as (w' & Hrun & Hfs & Heng).
  - exact Hk.
  - simpl. now apply make_dirs_kept.
  - exact Hempty.
  - exists w'. split; [|split].
    + rewrite convert_files_app, Hpre. cbn [convert_files].
      apply String.eqb_eq in Htxt. rewrite Htxt. unfold bind. fold d.
      rewrite resolve_narration_stale; [|now rewrite Hf|exact Hus|exact Hstale].
      fold wa. rewrite Hrun. reflexivity.
    + exact Heng.
    + rewrite Hfs. simpl. apply make_dirs_elsewhere. apply cache_path_not_prefix.
Qed.

(** A narration of three spaces without cache entry. *)
Lemma empty_narration_witness :
  exists w',
    convert_files demo_env demo_dirs [demo_png; demo_txt] [] 0 (demo_world "   ") =
      Fail (SysExit 1 (RED +:+ CROSS +:+ " Narration file is empty: 002.txt" +:+ NC)) w' /\
    fs w' !! demo_wav = None.
Proof.
  destruct (empty_narration_is_fatal demo_env demo_dirs [demo_png] [] [demo_png] demo_txt 0
              (demo_world "   ") (demo_world "   ") 30 (Py.of_string "   "))
    as (w' & Hrun & _ & Hfs); try reflexivity.
  - now left.
  - repeat constructor.
  - intros (c & s & Hc & _). discriminate.
  - exists w'. split; [exact Hrun|exact Hfs].
Defined.

(** ** Extensions in capitals *)

(** C4, at the failing input.  The catalogue accepts 002.MP3 and 003.TXT as
    it accepts 002.mp3 and 003.txt.  With the lower-case names the run counts
    two audio clips and one narration, resolves the narration to its cached
    WAV and holds 001.png under both clips.  With the capitals it counts no
    audio and no narration, leaves 003.TXT in the media list, calls no
    synthesis, gives 001.png a silent hold and renders nothing for the two
    other files.  A directory that holds 001.PNG alone is turned down for
    having no screenshot. *)
Theorem capital_extensions_are_not_their_kind :
  let c := demo_prober in
  let dir := ["proj"; "screenshots"; "demo"] in
  let run w := main c demo_env demo_args w in
  collect (fs demo_upper) dir = [dir // "001.png"; dir // "002.MP3"; dir // "003.TXT"] /\
  collect (fs demo_lower) dir = [dir // "001.png"; dir // "002.mp3"; dir // "003.txt"] /\
  option_map (fun r => (audio_count r, tts_count r, media_files r, timeline (state_of (build r))))
             (report_of (run demo_lower)) =
    Some (2%nat, 1%nat,
          [dir // "001.png"; dir // "002.mp3"; dir // "generated-wav" // "003.wav"],
          [AudioHeld (dir // "001.png") (dir // "002.mp3") 5
             ["proj"; "test-videos"; "demo-segments"; "segment-0000.mp4"];
           AudioHeld (dir // "001.png") (dir // "generated-wav" // "003.wav") (16 # 5)
             ["proj"; "test-videos"; "demo-segments"; "segment-0001.mp4"]]) /\
  option_map (fun r => (audio_count r, tts_count r, media_files r, timeline (state_of (build r))))
             (report_of (run demo_upper)) =
    Some (0%nat, 0%nat,
          [dir // "001.png"; dir // "002.MP3"; dir // "003.TXT"],
          [SilentHold (dir // "001.png") 2
             ["proj"; "test-videos"; "demo-segments"; "segment-0000.mp4"]]) /\
  tts_calls (world_of (run demo_lower)) = [(dir // "003.txt", dir // "generated-wav" // "003.wav")] /\
  tts_calls (world_of (run demo_upper)) = [] /\
  abort_of (run (demo_directory [("001.PNG", Binary)])) =
    Some (SysExit 1 (no_screenshot_message dir)).
Proof. repeat split; vm_compute; reflexivity. Qed.

(** * Further properties of the code *)

(** ** The numbering of the manifest *)

Section Numbering.
Variable c : Collab.
Variable frame_duration : Q.
Variable segment_dir : Path.

Local Abbreviation body := (loop_body c frame_duration segment_dir).
Local Abbreviation run := (for_each c frame_duration segment_dir).

Lemma numbered_entries_S (n : nat) :
  numbered_entries c segment_dir (S n) =
  numbered_entries c segment_dir n ++ [manifest_line c (segment_path segment_dir n)].
Proof. unfold numbered_entries. now rewrite seq_S, map_app. Qed.

Lemma numbered_entries_body media i f st :
  cl st = numbered_entries c segment_dir (segment_index st) ->
  cl (state_of (body media i f st)) =
  numbered_entries c segment_dir (segment_index (state_of (body media i f st))).
Proof.
  intros H. destruct (body_cases c frame_duration segment_dir media i f st); simpl; auto;
    now rewrite numbered_entries_S, H.
Qed.

Lemma rendered_sublist_body media i f st :
  rendered_files st `sublist_of` map (segment_path segment_dir) (seq 0 (segment_index st)) ->
  rendered_files (state_of (body media i f st)) `sublist_of`
    map (segment_path segment_dir) (seq 0 (segment_index (state_of (body media i f st)))).
Proof.
  intros H. unfold rendered_files in *.
  destruct (body_cases c frame_duration segment_dir media i f st);
    cbn [state_of write_entry segment_index timeline set_current_image]; auto;
    rewrite seq_S, map_app; cbn [map Nat.add].
  - now apply sublist_inserts_r.
  - rewrite map_app. now apply sublist_app.
  - rewrite map_app. now apply sublist_app.
Qed.

End Numbering.

Lemma segment_paths_NoDup (segment_dir : Path) (n : nat) :
  NoDup (map (segment_path segment_dir) (seq 0 n)).
Proof.
  assert (H : forall l : list nat, NoDup l -> NoDup (map (segment_path segment_dir) l)).
  { induction 1 as [|k l Hk _ IH]; simpl; constructor; [|exact IH].
    rewrite list_elem_of_In, in_map_iff. intros (j & E & Hj).
    apply segment_path_inj in E. subst. apply Hk. now apply list_elem_of_In. }
  apply H. apply NoDup_seq.
Qed.

Lemma manifest_length_bound (c : Collab) (d : Q) (segment_dir : Path) (media : list Path) :
  let st := state_of (build_segments c d segment_dir media) in
  (length (timeline st) <= segment_index st)%nat /\
  (segment_index st <= length media)%nat.
Proof.
  intros st.
  assert (H : forall items s,
            (length (timeline s) <= segment_index s)%nat ->
            let s' := state_of (for_each c d segment_dir media items s) in
            (length (timeline s') <= segment_index s')%nat /\
            (segment_index s' <= segment_index s + length items)%nat).
  { induction items as [|[i f] items IH]; intros s Hs; [simpl; lia|].
    cbn [for_each].
    destruct (body_cases c d segment_dir media i f s);
      cbn [and_then state_of write_entry length]; try (simpl; lia);
      match goal with |- context [for_each _ _ _ _ items ?s1] =>
        destruct (IH s1) as [Hx Hy];
          [simpl; rewrite ?length_app; simpl; lia|simpl in *; lia] end. }
  destruct (H (enumerate_from 0 media) initial_state) as [H1 H2]; [simpl; lia|].
  unfold st, build_segments. simpl in H2.
  assert (Hlen : forall {A} k (l : list A), length (enumerate_from k l) = length l)
    by (intros A k l; revert k; induction l; intros k; simpl; auto).
  rewrite Hlen in H2. auto.
Qed.

(** X1.  Whatever the list and wherever the pass stops, the concat list is
    the list of the entries of segment-0000, segment-0001, ... up to the
    segment index, in this order and without a gap; the rendered files are
    among these, in the same order, and no two segments were rendered to
    the same file. *)
Theorem manifest_is_numbered (c : Collab) (d : Q) (segment_dir : Path) (media : list Path) :
  let st := state_of (build_segments c d segment_dir media) in
  cl st = numbered_entries c segment_dir (segment_index st) /\
  length (cl st) = segment_index st /\
  rendered_files st `sublist_of` map (segment_path segment_dir) (seq 0 (segment_index st)) /\
  NoDup (rendered_files st) /\
  (length (timeline st) <= segment_index st)%nat.
Proof.
  intros st.
  assert (H1 : cl st = numbered_entries c segment_dir (segment_index st)).
  { unfold st, build_segments.
    apply (for_each_invariant c d segment_dir
             (fun s => cl s = numbered_entries c segment_dir (segment_index s)));
      [|reflexivity].
    intros i f s. apply numbered_entries_body. }
  assert (H2 : rendered_files st `sublist_of`
                 map (segment_path segment_dir) (seq 0 (segment_index st))).
  { unfold st, build_segments.
    apply (for_each_invariant c d segment_dir
             (fun s => rendered_files s `sublist_of`
                         map (segment_path segment_dir) (seq 0 (segment_index s))));
      [|apply sublist_nil_l].
    intros i f s. apply rendered_sublist_body. }
  split; [exact H1|]. split; [|split; [exact H2|split]].
  - rewrite H1. unfold numbered_entries. now rewrite length_map, length_seq.
  - eapply sublist_NoDup; [|exact H2]. apply segment_paths_NoDup.
  - apply sublist_length in H2. unfold rendered_files in H2.
    now rewrite !length_map, length_seq in H2.
Qed.

(** ** The image an audio file is held against *)

Section HeldImage.
Variable c : Collab.
Variable frame_duration : Q.
Variable segment_dir : Path.

Local Abbreviation body := (loop_body c frame_duration segment_dir).
Local Abbreviation run := (for_each c frame_duration segment_dir).

(** What the loop body does to [current_image] when it returns. *)
Lemma current_image_body media i f st s :
  body media i f st = Done s ->
  current_image s = if String.eqb (suffix f) ".png" then Some f else current_image st.
Proof.
  unfold loop_body, render, write_entry.
  destruct (String.eqb (suffix f) ".png").
  - destruct (next_file media i) as [nf|];
      [destruct (str_in (suffix nf) audio_suffixes)|];
      try (destruct (ffmpeg_ok c _)); simpl; intros E; inversion E; reflexivity.
  - destruct (str_in (suffix f) audio_suffixes).
    + destruct (get_audio_duration c f); [|intros E; inversion E; reflexivity].
      destruct (current_image st) eqn:Hi; [|discriminate].
      destruct (ffmpeg_ok c _); simpl; intros E; inversion E; simpl; congruence.
    + intros E; inversion E; reflexivity.
Qed.

Lemma current_image_run media items :
  forall k st st',
  run media (enumerate_from k items) st = Done st' ->
  current_image st' =
  match last_image items with Some p => Some p | None => current_image st end.
Proof.
  induction items as [|f items IH]; intros k st st' H.
  - simpl in H. now inversion H.
  - cbn [enumerate_from for_each] in H.
    apply and_then_done in H as (s & Hb & Hr).
    rewrite (IH _ _ _ Hr). cbn [last_image].
    destruct (last_image items); [reflexivity|].
    rewrite (current_image_body _ _ _ _ _ Hb).
    destruct (String.eqb (suffix f) ".png"); reflexivity.
Qed.

(** Segments are only ever added. *)
Lemma timeline_kept media items seg :
  forall st, In seg (timeline st) -> In seg (timeline (state_of (run media items st))).
Proof.
  apply (for_each_invariant c frame_duration segment_dir (fun s => In seg (timeline s))).
  intros i f st H.
  destruct (body_cases c frame_duration segment_dir media i f st); simpl; auto;
    apply in_or_app; now left.
Qed.

End HeldImage.

(** X2.  Let the pass reach an audio file that probes to [d].  If a
    screenshot comes before it, the file is rendered against the last such
    screenshot, however many items lie in between, and once the encoder has
    returned that segment stays in the timeline; if none does, the assertion
    of the loop fails and the run stops there. *)
Theorem audio_is_held_against_last_screenshot (c : Collab) (fd : Q) (segment_dir : Path)
    (pre post : list Path) (a : Path) (d : Q) (st0 : BuildState) :
  let media := pre ++ a :: post in
  let seg_file := segment_path segment_dir (segment_index st0) in
  str_in (suffix a) audio_suffixes = true ->
  get_audio_duration c a = Some d ->
  for_each c fd segment_dir media (enumerate_from 0 pre) initial_state = Done st0 ->
  (forall img, last_image pre = Some img ->
     current_image st0 = Some img /\
     loop_body c fd segment_dir media (length pre) a st0 =
       and_then (render c (AudioHeld img a d seg_file) st0) (write_entry c seg_file) /\
     (ffmpeg_ok c (AudioHeld img a d seg_file) = true ->
      In (AudioHeld img a d seg_file)
         (timeline (state_of (build_segments c fd segment_dir media))))) /\
  (last_image pre = None ->
     build_segments c fd segment_dir media = Aborted (Raised "AssertionError") st0).
Proof.
  intros media seg_file Ha Hd Hpre.
  pose proof (current_image_run c fd segment_dir media pre 0 initial_state st0 Hpre) as Hcur.
  assert (Hsplit : build_segments c fd segment_dir media =
            and_then (loop_body c fd segment_dir media (length pre) a st0)
                     (for_each c fd segment_dir media (enumerate_from (S (length pre)) post))).
  { unfold media. rewrite build_segments_split. fold media. rewrite Hpre. reflexivity. }
  split.
  - intros img Himg. rewrite Himg in Hcur.
    pose proof (body_audio_held c fd segment_dir media (length pre) a d img st0 Ha Hd Hcur)
      as Hbody.
    split; [exact Hcur|]. split; [exact Hbody|].
    intros Hok. rewrite Hsplit, Hbody. unfold render. fold seg_file. rewrite Hok.
    cbn [and_then write_entry]. apply timeline_kept. simpl.
    apply in_or_app. right. now left.
  - intros Hnone. rewrite Hnone in Hcur. simpl in Hcur.
    rewrite Hsplit. unfold loop_body.
    rewrite (audio_is_not_png _ Ha), Ha, Hd, Hcur. reflexivity.
Qed.

(** A screenshot, a file the pass has no branch for, then a clip. *)
Lemma audio_is_held_against_last_screenshot_witness :
  let c := demo_collab [("003.mp3", "1.5")] in
  let media := [["shots"; "001.png"]; ["shots"; "002.PNG"]; ["shots"; "003.mp3"]] in
  In (AudioHeld ["shots"; "001.png"] ["shots"; "003.mp3"] (3 # 2) ["seg"; "segment-0002.mp4"])
     (timeline (state_of (build_segments c 2 ["seg"] media))).
Proof.
  intros c media.
  destruct (audio_is_held_against_last_screenshot c 2 ["seg"]
              [["shots"; "001.png"]; ["shots"; "002.PNG"]] [] ["shots"; "003.mp3"] (3 # 2)
              (state_of (for_each c 2 ["seg"] media
                 (enumerate_from 0 [["shots"; "001.png"]; ["shots"; "002.PNG"]]) initial_state)))
    as [Hsome _]; try reflexivity.
  destruct (Hsome ["shots"; "001.png"] eq_refl) as (_ & _ & Hin).
  apply Hin. reflexivity.
Defined.

(** ** When the pass comes to its end *)

Section Completion.
Variable c : Collab.
Variable frame_duration : Q.
Variable segment_dir : Path.

Local Abbreviation body := (loop_body c frame_duration segment_dir).
Local Abbreviation run := (for_each c frame_duration segment_dir).

Lemma safe_body media i f st :
  current_image st <> None \/ suffix f = ".png" ->
  safe_outcome c (body media i f st).
Proof.
  intros H. unfold loop_body, render, write_entry.
  destruct (String.eqb (suffix f) ".png") eqn:Hp.
  - destruct (next_file media i) as [nf|];
      [destruct (str_in (suffix nf) audio_suffixes)|];
      try (destruct (ffmpeg_ok c _) eqn:Hok); simpl; try discriminate; eauto.
  - destruct H as [H|H]; [|rewrite H in Hp; discriminate].
    destruct (str_in (suffix f) audio_suffixes); [|exact H].
    destruct (get_audio_duration c f); [|exact H].
    destruct (current_image st) eqn:Hi; [|contradiction].
    destruct (ffmpeg_ok c _) eqn:Hok; simpl; [discriminate|eauto].
Qed.

Lemma safe_run media items :
  forall st, current_image st <> None -> safe_outcome c (run media items st).
Proof.
  induction items as [|[i f] items IH]; intros st H; [exact H|].
  cbn [for_each].
  pose proof (safe_body media i f st (or_introl H)) as Hb.
  destruct (body media i f st); simpl in *; auto.
Qed.

End Completion.

Lemma build_safe (c : Collab) (d : Q) (segment_dir : Path) (first : Path) (rest : list Path) :
  suffix first = ".png" ->
  safe_outcome c (build_segments c d segment_dir (first :: rest)).
Proof.
  intros Hp. unfold build_segments. cbn [enumerate_from for_each].
  pose proof (safe_body c d segment_dir (first :: rest) 0 first initial_state (or_intror Hp))
    as Hb.
  destruct (loop_body c d segment_dir (first :: rest) 0 first initial_state); simpl in *.
  - now apply safe_run.
  - exact Hb.
Qed.

(** ** The segments a completed pass has emitted *)

Section Emitted.
Variable c : Collab.
Variable frame_duration : Q.
Variable segment_dir : Path.

(** An audio file that probes has its segment, against the last screenshot
    before it. *)
Lemma audio_gets_segment (p q : list Path) (g : Path) (dg : Q) (st' : BuildState) :
  build_segments c frame_duration segment_dir (p ++ g :: q) = Done st' ->
  str_in (suffix g) audio_suffixes = true ->
  get_audio_duration c g = Some dg ->
  exists img k, last_image p = Some img /\
                In (AudioHeld img g dg (segment_path segment_dir k)) (timeline st').
Proof.
  intros H Ha Hd. rewrite build_segments_split in H.
  apply and_then_done in H as (st0 & Hpre & Hrest).
  cbn [enumerate_from for_each] in Hrest.
  apply and_then_done in Hrest as (s1 & Hb & Hpost).
  pose proof (current_image_run c frame_duration segment_dir _ p 0 initial_state st0 Hpre)
    as Hcur.
  destruct (last_image p) as [img|].
  - exists img, (segment_index st0). split; [reflexivity|].
    rewrite (body_audio_held c frame_duration segment_dir _ _ g dg img st0 Ha Hd Hcur) in Hb.
    unfold render in Hb. destruct (ffmpeg_ok c _); [|discriminate].
    cbn [and_then write_entry] in Hb. injection Hb as <-.
    pose proof (timeline_kept c frame_duration segment_dir (p ++ g :: q)
                  (enumerate_from (S (length p)) q)
                  (AudioHeld img g dg (segment_path segment_dir (segment_index st0)))) as Hk.
    match type of Hpost with
    | for_each _ _ _ _ _ ?s = _ => specialize (Hk s); rewrite Hpost in Hk
    end.
    apply Hk. simpl. apply in_or_app. right. now left.
  - simpl in Hcur. unfold loop_body in Hb.
    rewrite (audio_is_not_png _ Ha), Ha, Hd, Hcur in Hb. discriminate.
Qed.

(** A screenshot that is not followed at once by an audio file has its
    silent hold. *)
Lemma image_gets_segment (p q : list Path) (g : Path) (st' : BuildState) :
  build_segments c frame_duration segment_dir (p ++ g :: q) = Done st' ->
  suffix g = ".png" ->
  match q with nf :: _ => str_in (suffix nf) audio_suffixes = false | [] => True end ->
  exists k, In (SilentHold g frame_duration (segment_path segment_dir k)) (timeline st').
Proof.
  intros H Hp Hn. rewrite build_segments_split in H.
  apply and_then_done in H as (st0 & Hpre & Hrest).
  cbn [enumerate_from for_each] in Hrest.
  apply and_then_done in Hrest as (s1 & Hb & Hpost).
  exists (segment_index st0).
  rewrite (body_image_shown c frame_duration segment_dir _ _ g st0 Hp) in Hb.
  - unfold render in Hb. destruct (ffmpeg_ok c _); [|discriminate].
    cbn [and_then write_entry set_current_image segment_index current_image
         total_duration cl timeline] in Hb. injection Hb as <-.
    pose proof (timeline_kept c frame_duration segment_dir (p ++ g :: q)
                  (enumerate_from (S (length p)) q)
                  (SilentHold g frame_duration (segment_path segment_dir (segment_index st0))))
      as Hk.
    match type of Hpost with
    | for_each _ _ _ _ _ ?s = _ => specialize (Hk s); rewrite Hpost in Hk
    end.
    apply Hk. simpl. apply in_or_app. right. now left.
  - rewrite next_file_split. destruct q; [exact I|exact Hn].
Qed.

(** There are as many segments as items that are owed one. *)
Lemma timeline_length media items :
  forall st st',
  for_each c frame_duration segment_dir media items st = Done st' ->
  length (timeline st') =
  (length (timeline st) + length (List.filter (owed_segment c media) items))%nat.
Proof.
  induction items as [|[i f] items IH]; intros st st' H.
  - simpl in H. injection H as <-. simpl. lia.
  - cbn [for_each] in H. apply and_then_done in H as (s1 & Hb & Hrest).
    rewrite (IH _ _ Hrest). cbn [List.filter]. unfold owed_segment at 2. cbn [fst snd].
    unfold loop_body, render, write_entry, set_current_image in Hb.
    destruct (String.eqb (suffix f) ".png").
    + destruct (next_file media i) as [nf|];
        [destruct (str_in (suffix nf) audio_suffixes)|];
        try (destruct (ffmpeg_ok c _); [|discriminate]);
        simpl in Hb; injection Hb as <-; simpl; rewrite ?length_app; simpl; lia.
    + destruct (str_in (suffix f) audio_suffixes).
      * destruct (get_audio_duration c f) as [dur|].
        -- destruct (current_image st) as [img|]; [|discriminate].
           destruct (ffmpeg_ok c _); [|discriminate].
           simpl in Hb; injection Hb as <-; simpl; rewrite ?length_app; simpl; lia.
        -- injection Hb as <-. simpl. lia.
      * injection Hb as <-. simpl. lia.
Qed.

End Emitted.

(** C3.  An audio item whose probe prints nothing, N/A or something [float]
    rejects has no duration; the loop body then leaves every variable of the
    pass as it was (no segment, no manifest entry, same segment index) and
    does not stop the run; the pass goes on with the items after it; the
    whole pass is the pass over the items whose probe did not fail; every
    audio-held segment of the timeline belongs to an audio file that probed
    to the duration it carries, and none plays the item.  When the pass comes
    to its end, every audio file that probes has its segment, held against
    the last screenshot before it, every screenshot that is not followed at
    once by an audio file has its silent hold, and the timeline has as many
    segments as there are such items; it does come to its end when the list
    starts with a screenshot and the encoder renders every segment. *)
Theorem probe_failure_is_isolated (c : Collab) (d : Q) (segment_dir : Path)
    (pre post : list Path) (f : Path) :
  str_in (suffix f) audio_suffixes = true ->
  probe_fails c f ->
  let media := pre ++ f :: post in
  let pass := build_segments c d segment_dir media in
  get_audio_duration c f = None /\
  (forall st, loop_body c d segment_dir media (length pre) f st = Done st) /\
  pass =
    and_then (for_each c d segment_dir media (enumerate_from 0 pre) initial_state)
             (for_each c d segment_dir media (enumerate_from (S (length pre)) post)) /\
  pass =
    for_each c d segment_dir media
      (List.filter (fun e => negb (probe_skipped c e)) (enumerate_from 0 media))
      initial_state /\
  Forall (probed_segment c) (timeline (state_of pass)) /\
  (forall img d' out, ~ In (AudioHeld img f d' out) (timeline (state_of pass))) /\
  (forall st', pass = Done st' ->
     (forall p g q dg,
        media = p ++ g :: q ->
        str_in (suffix g) audio_suffixes = true ->
        get_audio_duration c g = Some dg ->
        exists img k, last_image p = Some img /\
                      In (AudioHeld img g dg (segment_path segment_dir k)) (timeline st')) /\
     (forall p g q,
        media = p ++ g :: q ->
        suffix g = ".png" ->
        match q with nf :: _ => str_in (suffix nf) audio_suffixes = false | [] => True end ->
        exists k, In (SilentHold g d (segment_path segment_dir k)) (timeline st')) /\
     length (timeline st') =
       length (List.filter (owed_segment c media) (enumerate_from 0 media))) /\
  ((forall seg, ffmpeg_ok c seg = true) ->
   (exists first rest, media = first :: rest /\ suffix first = ".png") ->
   exists st', pass = Done st').
Proof.
  intros Ha Hf media pass.
  pose proof (get_audio_duration_fails c f Hf) as Hg.
  assert (Hb : forall st, loop_body c d segment_dir media (length pre) f st = Done st)
    by (intros st; now apply body_audio_skipped).
  assert (Hall : Forall (probed_segment c) (timeline (state_of pass))).
  { unfold pass, build_segments. apply for_each_invariant.
    - intros i g st. apply probed_segment_body.
    - constructor. }
  split; [exact Hg|]. split; [exact Hb|]. split; [|split; [|split; [exact Hall|split; [|split]]]].
  - unfold pass, media. rewrite build_segments_split. apply and_then_ext. intros st.
    cbn [enumerate_from for_each]. fold media. rewrite Hb. reflexivity.
  - apply run_without_skipped.
  - intros img d' out Hin. rewrite List.Forall_forall in Hall.
    specialize (Hall _ Hin). simpl in Hall. congruence.
  - intros st' Hdone. split; [|split].
    + intros p g q dg Hm Hga Hgd. unfold pass in Hdone. rewrite Hm in Hdone.
      exact (audio_gets_segment c d segment_dir p q g dg st' Hdone Hga Hgd).
    + intros p g q Hm Hp Hn. unfold pass in Hdone. rewrite Hm in Hdone.
      exact (image_gets_segment c d segment_dir p q g st' Hdone Hp Hn).
    + exact (timeline_length c d segment_dir media _ _ _ Hdone).
  - intros Hok (first & rest & Hm & Hp).
    pose proof (build_safe c d segment_dir first rest Hp) as Hsafe.
    unfold pass. rewrite Hm. destruct (build_segments c d segment_dir (first :: rest)) as [st'|e st'].
    + now exists st'.
    + destruct Hsafe as (_ & seg & Hseg). rewrite Hok in Hseg. discriminate.
Qed.

(** Scenario D: the probe of 002.mp3 prints no number.  The pass comes to
    its end with one segment, 004.mp3 held against 003.png. *)
Lemma probe_failure_witness :
  let c := demo_collab [("002.mp3", "not a number"); ("004.mp3", "1.5")] in
  let media := [["shots"; "001.png"]; ["shots"; "002.mp3"]; ["shots"; "003.png"];
                ["shots"; "004.mp3"]] in
  let pass := build_segments c 2 ["seg"] media in
  get_audio_duration c ["shots"; "002.mp3"] = None /\
  loop_body c 2 ["seg"] media 1 ["shots"; "002.mp3"] initial_state = Done initial_state /\
  Forall (probed_segment c) (timeline (state_of pass)) /\
  completes pass = true /\
  (exists img k, last_image [["shots"; "001.png"]; ["shots"; "002.mp3"]; ["shots"; "003.png"]]
                   = Some img /\
                 In (AudioHeld img ["shots"; "004.mp3"] (3 # 2) (segment_path ["seg"] k))
                    (timeline (state_of pass))) /\
  length (timeline (state_of pass)) = 1%nat.
Proof.
  intros c media pass.
  destruct (probe_failure_is_isolated c 2 ["seg"] [["shots"; "001.png"]]
              [["shots"; "003.png"]; ["shots"; "004.mp3"]] ["shots"; "002.mp3"])
    as (Hg & Hb & _ & _ & Hall & _ & Hdone & _).
  - reflexivity.
  - right; right. reflexivity.
  - destruct (Hdone (state_of pass) eq_refl) as (Haudio & _ & Hlen).
    split; [exact Hg|]. split; [exact (Hb initial_state)|]. split; [exact Hall|].
    split; [reflexivity|]. split.
    + apply (Haudio [["shots"; "001.png"]; ["shots"; "002.mp3"]; ["shots"; "003.png"]]
               ["shots"; "004.mp3"] [] (3 # 2)); reflexivity.
    + rewrite Hlen. reflexivity.
Defined.

(** X3.  Over a list that starts with a screenshot the assertion of the
    loop never fails: the pass can only stop because the encoder failed for
    some segment, and with an encoder that renders every segment it comes to
    its end, with an image at hand. *)
Theorem pass_stops_on_encoder_only (c : Collab) (d : Q) (segment_dir : Path)
    (first : Path) (rest : list Path) :
  suffix first = ".png" ->
  (forall e st, build_segments c d segment_dir (first :: rest) = Aborted e st ->
     e = Raised "CalledProcessError" /\ exists seg, ffmpeg_ok c seg = false) /\
  ((forall seg, ffmpeg_ok c seg = true) ->
   exists st, build_segments c d segment_dir (first :: rest) = Done st /\
              current_image st <> None).
Proof.
  intros Hp.
  pose proof (build_safe c d segment_dir first rest Hp) as Hsafe.
  split.
  - intros e st E. rewrite E in Hsafe. exact Hsafe.
  - intros Hok. destruct (build_segments c d segment_dir (first :: rest)) as [st|e st].
    + exists st. split; [reflexivity|exact Hsafe].
    + destruct Hsafe as (_ & seg & Hseg). rewrite Hok in Hseg. discriminate.
Qed.

(** Scenario B. *)
Lemma pass_stops_on_encoder_only_witness :
  exists st,
    build_segments (demo_collab []) 2 ["seg"] [["shots"; "001.png"]; ["shots"; "002.png"]]
      = Done st /\
    current_image st <> None.
Proof.
  destruct (pass_stops_on_encoder_only (demo_collab []) 2 ["seg"] ["shots"; "001.png"]
              [["shots"; "002.png"]] eq_refl) as [_ H].
  apply H. intros seg. reflexivity.
Defined.

(** ** Lists without audio *)

Section NoAudio.
Variable c : Collab.
Variable frame_duration : Q.
Variable segment_dir : Path.
Hypothesis encoder_ok : forall seg, ffmpeg_ok c seg = true.

Local Abbreviation body := (loop_body c frame_duration segment_dir).
Local Abbreviation run := (for_each c frame_duration segment_dir).

Lemma next_file_In media i nf : next_file media i = Some nf -> In nf media.
Proof.
  unfold next_file. destruct (_ <? _)%nat; [|discriminate]. apply nth_error_In.
Qed.

Lemma run_without_audio media :
  Forall (fun f => str_in (suffix f) audio_suffixes = false) media ->
  forall items k st,
  Forall (fun f => str_in (suffix f) audio_suffixes = false) items ->
  segment_index st = k ->
  exists st',
    run media (enumerate_from k items) st = Done st' /\
    segment_index st' = (k + length items)%nat /\
    timeline st' =
      timeline st ++ silent_holds frame_duration segment_dir (enumerate_from k items).
Proof.
  intros Hmedia items. induction items as [|f items IH]; intros k st Hitems Hk.
  - exists st. simpl. rewrite app_nil_r, Nat.add_0_r. auto.
  - inversion Hitems as [|? ? Hf Hrest]; subst.
    cbn [enumerate_from for_each silent_holds].
    destruct (String.eqb (suffix f) ".png") eqn:Hp.
    + apply String.eqb_eq in Hp.
      rewrite (body_image_shown c frame_duration segment_dir media _ f st Hp).
      * unfold render. rewrite encoder_ok. cbn [and_then write_entry].
        match goal with |- context [run media _ ?s] =>
          destruct (IH (S (segment_index st)) s Hrest eq_refl) as (st' & Hr & Hn & Ht) end.
        exists st'. rewrite Hr. split; [reflexivity|]. split; [simpl in *; lia|].
        rewrite Ht. simpl. now rewrite <- app_assoc.
      * destruct (next_file media (segment_index st)) as [nf|] eqn:Hn; [|exact I].
        apply next_file_In in Hn. rewrite List.Forall_forall in Hmedia. now apply Hmedia.
    + rewrite (body_other c frame_duration segment_dir media _ f st Hp Hf).
      cbn [and_then write_entry].
      match goal with |- context [run media _ ?s] =>
        destruct (IH (S (segment_index st)) s Hrest eq_refl) as (st' & Hr & Hn & Ht) end.
      exists st'. rewrite Hr. split; [reflexivity|]. split; [simpl in *; lia|exact Ht].
Qed.

End NoAudio.

Lemma silent_holds_measure (d : Q) (segment_dir : Path) (k : nat) (l : list Path) :
  silent_count (silent_holds d segment_dir (enumerate_from k l)) = count_suffix [".png"] l /\
  audio_total (silent_holds d segment_dir (enumerate_from k l)) = 0%Q.
Proof.
  revert k. induction l as [|f l IH]; intros k; [split; reflexivity|].
  destruct (IH (S k)) as [Hn Ha].
  cbn [enumerate_from silent_holds]. unfold count_suffix, str_in in *. cbn [List.filter existsb].
  rewrite orb_false_r.
  destruct (String.eqb (suffix f) ".png"); [|split; assumption].
  split; [|exact Ha]. unfold silent_count in *. cbn [List.filter is_silent length].
  now rewrite Hn.
Qed.

(** X4.  Over a list without a file of suffix .mp3 or .wav, and with an
    encoder that renders every segment, the pass comes to its end; every
    item takes one number, every screenshot gets its own silent hold under
    the number of its position, in order, and the total duration is the
    fixed duration times the number of screenshots. *)
Theorem screenshots_only (c : Collab) (d : Q) (segment_dir : Path) (media : list Path) :
  (forall seg, ffmpeg_ok c seg = true) ->
  Forall (fun f => str_in (suffix f) audio_suffixes = false) media ->
  exists st,
    build_segments c d segment_dir media = Done st /\
    timeline st = silent_holds d segment_dir (enumerate_from 0 media) /\
    segment_index st = length media /\
    (total_duration st == inject_Z (Z.of_nat (count_suffix [".png"] media)) * d)%Q.
Proof.
  intros Hok Hmedia.
  destruct (run_without_audio c d segment_dir Hok media Hmedia media 0 initial_state
              Hmedia eq_refl) as (st & Hr & Hn & Ht).
  exists st. split; [exact Hr|]. split; [exact Ht|]. split; [exact Hn|].
  pose proof (duration_accounted_build c segment_dir d media) as [Hd _].
  unfold build_segments in Hd. rewrite Hr in Hd. simpl in Hd, Ht. rewrite Hd, Ht.
  destruct (silent_holds_measure d segment_dir 0 media) as [-> ->]. ring.
Qed.

(** Scenario B, with a file in capitals in between. *)
Lemma screenshots_only_witness :
  exists st,
    build_segments (demo_collab []) 2 ["seg"]
      [["shots"; "001.png"]; ["shots"; "002.TXT"]; ["shots"; "003.png"]] = Done st /\
    timeline st = [SilentHold ["shots"; "001.png"] 2 ["seg"; "segment-0000.mp4"];
                   SilentHold ["shots"; "003.png"] 2 ["seg"; "segment-0002.mp4"]] /\
    (total_duration st == 4)%Q.
Proof.
  destruct (screenshots_only (demo_collab []) 2 ["seg"]
              [["shots"; "001.png"]; ["shots"; "002.TXT"]; ["shots"; "003.png"]])
    as (st & Hr & Ht & _ & Hd).
  - intros seg. reflexivity.
  - repeat constructor.
  - exists st. split; [exact Hr|]. split; [exact Ht|]. rewrite Hd. reflexivity.
Defined.

(** A screenshot and a clip: two suffixes the pass tests for. *)
Lemma manifest_matches_timeline_witness :
  let c := demo_collab [("002.mp3", "5.0")] in
  let st := state_of (build_segments c 2 ["seg"] [["shots"; "001.png"]; ["shots"; "002.mp3"]]) in
  cl st = map (entry_of c) (timeline st).
Proof.
  intros c st.
  apply (manifest_matches_timeline c 2 ["seg"] [["shots"; "001.png"]; ["shots"; "002.mp3"]]).
  repeat constructor.
Defined.

(** ** The catalogue *)

Lemma string_compare_refl (s : string) : String.compare s s = Eq.
Proof.
  pose proof (String.compare_antisym s s) as H.
  destruct (String.compare s s); simpl in H; congruence.
Qed.

Lemma path_compare_eq (p q : Path) : path_compare p q = Eq -> p = q.
Proof.
  revert q. induction p as [|x p IH]; intros [|y q]; simpl; try discriminate; auto.
  destruct (String.compare x y) eqn:E; try discriminate.
  apply String.compare_eq_iff in E. intros H. f_equal; auto.
Qed.

Lemma path_compare_antisym (p q : Path) :
  path_compare q p = CompOpp (path_compare p q).
Proof.
  revert q. induction p as [|x p IH]; intros [|y q]; simpl; auto.
  rewrite (String.compare_antisym y x).
  destruct (String.compare x y); simpl; auto.
Qed.

Lemma path_leb_total (p q : Path) : path_leb p q = false -> path_leb q p = true.
Proof.
  unfold path_leb. rewrite (path_compare_antisym p q).
  destruct (path_compare p q); simpl; congruence.
Qed.

Lemma path_compare_siblings (d : Path) (a b : string) :
  path_compare (d // a) (d // b) = String.compare a b.
Proof.
  unfold joinpath. induction d as [|x d IH]; simpl.
  - destruct (String.compare a b); reflexivity.
  - now rewrite string_compare_refl.
Qed.

Lemma insert_sorted_perm (p : Path) (l : list Path) : Permutation (insert_sorted p l) (p :: l).
Proof.
  induction l as [|q l IH]; simpl; [reflexivity|].
  destruct (path_leb p q); [reflexivity|].
  rewrite IH. apply perm_swap.
Qed.

Lemma sorted_perm (l : list Path) : Permutation (sorted l) l.
Proof.
  induction l as [|p l IH]; simpl; [reflexivity|].
  unfold sorted in IH. rewrite insert_sorted_perm. now constructor.
Qed.

Lemma insert_sorted_Sorted (p : Path) (l : list Path) :
  Sorted (fun a b => path_leb a b = true) l ->
  Sorted (fun a b => path_leb a b = true) (insert_sorted p l).
Proof.
  induction 1 as [|q l Hs IH Hhd]; simpl; [repeat constructor|].
  destruct (path_leb p q) eqn:E.
  - constructor; [now constructor|now constructor].
  - constructor; [exact IH|].
    apply path_leb_total in E.
    destruct l as [|r l]; simpl; [now constructor|].
    destruct (path_leb p r); constructor; [exact E|].
    now inversion Hhd.
Qed.

Lemma sorted_Sorted (l : list Path) : Sorted (fun a b => path_leb a b = true) (sorted l).
Proof.
  induction l as [|p l IH]; simpl; [constructor|]. now apply insert_sorted_Sorted.
Qed.

Lemma iterdir_In (m : gmap Path Node) (dir p : Path) :
  In p (iterdir m dir) <-> is_Some (m !! p) /\ p <> [] /\ parent p = dir.
Proof.
  unfold iterdir. rewrite filter_In, bool_decide_eq_true, in_map_iff. split.
  - intros (((q & n) & <- & Hin) & H). split; [|exact H].
    apply list_elem_of_In, elem_of_map_to_list in Hin. simpl. eauto.
  - intros ((n & Hn) & H). split; [|exact H].
    exists (p, n). split; [reflexivity|]. now apply list_elem_of_In, elem_of_map_to_list.
Qed.

Lemma iterdir_NoDup (m : gmap Path Node) (dir : Path) : List.NoDup (iterdir m dir).
Proof.
  unfold iterdir. apply List.NoDup_filter. apply NoDup_ListNoDup.
  apply NoDup_fst_map_to_list.
Qed.

Lemma collect_In (m : gmap Path Node) (dir f : Path) :
  In f (collect m dir) <-> catalogued m dir f.
Proof.
  unfold collect, catalogued.
  transitivity (In f (List.filter
            (fun f => is_file (m !! f)
                      && str_in (Py.lower (suffix f)) valid_extensions
                      && negb (str_in "generated-wav" f))
            (iterdir m dir))).
  { split; apply Permutation_in; [|symmetry]; apply sorted_perm. }
  rewrite filter_In, iterdir_In, !andb_true_iff, negb_true_iff.
  split.
  - intros ((_ & Hne & Hp) & (Hf & Hs) & Hg). auto.
  - intros (Hne & Hp & Hf & Hs & Hg). repeat split; auto.
    destruct (m !! f); [eauto|discriminate].
Qed.

(** X6.  The catalogue of a directory holds exactly the paths of the
    directory that are files, whose suffix is .png, .mp3, .wav or .txt up to
    letter case, and that have no component generated-wav; each of them is
    listed once, and the list is in strictly ascending order of file
    names. *)
Theorem catalogue_is_sorted_selection (m : gmap Path Node) (dir : Path) :
  (forall f, In f (collect m dir) <-> catalogued m dir f) /\
  List.NoDup (collect m dir) /\
  Sorted name_lt (collect m dir).
Proof.
  split; [apply collect_In|].
  assert (Hnd : List.NoDup (collect m dir)).
  { unfold collect. eapply Permutation_NoDup; [symmetry; apply sorted_perm|].
    apply List.NoDup_filter, iterdir_NoDup. }
  split; [exact Hnd|].
  assert (Hdir : Forall (fun f => f <> [] /\ parent f = dir) (collect m dir)).
  { apply List.Forall_forall. intros f Hf. apply collect_In in Hf as (H1 & H2 & _). auto. }
  assert (Hs : Sorted (fun a b => path_leb a b = true) (collect m dir))
    by apply sorted_Sorted.
  induction Hs as [|p l Hs IH Hhd]; [constructor|].
  inversion Hnd as [|? ? Hnotin Hnd']; subst.
  inversion Hdir as [|? ? [Hpne Hpd] Hdir']; subst.
  constructor; [now apply IH|].
  destruct l as [|q l]; [constructor|]. constructor.
  inversion Hhd as [|? ? Hle]; subst.
  inversion Hdir' as [|? ? [Hqne Hqd] _]; subst.
  unfold name_lt, String.ltb, path_leb in *.
  rewrite (app_removelast_last "" Hpne), (app_removelast_last "" Hqne) in Hle.
  fold (parent p) in Hle. fold (parent q) in Hle. rewrite Hqd in Hle.
  fold (name p) in Hle. fold (name q) in Hle.
  change (parent p ++ [name p]) with (parent p // name p) in Hle.
  change (parent p ++ [name q]) with (parent p // name q) in Hle.
  rewrite path_compare_siblings in Hle.
  destruct (String.compare (name p) (name q)) eqn:E; try reflexivity; try discriminate.
  exfalso. apply String.compare_eq_iff in E. apply Hnotin. left.
  rewrite (app_removelast_last "" Hpne), (app_removelast_last "" Hqne).
  fold (parent p) (parent q) (name p) (name q). now rewrite Hqd, E.
Qed.

(** ** Cache paths *)

Lemma take_drop (i : nat) (s : string) : Py.take i s +:+ Py.drop i s = s.
Proof.
  revert s. induction i as [|i IH]; intros s; [reflexivity|].
  destruct s as [|ch s]; [reflexivity|].
  change (String ch (Py.take i s +:+ Py.drop i s) = String ch s). now rewrite IH.
Qed.

Lemma take_length (i : nat) (s : string) :
  (i <= String.length s)%nat -> String.length (Py.take i s) = i.
Proof.
  revert s. induction i as [|i IH]; intros s H; [reflexivity|].
  destruct s as [|ch s]; simpl in *; [lia|]. rewrite IH; lia.
Qed.

(** A path with a suffix: the name is the stem followed by the suffix, and
    the stem is not empty. *)
Lemma name_stem_suffix (f : Path) :
  suffix f <> "" ->
  name f = stem f +:+ suffix f /\ (0 < String.length (stem f))%nat.
Proof.
  unfold suffix, stem. cbv zeta. destruct (Py.rfind_dot (name f)) as [i|]; [|congruence].
  destruct ((0 <? i)%nat && (i <? String.length (name f) - 1)%nat) eqn:E; [|congruence].
  intros _. apply andb_true_iff in E as [H0 H1].
  apply Nat.ltb_lt in H0. apply Nat.ltb_lt in H1.
  split; [now rewrite take_drop|]. rewrite take_length; lia.
Qed.

Lemma suffix_stem_wav (d f : Path) :
  (0 < String.length (stem f))%nat -> suffix (cache_path d f) = ".wav".
Proof.
  intros H. unfold cache_path. rewrite suffix_joinpath. unfold suffix. cbn [name List.last].
  rewrite rfind_dot_wav, string_length_append. simpl String.length.
  destruct (Nat.ltb_spec 0 (String.length (stem f))); [|lia].
  destruct (Nat.ltb_spec (String.length (stem f)) (String.length (stem f) + 4 - 1)); [|lia].
  apply drop_append.
Qed.

(** X7.  A narration text is resolved to an audio file: the cache path of
    a file of suffix .txt has the suffix .wav, so that the pass probes and
    holds it as audio, and its name is the name of the text with .txt
    replaced by .wav. *)
Theorem narration_resolves_to_audio (ds : Dirs) (f : Path) :
  suffix f = ".txt" ->
  str_in (suffix (resolved ds f)) audio_suffixes = true /\
  name f = stem f +:+ ".txt" /\
  name (resolved ds f) = stem f +:+ ".wav" /\
  parent (resolved ds f) = wav_cache_dir_of ds f.
Proof.
  intros Htxt.
  destruct (name_stem_suffix f) as [Hname Hstem]; [rewrite Htxt; discriminate|].
  rewrite Htxt in Hname. unfold resolved. rewrite Htxt. cbn [String.eqb Ascii.eqb Bool.eqb].
  change (("." =? ".")%char) with true. cbv iota.
  rewrite (suffix_stem_wav _ f Hstem). unfold cache_path.
  rewrite name_joinpath, parent_joinpath. auto.
Qed.

Lemma narration_resolves_to_audio_witness :
  str_in (suffix (resolved demo_dirs demo_txt)) audio_suffixes = true /\
  name (resolved demo_dirs demo_txt) = "002.wav".
Proof.
  destruct (narration_resolves_to_audio demo_dirs demo_txt eq_refl) as (H1 & _ & H2 & _).
  split; [exact H1|exact H2].
Defined.

Lemma string_append_inv_head (s t1 t2 : string) : s +:+ t1 = s +:+ t2 -> t1 = t2.
Proof. induction s as [|ch s IH]; simpl; [auto|]. intros H. injection H as H. auto. Qed.

Lemma path_of_parent_name (f : Path) : f <> [] -> f = parent f // name f.
Proof. intros H. unfold parent, name, joinpath. now apply app_removelast_last. Qed.

Lemma joinpath_inj (d1 d2 : Path) (a b : string) : d1 // a = d2 // b -> d1 = d2 /\ a = b.
Proof.
  unfold joinpath. intros H. apply app_inj_tail in H. exact H.
Qed.

(** X8.  Cache entries do not collide.  Two narration texts with the same
    cache path have the same name and the same cache directory; hence two
    different texts of one directory have different cache paths, and, the
    intro directory being another one than the screenshot directory, a text
    of the intro directory and a text elsewhere have different cache paths
    even under the same name. *)
Theorem cache_paths_do_not_collide (ds : Dirs) (f g : Path) :
  suffix f = ".txt" -> suffix g = ".txt" ->
  (resolved ds f = resolved ds g ->
     name f = name g /\ wav_cache_dir_of ds f = wav_cache_dir_of ds g) /\
  (f <> [] -> g <> [] -> parent f = parent g -> f <> g ->
     resolved ds f <> resolved ds g) /\
  (use_intro ds = true -> intro_dir ds <> screenshot_dir ds ->
     parent f = intro_dir ds -> parent g <> intro_dir ds ->
     resolved ds f <> resolved ds g).
Proof.
  intros Hf Hg.
  assert (Hsame : resolved ds f = resolved ds g ->
            name f = name g /\ wav_cache_dir_of ds f = wav_cache_dir_of ds g).
  { unfold resolved. rewrite Hf, Hg. cbn. unfold cache_path. intros H.
    apply joinpath_inj in H as [Hd Hn]. apply string_append_inv_tail in Hn.
    destruct (name_stem_suffix f) as [Nf _]; [rewrite Hf; discriminate|].
    destruct (name_stem_suffix g) as [Ng _]; [rewrite Hg; discriminate|].
    split; [|exact Hd]. now rewrite Nf, Ng, Hf, Hg, Hn. }
  split; [exact Hsame|]. split.
  - intros Hfne Hgne Hp Hne E. apply Hne. destruct (Hsame E) as [Hn _].
    rewrite (path_of_parent_name f Hfne), (path_of_parent_name g Hgne). now rewrite Hp, Hn.
  - intros Hu Hdirs Hpf Hpg E. destruct (Hsame E) as [_ Hd].
    unfold wav_cache_dir_of in Hd. rewrite Hu in Hd. cbn [andb] in Hd.
    rewrite (bool_decide_eq_true_2 _ Hpf), (bool_decide_eq_false_2 _ Hpg) in Hd.
    unfold intro_generated_wav_dir, generated_wav_dir in Hd.
    apply joinpath_inj in Hd as [Hd _]. contradiction.
Qed.

Lemma cache_paths_do_not_collide_witness :
  let ds := {| screenshot_dir := ["screenshots"; "demo"];
               intro_dir := ["screenshots"; "intro"];
               use_intro := true |} in
  resolved ds ["screenshots"; "intro"; "001.txt"] <>
  resolved ds ["screenshots"; "demo"; "001.txt"].
Proof.
  intros ds.
  destruct (cache_paths_do_not_collide ds ["screenshots"; "intro"; "001.txt"]
              ["screenshots"; "demo"; "001.txt"] eq_refl eq_refl) as (_ & _ & H).
  apply H; try reflexivity; discriminate.
Defined.

(** ** What the narration phase touches *)

Lemma file_at_make_dirs (t : Z) (ps : list Path) (m : gmap Path Node) (q : Path) :
  file_at (foldl (make_dir t) m ps) q = file_at m q.
Proof.
  unfold file_at. destruct (make_dirs_lookup t ps m q) as [->|[-> ->]]; reflexivity.
Qed.

Lemma mkdir_parents_file_at (d : Path) (w w' : World) (q : Path) :
  mkdir_parents d w = Ok tt w' -> file_at (fs w') q = file_at (fs w) q.
Proof.
  intros H. apply mkdir_parents_ok in H as (-> & _). simpl. apply file_at_make_dirs.
Qed.

(** The footprint of [run_kokoro_tts], however it ends. *)
Lemma run_kokoro_tts_frame (env : TtsEnv) (f wav : Path) (w : World) :
  let r := run_kokoro_tts env f wav w in
  (forall q, q <> wav -> fs (world_of r) !! q = fs w !! q) /\
  (succeeded r = false -> fs (world_of r) = fs w) /\
  (forall code, kokoro_pipeline w = Some code -> kokoro_pipeline (world_of r) = Some code) /\
  (clock w <= clock (world_of r))%Z.
Proof.
  tts_unfold.
  destruct (numpy_soundfile_installed env); [|simpl; repeat split; auto; lia].
  assert (Hcore : forall w1 : World,
    fs w1 = fs w -> clock w1 = clock w ->
    (forall code, kokoro_pipeline w = Some code -> kokoro_pipeline w1 = Some code) ->
    let r := match
      match fs w1 !! f with
      | Some (File _ (Text content)) => Ok content w1
      | Some (File _ _) => Fail (Raised "UnicodeDecodeError") w1
      | _ => Fail (Raised "OSError") w1
      end
    with
    | Ok raw w2 =>
        match Py.strip raw with
        | [] => fun w3 => Fail (SysExit 1 (empty_narration_message f)) w3
        | _ :: _ => fun w3 =>
            match synthesize env (Py.strip raw) with
            | [] => fun w4 => Fail (SysExit 1 (no_audio_message f)) w4
            | _ :: _ => fun w4 =>
                if is_dir (fs w4 !! parent wav) && negb (is_dir (fs w4 !! wav))
                then Ok tt (set_fs (<[wav := File (clock w4)
                               (Wav SAMPLE_RATE (concat (synthesize env (Py.strip raw))))]>
                               (fs w4)) w4)
                else Fail (Raised "LibsndfileError") w4
            end (set_clock (clock w3 + Z.of_nat (elapsed env (Py.strip raw)))
                           (log_engine_call (Py.strip raw) w3))
        end w2
    | Fail e w2 => Fail e w2
    end in
    (forall q, q <> wav -> fs (world_of r) !! q = fs w !! q) /\
    (succeeded r = false -> fs (world_of r) = fs w) /\
    (forall code, kokoro_pipeline w = Some code -> kokoro_pipeline (world_of r) = Some code) /\
    (clock w <= clock (world_of r))%Z).
  { intros w1 Hfs Hclock Hpipe.
    destruct (fs w1 !! f) as [[t|t [raw| |]]|]; simpl;
      try (rewrite Hfs, Hclock; repeat split; auto; lia).
    destruct (Py.strip raw) as [|ch text];
      [simpl; rewrite Hfs, Hclock; repeat split; auto; lia|].
    destruct (synthesize env (ch :: text)) as [|a chunks];
      [simpl; rewrite Hfs, Hclock; repeat split; auto; lia|].
    simpl. destruct (_ && _); simpl; rewrite Hfs, Hclock.
    - repeat split; auto; try lia; try discriminate.
      intros q Hq. now rewrite lookup_insert_ne.
    - repeat split; auto; lia. }
  destruct (kokoro_pipeline w) as [code|] eqn:Hp.
  - apply Hcore; auto; intros code' E; simpl; congruence.
  - destruct (kokoro_installed env); [|simpl; repeat split; auto; try lia; discriminate].
    apply Hcore; auto; discriminate.
Qed.

(** X9.  [run_kokoro_tts] leaves no half-written artifact: when it fails,
    whatever the reason, the files are what they were; when it returns, no
    file but the one at the output path has changed.  A pipeline that was
    built before the call is the pipeline after the call. *)
Theorem synthesis_writes_only_its_output (env : TtsEnv) (f wav : Path) (w : World) :
  let r := run_kokoro_tts env f wav w in
  (succeeded r = false -> fs (world_of r) = fs w) /\
  (forall q, q <> wav -> file_at (fs (world_of r)) q = file_at (fs w) q) /\
  (forall code, kokoro_pipeline w = Some code -> kokoro_pipeline (world_of r) = Some code).
Proof.
  intros r. destruct (run_kokoro_tts_frame env f wav w) as (H1 & H2 & H3 & _).
  split; [exact H2|]. split; [|exact H3].
  intros q Hq. unfold file_at. fold r in H1. now rewrite H1.
Qed.

(** An empty narration: the call fails and the files stay. *)
Lemma synthesis_writes_only_its_output_witness :
  fs (world_of (run_kokoro_tts demo_env demo_txt demo_wav (demo_world "   "))) =
  fs (demo_world "   ").
Proof.
  destruct (synthesis_writes_only_its_output demo_env demo_txt demo_wav (demo_world "   "))
    as (H & _).
  apply H. reflexivity.
Defined.

Lemma generated_wav_in_cache_path (ds : Dirs) (f : Path) :
  str_in "generated-wav" (cache_path (wav_cache_dir_of ds f) f) = true.
Proof.
  unfold str_in, cache_path, joinpath. apply existsb_exists. exists "generated-wav".
  split; [|reflexivity]. apply in_or_app. left.
  unfold wav_cache_dir_of, intro_generated_wav_dir, generated_wav_dir, joinpath.
  destruct (_ && _); apply in_or_app; right; now left.
Qed.

(** The footprint of the resolution of one text, however it ends. *)
Lemma resolve_narration_frame (env : TtsEnv) (d f : Path) (w : World) :
  let w' := world_of (resolve_narration env d f w) in
  ((tts_calls w' = tts_calls w /\ kokoro_pipeline w' = kokoro_pipeline w) \/
   tts_calls w' = tts_calls w ++ [(f, cache_path d f)]) /\
  (forall code, kokoro_pipeline w = Some code -> kokoro_pipeline w' = Some code) /\
  (forall q, q <> cache_path d f -> file_at (fs w') q = file_at (fs w) q).
Proof.
  unfold resolve_narration, bind.
  destruct (mkdir_parents d w) as [[] wa|e wa] eqn:Hmk.
  2:{ unfold mkdir_parents in Hmk. destruct (existsb _ _); [|discriminate].
      injection Hmk as <- <-. simpl. split; [left|]; auto. }
  apply mkdir_parents_ok in Hmk as (-> & _ & _).
  set (wa := set_fs (foldl (make_dir (clock w)) (fs w) (prefixes d)) w).
  assert (Hkeep : forall q, file_at (fs wa) q = file_at (fs w) q)
    by (intros q; simpl; apply file_at_make_dirs).
  destruct (cache_is_fresh (cache_path d f) f wa) as [b wb|e wb] eqn:Hfr.
  2:{ unfold cache_is_fresh in Hfr. destruct (fs wa !! cache_path d f); [|discriminate].
      destruct (fs wa !! f); [discriminate|]. injection Hfr as <- <-.
      simpl. split; [left|]; auto. }
  apply cache_is_fresh_world in Hfr as (-> & _).
  destruct b; [simpl; split; [left|]; auto|].
  pose proof (run_kokoro_tts_logged env f (cache_path d f) wa) as Hlog.
  destruct (run_kokoro_tts_frame env f (cache_path d f) wa) as (Hfs & _ & Hpipe & _).
  destruct (run_kokoro_tts env f (cache_path d f) wa) as [[] wc|e wc]; simpl in *;
    (split; [right; exact Hlog|]; split; [exact Hpipe|];
     intros q Hne; rewrite <- Hkeep; unfold file_at; now rewrite Hfs).
Qed.

(** The footprint of the conversion loop, however it ends. *)
Lemma convert_files_frame (env : TtsEnv) (ds : Dirs) (media : list Path) :
  forall conv k w,
  let w' := world_of (convert_files env ds media conv k w) in
  (exists calls,
     tts_calls w' = tts_calls w ++ calls /\
     Forall (fun call => In (fst call) media /\ suffix (fst call) = ".txt" /\
                         snd call = resolved ds (fst call)) calls /\
     (length calls <= count_txt media)%nat /\
     (calls = [] -> kokoro_pipeline w' = kokoro_pipeline w)) /\
  (forall code, kokoro_pipeline w = Some code -> kokoro_pipeline w' = Some code) /\
  (forall q, str_in "generated-wav" q = false -> file_at (fs w') q = file_at (fs w) q).
Proof.
  induction media as [|f media IH]; intros conv k w.
  - simpl. split; [exists []; rewrite app_nil_r; repeat split; auto|]. auto.
  - cbn [convert_files]. rewrite count_txt_cons.
    destruct (String.eqb (suffix f) ".txt") eqn:Htxt.
    + apply String.eqb_eq in Htxt. unfold bind.
      destruct (resolve_narration_frame env (wav_cache_dir_of ds f) f w)
        as (Hcalls & Hpipe & Hfs).
      assert (Hres : cache_path (wav_cache_dir_of ds f) f = resolved ds f)
        by (unfold resolved; now rewrite Htxt).
      assert (Hout : forall q, str_in "generated-wav" q = false ->
                file_at (fs (world_of (resolve_narration env (wav_cache_dir_of ds f) f w))) q
                = file_at (fs w) q).
      { intros q Hg. apply Hfs. intros ->.
        rewrite generated_wav_in_cache_path in Hg. discriminate. }
      destruct (resolve_narration env (wav_cache_dir_of ds f) f w) as [p wa|e wa];
        cbn [world_of] in *.
      * specialize (IH (conv ++ [p]) (S k) wa). cbv zeta in IH.
        destruct IH as ((calls & Hc & Hall & Hlen & Hlazy) & Hpipe' & Hfs').
        split; [|split; [auto|]].
        -- destruct Hcalls as [[Hsame Hp]|Hone].
           ++ exists calls. rewrite Hc, Hsame. split; [reflexivity|]. split.
              ** eapply List.Forall_impl; [|exact Hall]. intros call (H1 & H2 & H3).
                 split; [now right|now split].
              ** split; [lia|]. intros E. rewrite (Hlazy E). exact Hp.
           ++ exists ((f, resolved ds f) :: calls). rewrite Hc, Hone, Hres, <- app_assoc.
              split; [reflexivity|]. split.
              ** constructor; [simpl; auto|].
                 eapply List.Forall_impl; [|exact Hall]. intros call (H1 & H2 & H3).
                 split; [now right|now split].
              ** split; [simpl; lia|discriminate].
        -- intros q Hg. rewrite (Hfs' q Hg). now apply Hout.
      * split; [|split; [exact Hpipe|exact Hout]].
        destruct Hcalls as [[Hsame Hp]|Hone].
        -- exists []. rewrite app_nil_r. repeat split; auto. simpl. lia.
        -- exists [(f, resolved ds f)]. rewrite Hone, Hres.
           split; [reflexivity|]. split; [repeat constructor; simpl; auto|].
           split; [simpl; lia|discriminate].
    + specialize (IH (conv ++ [f]) k w). cbv zeta in IH.
      destruct IH as ((calls & Hc & Hall & Hlen & Hlazy) & Hpipe' & Hfs').
      split; [|split; assumption].
      exists calls. split; [exact Hc|]. split; [|split; [lia|exact Hlazy]].
      eapply List.Forall_impl; [|exact Hall]. intros call (H1 & H2 & H3).
      split; [now right|now split].
Qed.

(** X10.  However the conversion loop ends, the calls of [run_kokoro_tts]
    it has made are calls for narration texts of the media list, each with
    the cache path of its text as output, and there are no more of them than
    there are narration texts. *)
Theorem synthesis_calls_are_for_narration_texts (env : TtsEnv) (ds : Dirs)
    (media conv : list Path) (k : nat) (w : World) :
  let w' := world_of (convert_files env ds media conv k w) in
  exists calls,
    tts_calls w' = tts_calls w ++ calls /\
    Forall (fun call => In (fst call) media /\ suffix (fst call) = ".txt" /\
                        snd call = resolved ds (fst call)) calls /\
    (length calls <= count_txt media)%nat.
Proof.
  intros w'.
  destruct (convert_files_frame env ds media conv k w) as ((calls & H1 & H2 & H3 & _) & _).
  exists calls. auto.
Qed.

(** X11.  The Kokoro pipeline is built lazily and once: a conversion loop
    that has made no call of [run_kokoro_tts] leaves [_kokoro_pipeline] as it
    was, in particular unset, and a pipeline that exists at the start is the
    pipeline at the end, however the loop ends and whether or not the kokoro
    package can still be imported. *)
Theorem pipeline_is_lazy_and_kept (env : TtsEnv) (ds : Dirs)
    (media conv : list Path) (k : nat) (w : World) :
  let w' := world_of (convert_files env ds media conv k w) in
  (tts_calls w' = tts_calls w -> kokoro_pipeline w' = kokoro_pipeline w) /\
  (forall code, kokoro_pipeline w = Some code -> kokoro_pipeline w' = Some code).
Proof.
  intros w'.
  destruct (convert_files_frame env ds media conv k w)
    as ((calls & H1 & _ & _ & Hlazy) & Hkept & _).
  split; [|exact Hkept].
  intros Hsame. apply Hlazy. fold w' in H1. rewrite H1 in Hsame.
  destruct calls as [|call calls]; [reflexivity|].
  apply (f_equal (@length _)) in Hsame. rewrite length_app in Hsame. simpl in Hsame. lia.
Qed.

(** A list without narration: no call, and no pipeline. *)
Lemma pipeline_is_lazy_and_kept_witness :
  kokoro_pipeline (world_of (convert_files demo_env demo_dirs [demo_png] [] 0
                               (demo_world "Hello."))) =
  kokoro_pipeline (demo_world "Hello.").
Proof.
  destruct (pipeline_is_lazy_and_kept demo_env demo_dirs [demo_png] [] 0 (demo_world "Hello."))
    as [H _].
  apply H. reflexivity.
Defined.

(** X12.  The narration phase spares the sources: however the conversion
    loop ends, at every path that has no component generated-wav there is
    the file there was before, with its time stamp and its content, or no
    file as before. *)
Theorem narration_phase_spares_sources (env : TtsEnv) (ds : Dirs)
    (media conv : list Path) (k : nat) (w : World) (q : Path) :
  str_in "generated-wav" q = false ->
  file_at (fs (world_of (convert_files env ds media conv k w))) q = file_at (fs w) q.
Proof.
  destruct (convert_files_frame env ds media conv k w) as (_ & _ & H). apply H.
Qed.

(** The narration of the demo is synthesised; the text itself stays. *)
Lemma narration_phase_spares_sources_witness :
  let w := demo_world "Hello." in
  let w' := world_of (convert_files demo_env demo_dirs [demo_png; demo_txt] [] 0 w) in
  file_at (fs w') demo_txt = Some (30%Z, Text (Py.of_string "Hello.")) /\
  is_file (fs w' !! demo_wav) = true.
Proof.
  intros w w'. split; [|reflexivity].
  unfold w'.
  rewrite (narration_phase_spares_sources demo_env demo_dirs [demo_png; demo_txt] [] 0 w
             demo_txt); reflexivity.
Defined.

Lemma count_txt_suffix (media : list Path) : count_txt media = count_suffix [".txt"] media.
Proof.
  unfold count_txt, count_suffix, str_in. f_equal. apply List.filter_ext.
  intros f. simpl. now rewrite orb_false_r.
Qed.

Lemma convert_files_shape (env : TtsEnv) (ds : Dirs) (media : list Path) :
  forall conv k w files k' w',
  convert_files env ds media conv k w = Ok (files, k') w' ->
  files = conv ++ map (resolved ds) media /\ k' = (k + count_txt media)%nat.
Proof.
  induction media as [|f media IH]; intros conv k w files k' w' H.
  - simpl in H. unfold ret in H. injection H as <- <- <-.
    now rewrite app_nil_r, Nat.add_0_r.
  - cbn [convert_files] in H. rewrite count_txt_cons. unfold resolved at 1. cbn [map].
    destruct (String.eqb (suffix f) ".txt").
    + unfold bind in H.
      destruct (resolve_narration env (wav_cache_dir_of ds f) f w) as [p wa|] eqn:Hres;
        [|discriminate].
      destruct (resolve_narration_step env (clock w) _ f p w wa Hres (Z.le_refl _))
        as (-> & _).
      destruct (IH _ _ _ _ _ _ H) as [-> ->].
      rewrite <- app_assoc. split; [reflexivity|lia].
    + destruct (IH _ _ _ _ _ _ H) as [-> ->].
      rewrite <- app_assoc. split; [reflexivity|lia].
Qed.

Lemma resolved_not_txt (ds : Dirs) (f : Path) : suffix (resolved ds f) <> ".txt".
Proof.
  unfold resolved. destruct (String.eqb (suffix f) ".txt") eqn:E.
  - apply cache_path_not_txt.
  - now apply String.eqb_neq.
Qed.

(** X13.  A conversion loop that returns has replaced every narration text
    by its cache path, in place, and left the other items alone: the list
    has the same length and the same order, no item of suffix .txt is left,
    and [audio_count] has grown by the number of narration texts. *)
Theorem conversion_keeps_positions (env : TtsEnv) (ds : Dirs) (media files : list Path)
    (k k' : nat) (w w' : World) :
  convert_files env ds media [] k w = Ok (files, k') w' ->
  files = map (resolved ds) media /\
  length files = length media /\
  (forall i f, nth_error media i = Some f -> suffix f <> ".txt" ->
               nth_error files i = Some f) /\
  Forall (fun g => suffix g <> ".txt") files /\
  k' = (k + count_suffix [".txt"] media)%nat.
Proof.
  intros H. apply convert_files_shape in H as [-> ->]. cbn [app].
  split; [reflexivity|]. split; [apply length_map|]. split; [|split].
  - intros i f Hi Hs. rewrite nth_error_map, Hi. simpl. unfold resolved.
    apply String.eqb_neq in Hs. now rewrite Hs.
  - apply List.Forall_forall. intros g Hg. apply in_map_iff in Hg as (f & <- & _).
    apply resolved_not_txt.
  - now rewrite count_txt_suffix.
Qed.

Lemma conversion_keeps_positions_witness :
  let w := demo_world "Hello." in
  Forall (fun g => suffix g <> ".txt") [demo_png; demo_wav] /\
  [demo_png; demo_wav] = map (resolved demo_dirs) [demo_png; demo_txt].
Proof.
  intros w.
  destruct (conversion_keeps_positions demo_env demo_dirs [demo_png; demo_txt]
              [demo_png; demo_wav] 0 1 w
              (world_of (convert_files demo_env demo_dirs [demo_png; demo_txt] [] 0 w)))
    as (H1 & _ & _ & H2 & _).
  - vm_compute. reflexivity.
  - split; [exact H2|exact H1].
Defined.

(** ** [main] *)

(** The preparation of the output directories leaves the narration
    engine alone, and fails with [OSError] only. *)
Lemma prepare_output_footprint (args : Args) (w : World) :
  let r := prepare_output args w in
  tts_calls (world_of r) = tts_calls w /\
  engine_calls (world_of r) = engine_calls w /\
  kokoro_pipeline (world_of r) = kokoro_pipeline w /\
  (forall e w', r = Fail e w' -> e = Raised "OSError").
Proof.
  unfold prepare_output, bind, gets, ret, mkdir_parents, rmtree, unlink_missing_ok. cbv zeta.
  repeat match goal with
  | |- context [if ?b then _ else _] => destruct b
  | |- context [match fs ?w0 !! ?p with _ => _ end] =>
      destruct (fs w0 !! p) as [[?|? ?]|]
  end;
  cbn [world_of tts_calls engine_calls kokoro_pipeline set_fs];
  (split; [reflexivity|split; [reflexivity|split; [reflexivity|]]]);
  intros e w' E; try discriminate; now injection E as <- _.
Qed.

(** [main], stage by stage. *)
Lemma main_stages (c : Collab) (env : TtsEnv) (args : Args) (w : World) :
  main c env args w =
  let m := fs w in
  let media := catalogue m args in
  if negb (is_dir (m !! shots_dir args))
  then Fail (SysExit 1 (missing_directory_message (shots_dir args))) w
  else
  match collect m (shots_dir args) with
  | [] => Fail (SysExit 1 (no_media_message (shots_dir args))) w
  | _ :: _ =>
  if (count_suffix [".png"] media =? 0)%nat
  then Fail (SysExit 1 (no_screenshot_message (shots_dir args))) w
  else
  match media with
  | [] => Fail (Raised "IndexError") w
  | first_file :: _ =>
  if negb (String.eqb (suffix first_file) ".png")
  then Fail (SysExit 1 (first_file_message first_file)) w
  else
  match (if (0 <? count_suffix [".txt"] media)%nat
         then convert_files env (dirs_of m args) media []
                (count_suffix [".mp3"; ".wav"] media) w
         else Ok (media, count_suffix [".mp3"; ".wav"] media) w) with
  | Ok converted w1 =>
      match prepare_output args w1 with
      | Ok _ w' =>
          Ok {| media_files := fst converted;
                image_count := count_suffix [".png"] media;
                audio_count := snd converted;
                tts_count := count_suffix [".txt"] media;
                build := build_segments c FRAME_DURATION (segment_dir_of args)
                           (fst converted) |}
             w'
      | Fail e w' => Fail e w'
      end
  | Fail e w1 => Fail e w1
  end
  end
  end.
Proof.
  unfold main, bind, gets, catalogue, intro_files_of, dirs_of, shots_dir, intro_dir_of,
    intro_files_of, shots_dir. cbv zeta.
  change (base_path args // "test-videos" // (subfolder_name args +:+ "-segments"))
    with (segment_dir_of args).
  destruct (negb (is_dir _)); [reflexivity|].
  destruct (collect (fs w) _) as [|f0 main_files]; [reflexivity|].
  destruct (_ =? 0)%nat; [reflexivity|].
  destruct (_ ++ _) as [|first rest]; [reflexivity|].
  destruct (negb _); [reflexivity|].
  destruct (0 <? _)%nat; reflexivity.
Qed.

Lemma map_resolved_without_txt (ds : Dirs) (l : list Path) :
  count_suffix [".txt"] l = 0%nat -> map (resolved ds) l = l.
Proof.
  rewrite <- count_txt_suffix. induction l as [|f l IH]; [reflexivity|].
  rewrite count_txt_cons. cbn [map]. unfold resolved at 1.
  destruct (String.eqb (suffix f) ".txt"); [discriminate|].
  intros H. now rewrite IH.
Qed.

(** X14.  When [main] gets as far as the segment-building pass, the
    screenshot directory exists, the media list is the catalogue (the intro
    files, then the files of the directory) with every narration text
    replaced in place by its cache path, the three counts are those of the
    catalogue, the audio count including the narrations, and the list starts
    with a screenshot; so the assertion of the pass cannot fail, and the pass
    can only be stopped by the encoder. *)
Theorem main_reaches_the_pass (c : Collab) (env : TtsEnv) (args : Args) (w w' : World)
    (rep : Report) :
  main c env args w = Ok rep w' ->
  let media := catalogue (fs w) args in
  is_dir (fs w !! shots_dir args) = true /\
  media_files rep = map (resolved (dirs_of (fs w) args)) media /\
  image_count rep = count_suffix [".png"] media /\
  (1 <= image_count rep)%nat /\
  tts_count rep = count_suffix [".txt"] media /\
  audio_count rep = (count_suffix [".mp3"; ".wav"] media + tts_count rep)%nat /\
  (exists first rest, media = first :: rest /\ suffix first = ".png" /\
                      media_files rep = first :: map (resolved (dirs_of (fs w) args)) rest) /\
  build rep = build_segments c FRAME_DURATION (segment_dir_of args) (media_files rep) /\
  safe_outcome c (build rep).
Proof.
  intros H. cbv zeta. rewrite main_stages in H. cbv zeta in H.
  remember (catalogue (fs w) args) as media eqn:Hm. clear Hm.
  destruct (is_dir (fs w !! shots_dir args)); [|discriminate]. cbn [negb] in H.
  destruct (collect (fs w) (shots_dir args)) as [|f0 main_files] eqn:Hcol; [discriminate|].
  destruct (Nat.eqb_spec (count_suffix [".png"] media) 0) as [|Hcount]; [discriminate|].
  destruct media as [|first rest] eqn:Hmedia; [discriminate|].
  destruct (String.eqb (suffix first) ".png") eqn:Hfirst; [|discriminate]. cbn [negb] in H.
  apply String.eqb_eq in Hfirst.
  assert (Hres : resolved (dirs_of (fs w) args) first = first)
    by (unfold resolved; now rewrite Hfirst).
  assert (Hshape : exists files k w1,
            (if (0 <? count_suffix [".txt"] (first :: rest))%nat
             then convert_files env (dirs_of (fs w) args) (first :: rest) []
                    (count_suffix [".mp3"; ".wav"] (first :: rest)) w
             else Ok (first :: rest, count_suffix [".mp3"; ".wav"] (first :: rest)) w)
            = Ok (files, k) w1 /\
            files = map (resolved (dirs_of (fs w) args)) (first :: rest) /\
            k = (count_suffix [".mp3"; ".wav"] (first :: rest)
                 + count_suffix [".txt"] (first :: rest))%nat /\
            rep = {| media_files := files;
                     image_count := count_suffix [".png"] (first :: rest);
                     audio_count := k;
                     tts_count := count_suffix [".txt"] (first :: rest);
                     build := build_segments c FRAME_DURATION (segment_dir_of args) files |}).
  { destruct (Nat.ltb_spec 0 (count_suffix [".txt"] (first :: rest))) as [Hpos|Hzero].
    - destruct (convert_files _ _ _ _ _ w) as [[files k] w1|] eqn:Hconv; [|discriminate].
      destruct (prepare_output args w1) as [[] w2|]; [|discriminate].
      injection H as <- <-. exists files, k, w1. split; [reflexivity|].
      apply convert_files_shape in Hconv as [-> ->].
      rewrite count_txt_suffix. auto.
    - destruct (prepare_output args w) as [[] w2|]; [|discriminate].
      injection H as <- <-.
      exists (first :: rest), (count_suffix [".mp3"; ".wav"] (first :: rest)), w.
      assert (Hz : count_suffix [".txt"] (first :: rest) = 0%nat) by lia.
      rewrite (map_resolved_without_txt _ _ Hz), Hz, Nat.add_0_r. auto. }
  destruct Hshape as (files & k & w1 & _ & -> & -> & ->). cbn [media_files image_count
    audio_count tts_count build map]. rewrite Hres.
  repeat split; try reflexivity; try lia.
  - exists first, rest. auto.
  - now apply build_safe.
Qed.

Lemma main_reaches_the_pass_witness :
  option_map (fun rep => (image_count rep, audio_count rep, tts_count rep))
             (report_of (main demo_prober demo_env demo_args demo_lower))
  = Some (1%nat, 2%nat, 1%nat).
Proof.
  destruct (main demo_prober demo_env demo_args demo_lower) as [rep w'|e w'] eqn:Hmain;
    [|vm_compute in Hmain; discriminate].
  destruct (main_reaches_the_pass demo_prober demo_env demo_args demo_lower w' rep Hmain)
    as (_ & _ & Hi & _ & Ht & Ha & _).
  simpl. rewrite Ha, Hi, Ht. vm_compute. reflexivity.
Defined.

(** X15.  [main], from the check of the screenshot directory on, fails
    fast.  When it stops before the pass, it stops at one of its four checks
    (no directory, no media file, no screenshot, a first file that is no
    screenshot) with exit status 1 and without having changed anything; or
    there are narration texts and the conversion loop has stopped the run;
    or the narration phase is over and the preparation of the output
    directories has raised [OSError].  Without narration texts no synthesis
    is asked for and no pipeline is built. *)
Theorem main_fails_fast (c : Collab) (env : TtsEnv) (args : Args) (w : World) :
  let media := catalogue (fs w) args in
  (forall e w', main c env args w = Fail e w' ->
     (w' = w /\ preflight_exit args media e) \/
     ((0 < count_suffix [".txt"] media)%nat /\
      convert_files env (dirs_of (fs w) args) media []
        (count_suffix [".mp3"; ".wav"] media) w = Fail e w') \/
     (e = Raised "OSError" /\
      exists converted w1,
        narration_stage env args w = Ok converted w1 /\
        prepare_output args w1 = Fail e w')) /\
  (count_suffix [".txt"] media = 0%nat ->
     tts_calls (world_of (main c env args w)) = tts_calls w /\
     engine_calls (world_of (main c env args w)) = engine_calls w /\
     kokoro_pipeline (world_of (main c env args w)) = kokoro_pipeline w).
Proof.
  cbv zeta. rewrite main_stages. unfold narration_stage. cbv zeta. unfold preflight_exit.
  remember (catalogue (fs w) args) as media eqn:Hm. clear Hm.
  destruct (is_dir (fs w !! shots_dir args)); cbn [negb];
    [|split; [intros e w' E; injection E as <- <-; left; auto|repeat split]].
  destruct (collect (fs w) (shots_dir args)) as [|f0 main_files];
    [split; [intros e w' E; injection E as <- <-; left; auto|repeat split]|].
  destruct (Nat.eqb_spec (count_suffix [".png"] media) 0) as [Hnone|Hcount];
    [split; [intros e w' E; injection E as <- <-; left; auto|repeat split]|].
  destruct media as [|first rest]; [exfalso; apply Hcount; reflexivity|].
  destruct (String.eqb (suffix first) ".png") eqn:Hfirst; cbn [negb].
  2:{ apply String.eqb_neq in Hfirst.
      split; [intros e w' E; injection E as <- <-; left; split; [reflexivity|]|repeat split].
      right. right. right. exists first, rest. auto. }
  destruct (Nat.ltb_spec 0 (count_suffix [".txt"] (first :: rest))) as [Hpos|Hzero].
  - split; [|lia]. intros e w' E.
    destruct (convert_files _ _ _ _ _ w) as [converted w1|e1 w1].
    + right. right.
      destruct (prepare_output_footprint args w1) as (_ & _ & _ & Hos).
      destruct (prepare_output args w1) as [[] w2|e2 w2] eqn:Hprep; [discriminate|].
      injection E as <- <-. split; [now apply (Hos e2 w2)|].
      exists converted, w1. split; [reflexivity|exact Hprep].
    + right. left. split; [exact Hpos|]. now injection E as <- <-.
  - destruct (prepare_output_footprint args w) as (H1 & H2 & H3 & Hos).
    split.
    + intros e w' E. right. right.
      destruct (prepare_output args w) as [[] w2|e2 w2] eqn:Hprep; [discriminate|].
      injection E as <- <-. split; [now apply (Hos e2 w2)|].
      exists (first :: rest, count_suffix [".mp3"; ".wav"] (first :: rest)), w.
      split; [reflexivity|exact Hprep].
    + intros _. destruct (prepare_output args w) as [[] w2|e2 w2]; simpl in *; auto.
Qed.

Lemma main_fails_fast_witness :
  tts_calls (world_of (main demo_prober demo_env demo_args demo_upper)) = [] /\
  kokoro_pipeline (world_of (main demo_prober demo_env demo_args demo_upper)) = None.
Proof.
  destruct (main_fails_fast demo_prober demo_env demo_args demo_upper) as [_ H].
  destruct H as (H1 & _ & H3); [vm_compute; reflexivity|].
  split; [exact H1|exact H3].
Defined.

(** A file where the segment directory goes: the run stops in the
    preparation of the output directories. *)
Lemma main_stops_at_blocked_outputs :
  abort_of (main demo_prober demo_env demo_args demo_blocked_outputs) =
  Some (Raised "OSError").
Proof. vm_compute. reflexivity. Qed.

(** ** What the timeline is made of *)

(** X16.  Wherever the pass stops, every segment of the timeline shows a
    file of the media list whose suffix is .png; a silent hold lasts the
    fixed duration; an audio-held segment plays a file of the media list
    whose suffix is .mp3 or .wav, for the duration that file probes to; and
    there are no more segments than items. *)
Theorem timeline_is_made_of_media (c : Collab) (d : Q) (segment_dir : Path)
    (media : list Path) :
  let st := state_of (build_segments c d segment_dir media) in
  Forall (segment_of_media c d media) (timeline st) /\
  (length (timeline st) <= length media)%nat.
Proof.
  intros st.
  assert (Hinv : Forall (segment_of_media c d media) (timeline st) /\
                 (forall img, current_image st = Some img ->
                    In img media /\ suffix img = ".png")).
  { unfold st, build_segments.
    apply (for_each_invariant_in c d segment_dir
             (fun s => Forall (segment_of_media c d media) (timeline s) /\
                       (forall img, current_image s = Some img ->
                          In img media /\ suffix img = ".png")));
      [|split; [constructor|discriminate]].
    intros i f s Hin [Hall Hcur]. apply enumerate_from_In in Hin.
    destruct (body_cases c d segment_dir media i f s)
      as [Ha Hg|Hp|e Ha|e Hp|Hp Ha|Hp|img da Hi Ha Hg]; simpl; try (split; assumption).
    - split; [exact Hall|]. intros img E. injection E as <-. auto.
    - split; [exact Hall|]. intros img E. injection E as <-. auto.
    - split; [|intros img E; injection E as <-; auto].
      apply Forall_app. split; [exact Hall|]. repeat constructor; simpl; auto.
    - split; [|exact Hcur].
      apply Forall_app. split; [exact Hall|].
      destruct (Hcur img Hi) as [H1 H2]. repeat constructor; simpl; auto. }
  split; [exact (proj1 Hinv)|].
  destruct (manifest_length_bound c d segment_dir media) as [H1 H2]. fold st in H1, H2. lia.
Qed.

(** ** The language code of a voice *)

Lemma lang_code_map_is_identity :
  Forall (fun e => snd e = fst e) LANG_CODE_MAP.
Proof. repeat constructor. Qed.

(** X17.  The language code detected for a voice is always one of the nine
    codes of the table.  It is the first character of the voice when the
    voice has two characters or more and that character is a code of the
    table, and the American English code a in every other case: a shorter
    voice, the empty voice, an unknown first character. *)
Theorem detect_lang_code_total (voice : string) :
  In (detect_lang_code voice) lang_codes /\
  (forall ch rest, voice = String ch rest -> rest <> "" ->
     str_in (String ch "") lang_codes = true ->
     detect_lang_code voice = String ch "") /\
  ((String.length voice < 2)%nat -> detect_lang_code voice = "a") /\
  (forall ch rest, voice = String ch rest ->
     str_in (String ch "") lang_codes = false ->
     detect_lang_code voice = "a").
Proof.
  assert (Hfind : forall key,
    match List.find (fun e => String.eqb (fst e) key) LANG_CODE_MAP with
    | Some e => snd e = key /\ In key lang_codes /\ str_in key lang_codes = true
    | None => str_in key lang_codes = false
    end).
  { intros key.
    destruct (List.find (fun e => String.eqb (fst e) key) LANG_CODE_MAP) as [e|] eqn:Hf.
    - apply find_some in Hf as [Hin Heq]. apply String.eqb_eq in Heq.
      pose proof lang_code_map_is_identity as Hid. rewrite List.Forall_forall in Hid.
      rewrite (Hid e Hin), Heq.
      assert (Hk : In key lang_codes)
        by (unfold lang_codes; rewrite <- Heq; now apply in_map).
      split; [reflexivity|]. split; [exact Hk|].
      unfold str_in. apply existsb_exists. exists key. split; [exact Hk|apply String.eqb_refl].
    - unfold str_in. destruct (existsb (String.eqb key) lang_codes) eqn:Hex; [|reflexivity].
      apply existsb_exists in Hex as (k & Hk & Heq). apply String.eqb_eq in Heq. subst k.
      unfold lang_codes in Hk. apply in_map_iff in Hk as (e & He & Hin).
      pose proof (find_none _ _ Hf e Hin) as Hnone. simpl in Hnone.
      rewrite He, String.eqb_refl in Hnone. discriminate. }
  assert (Ha : In "a" lang_codes) by (now left).
  unfold detect_lang_code.
  destruct voice as [|ch rest]; [repeat split; auto; intros; discriminate|].
  specialize (Hfind (String ch "")).
  destruct (Nat.leb_spec 2 (String.length (String ch rest))) as [Hlen|Hlen].
  - destruct (List.find _ LANG_CODE_MAP) as [e|].
    + destruct Hfind as (-> & Hin & Hstr). repeat split; auto.
      * intros ch' rest' E _ _. now injection E as <- <-.
      * intros; lia.
      * intros ch' rest' E Hno. injection E as <- <-. congruence.
    + repeat split; auto. intros ch' rest' E _ Hyes. injection E as <- <-. congruence.
  - repeat split; auto. intros ch' rest' E Hne _. injection E as <- <-.
    destruct rest; [congruence|simpl in Hlen; lia].
Qed.

Lemma detect_lang_code_total_witness :
  detect_lang_code "bm_daniel" = "b" /\ detect_lang_code "x" = "a" /\
  detect_lang_code "qf_voice" = "a".
Proof.
  destruct (detect_lang_code_total "bm_daniel") as (_ & H1 & _).
  destruct (detect_lang_code_total "x") as (_ & _ & H2 & _).
  destruct (detect_lang_code_total "qf_voice") as (_ & _ & _ & H3).
  split; [apply (H1 "b"%char "m_daniel"); [reflexivity|discriminate|reflexivity]|].
  split; [apply H2; simpl; lia|].
  apply (H3 "q"%char "f_voice"); reflexivity.
Defined.

(** ** The preparation of the output directories *)

(** [mkdir] adds directories only, and only at prefixes of its argument. *)
Lemma mkdir_parents_lookup (d : Path) (w w' : World) (q : Path) :
  mkdir_parents d w = Ok tt w' ->
  fs w' !! q = fs w !! q \/ (fs w !! q = None /\ In q (prefixes d) /\ is_dir (fs w' !! q) = true).
Proof.
  intros H. apply mkdir_parents_ok in H as (-> & _ & Hd). simpl in *.
  destruct (make_dirs_lookup (clock w) (prefixes d) (fs w) q) as [E|[Hn E]]; [now left|].
  destruct (decide (q ∈ prefixes d)) as [Hin|Hout].
  - right. rewrite E. repeat split; auto. now apply list_elem_of_In.
  - left. apply make_dirs_elsewhere. intros Hin. apply Hout. now apply list_elem_of_In.
Qed.

Lemma rmtree_ok (d : Path) (w w' : World) :
  rmtree d w = Ok tt w' ->
  (forall q, d `prefix_of` q -> fs w' !! q = None) /\
  (forall q, ~ d `prefix_of` q -> fs w' !! q = fs w !! q).
Proof.
  unfold rmtree. destruct (is_dir (fs w !! d)); [|discriminate].
  intros E. injection E as <-. simpl. split.
  - intros q Hq. apply map_lookup_filter_None. right. intros n _ Hn. now apply Hn.
  - intros q Hq. destruct (fs w !! q) as [n|] eqn:Hl.
    + apply map_lookup_filter_Some. auto.
    + apply map_lookup_filter_None. now left.
Qed.

Lemma unlink_ok (p : Path) (w w' : World) :
  unlink_missing_ok p w = Ok tt w' ->
  fs w' !! p = None /\
  is_dir (fs w !! p) = false /\
  (forall q, q <> p -> fs w' !! q = fs w !! q).
Proof.
  unfold unlink_missing_ok. destruct (fs w !! p) as [[t|t data]|] eqn:Hp; try discriminate;
    intros E; injection E as <-; simpl.
  - split; [apply lookup_delete_eq|]. split; [reflexivity|].
    intros q Hq. now apply lookup_delete_ne.
  - auto.
Qed.

Lemma strictly_below_not_prefix (d q : Path) :
  d `prefix_of` q -> q <> d -> ~ In q (prefixes d).
Proof.
  intros [k ->] Hne Hin. apply prefixes_length in Hin. rewrite length_app in Hin.
  destruct k; [rewrite app_nil_r in Hne; congruence|simpl in Hin; lia].
Qed.

(** X18.  When the preparation of the output directories returns, in a
    file system where something below the segment directory can only exist
    if that directory does, the segment directory exists and is empty,
    whatever an earlier run had left in it, the video and the animation of
    an earlier run are gone, and every file that is neither below the
    segment directory nor one of these two outputs is what it was. *)
Theorem prepare_output_clears_old_outputs (args : Args) (w w' : World) :
  (forall q, segment_dir_of args `prefix_of` q -> is_Some (fs w !! q) ->
             is_Some (fs w !! segment_dir_of args)) ->
  prepare_output args w = Ok tt w' ->
  is_dir (fs w' !! segment_dir_of args) = true /\
  (forall q, segment_dir_of args `prefix_of` q -> q <> segment_dir_of args ->
             fs w' !! q = None) /\
  fs w' !! mp4_file_of args = None /\
  fs w' !! gif_file_of args = None /\
  (forall q, ~ segment_dir_of args `prefix_of` q ->
             q <> mp4_file_of args -> q <> gif_file_of args ->
             file_at (fs w') q = file_at (fs w) q).
Proof.
  unfold prepare_output, bind, gets. set (sd := segment_dir_of args). intros Hwf.
  destruct (mkdir_parents (output_dir_of args) w) as [[] w1|] eqn:H1; [|discriminate].
  set (present := bool_decide (is_Some (fs w1 !! sd))).
  destruct ((if present then rmtree sd else ret tt) w1) as [[] w2|] eqn:H2; [|discriminate].
  destruct (mkdir_parents sd w2) as [[] w3|] eqn:H3; [|discriminate].
  destruct (unlink_missing_ok (mp4_file_of args) w3) as [[] w4|] eqn:H4; [|discriminate].
  intros H5.
  assert (Hsd : sd <> []).
  { unfold sd, segment_dir_of, joinpath. intros E. apply app_eq_nil in E as [_ E].
    discriminate. }
  assert (Hlen : length sd = S (length (output_dir_of args)))
    by (unfold sd, segment_dir_of, output_dir_of, joinpath; rewrite !length_app; simpl; lia).
  assert (Hwf1 : forall q, sd `prefix_of` q -> is_Some (fs w1 !! q) -> is_Some (fs w1 !! sd)).
  { intros q Hq [n Hn].
    destruct (mkdir_parents_lookup _ _ _ q H1) as [E|(_ & Hin & _)].
    - rewrite E in Hn. destruct (Hwf q Hq (ex_intro _ n Hn)) as [m Hm].
      destruct (mkdir_parents_lookup _ _ _ sd H1) as [E'|(Hnone & _)]; [|congruence].
      rewrite E'. eauto.
    - apply prefixes_length in Hin. apply prefix_length in Hq. lia. }
  assert (Hbelow2 : forall q, sd `prefix_of` q -> fs w2 !! q = None).
  { intros q Hq. unfold present in H2.
    destruct (bool_decide (is_Some (fs w1 !! sd))) eqn:Hp.
    - apply rmtree_ok in H2 as [Hrm _]. now apply Hrm.
    - unfold ret in H2. injection H2 as <-. apply bool_decide_eq_false in Hp.
      destruct (fs w1 !! q) as [n|] eqn:Hl; [|reflexivity].
      exfalso. apply Hp. apply (Hwf1 q Hq). eauto. }
  assert (Hfiles2 : forall q, ~ sd `prefix_of` q -> file_at (fs w2) q = file_at (fs w1) q).
  { intros q Hq. unfold present in H2.
    destruct (bool_decide (is_Some (fs w1 !! sd))).
    - apply rmtree_ok in H2 as [_ Hrm]. unfold file_at. now rewrite Hrm.
    - unfold ret in H2. now injection H2 as <-. }
  pose proof (mkdir_parents_ok _ _ _ H3) as (_ & _ & Hdirs).
  rewrite List.Forall_forall in Hdirs. pose proof (Hdirs sd (prefixes_self sd Hsd)) as Hsd3.
  apply unlink_ok in H4 as (Hmp4 & Hmp4dir & Hrest4).
  apply unlink_ok in H5 as (Hgif & Hgifdir & Hrest5).
  assert (Hne4 : sd <> mp4_file_of args) by (intros E; rewrite E in Hsd3; congruence).
  assert (Hsd4 : is_dir (fs w4 !! sd) = true) by (rewrite Hrest4; auto).
  assert (Hne5 : sd <> gif_file_of args) by (intros E; rewrite E in Hsd4; congruence).
  split; [rewrite Hrest5; auto|]. split; [|split; [|split; [exact Hgif|]]].
  - intros q Hq Hne.
    assert (H3q : fs w3 !! q = None).
    { destruct (mkdir_parents_lookup _ _ _ q H3) as [E|(_ & Hin & _)].
      - rewrite E. now apply Hbelow2.
      - exfalso. now apply (strictly_below_not_prefix sd q). }
    assert (H4q : fs w4 !! q = None).
    { destruct (decide (q = mp4_file_of args)) as [->|Hd]; [exact Hmp4|].
      now rewrite Hrest4. }
    destruct (decide (q = gif_file_of args)) as [->|Hd]; [exact Hgif|].
    now rewrite Hrest5.
  - destruct (decide (mp4_file_of args = gif_file_of args)) as [E|Hd]; [now rewrite E|].
    now rewrite Hrest5.
  - intros q Hq Hm Hg. unfold file_at at 1. rewrite Hrest5, Hrest4 by assumption.
    fold (file_at (fs w3) q).
    rewrite (mkdir_parents_file_at _ _ _ q H3), (Hfiles2 q Hq).
    apply (mkdir_parents_file_at _ _ _ q H1).
Qed.

(** The files an earlier run of the demo has left are cleared; the
    screenshot stays. *)
Lemma prepare_output_clears_old_outputs_witness :
  let w' := world_of (prepare_output demo_args demo_stale_outputs) in
  fs w' !! ["proj"; "test-videos"; "demo-segments"; "segment-0003.mp4"] = None /\
  fs w' !! ["proj"; "test-videos"; "demo.mp4"] = None /\
  file_at (fs w') ["proj"; "screenshots"; "demo"; "001.png"] = Some (20%Z, Binary).
Proof.
  intros w'.
  destruct (prepare_output_clears_old_outputs demo_args demo_stale_outputs w')
    as (_ & Hbelow & Hmp4 & _ & Hrest).
  - intros q Hq _. vm_compute. eauto.
  - vm_compute. reflexivity.
  - split; [|split; [exact Hmp4|]].
    + apply Hbelow; [|discriminate]. exists ["segment-0003.mp4"]. reflexivity.
    + rewrite Hrest; [reflexivity| |discriminate|discriminate].
      intros [k Hk]. discriminate.
Defined.

(** ** Sizes for the summary *)

Lemma nearest_even_scale (n d k : Z) :
  (0 < d)%Z -> (0 < k)%Z -> nearest_even (n * k) (d * k) = nearest_even n d.
Proof.
  intros Hd Hk. unfold nearest_even.
  rewrite Z.div_mul_cancel_r by lia. rewrite Z.mul_mod_distr_r by lia.
  rewrite Z.mul_assoc, <- (Zmult_compare_compat_r (2 * (n mod d)) d k) by lia.
  reflexivity.
Qed.

Lemma nearest_even_Qeq (q1 q2 : Q) :
  (q1 == q2)%Q ->
  nearest_even (Qnum q1) (Z.pos (Qden q1)) = nearest_even (Qnum q2) (Z.pos (Qden q2)).
Proof.
  unfold Qeq. intros H.
  rewrite <- (nearest_even_scale (Qnum q1) (Z.pos (Qden q1)) (Z.pos (Qden q2))) by lia.
  rewrite <- (nearest_even_scale (Qnum q2) (Z.pos (Qden q2)) (Z.pos (Qden q1))) by lia.
  rewrite H. f_equal. lia.
Qed.

Lemma format_1f_Qeq (q1 q2 : Q) : (q1 == q2)%Q -> format_1f q1 = format_1f q2.
Proof.
  intros H. unfold format_1f.
  assert (H10 : (q1 * 10 == q2 * 10)%Q) by (now rewrite H).
  now rewrite (nearest_even_Qeq _ _ H10).
Qed.

Lemma Qdiv_1024 (n : Z) (p : positive) : ((n # p) / 1024 == n # (p * 1024))%Q.
Proof. unfold Qeq, Qdiv, Qmult, Qinv. simpl. lia. Qed.

Lemma Qlt_1024 (size : Q) (n : Z) (p : positive) :
  (size == n # p)%Q -> (size < 1024)%Q <-> (n < Z.pos p * 1024)%Z.
Proof. intros ->. unfold Qlt. simpl. lia. Qed.

Lemma pow1024_ge (k : nat) : k <> 0%nat -> (1024 <= Z.pos (pow1024 k))%Z.
Proof. destruct k as [|k]; [congruence|]. intros _. simpl. lia. Qed.

(** The unit at which the loop stops. *)
Lemma size_loop_found (k : nat) :
  forall units unit size n p,
  nth_error units k = Some unit ->
  unit <> "B" ->
  (size == n # p)%Q ->
  (k <> 0%nat -> Z.pos p * Z.pos (pow1024 k) <= n)%Z ->
  (n < Z.pos p * Z.pos (pow1024 (S k)))%Z ->
  size_loop units size = format_1f (n # (p * pow1024 k)) +:+ unit.
Proof.
  induction k as [|k IH]; intros units unit size n p Hnth HB Hsize Hlow Hhigh.
  - destruct units as [|u rest]; [discriminate|]. injection Hnth as ->.
    cbn [size_loop]. destruct (Qlt_le_dec size 1024) as [Hlt|Hge].
    + apply String.eqb_neq in HB. rewrite HB. f_equal. apply format_1f_Qeq.
      rewrite Hsize. unfold Qeq. simpl. lia.
    + exfalso. apply (Qle_not_lt _ _ Hge). apply (Qlt_1024 size n p Hsize).
      simpl in Hhigh. lia.
  - destruct units as [|u rest]; [discriminate|]. cbn [nth_error] in Hnth.
    cbn [size_loop]. destruct (Qlt_le_dec size 1024) as [Hlt|Hge].
    + exfalso. apply (Qlt_1024 size n p Hsize) in Hlt.
      pose proof (pow1024_ge (S k) ltac:(discriminate)). specialize (Hlow ltac:(discriminate)).
      nia.
    + rewrite (IH rest unit (size / 1024)%Q n (p * 1024)%positive Hnth HB).
      * f_equal. f_equal. f_equal. simpl. lia.
      * rewrite Hsize. apply Qdiv_1024.
      * intros _. specialize (Hlow ltac:(discriminate)). simpl in Hlow. lia.
      * cbn [pow1024] in *. lia.
Qed.

(** No unit of the list is large enough. *)
Lemma size_loop_exhausted (units : list string) :
  forall size n p,
  (size == n # p)%Q ->
  (Z.pos p * Z.pos (pow1024 (length units)) <= n)%Z ->
  size_loop units size = format_1f (n # (p * pow1024 (length units))) +:+ "P".
Proof.
  induction units as [|u rest IH]; intros size n p Hsize Hlow.
  - cbn [size_loop length pow1024]. f_equal. apply format_1f_Qeq.
    rewrite Hsize. unfold Qeq. simpl. lia.
  - cbn [size_loop length]. destruct (Qlt_le_dec size 1024) as [Hlt|Hge].
    + exfalso. apply (Qlt_1024 size n p Hsize) in Hlt.
      pose proof (pow1024_ge (S (length rest)) ltac:(discriminate)). simpl in *. nia.
    + rewrite (IH (size / 1024)%Q n (p * 1024)%positive).
      * f_equal. f_equal. f_equal. simpl. lia.
      * rewrite Hsize. apply Qdiv_1024.
      * simpl in Hlow. lia.
Qed.

(** X19.  For a file of less than 2^53 bytes: below 1024 bytes the size is
    printed as the number of bytes followed by B, without decimals; from
    1024^(k+1) up to 1024^(k+2) bytes it is printed in the unit K, M, G or T
    of rank k, as the size divided by 1024^(k+1) rounded to one decimal; from
    1024^5 bytes on it is printed in P. *)
Theorem human_readable_size_units (n : Z) :
  (0 <= n < 2 ^ 53)%Z ->
  ((n < 1024)%Z -> human_readable_size n = decimal_Z n +:+ "B") /\
  (forall k unit,
     nth_error ["K"; "M"; "G"; "T"] k = Some unit ->
     (Z.pos (pow1024 (S k)) <= n < Z.pos (pow1024 (S (S k))))%Z ->
     human_readable_size n = format_1f (n # pow1024 (S k)) +:+ unit) /\
  ((Z.pos (pow1024 5) <= n)%Z ->
     human_readable_size n = format_1f (n # pow1024 5) +:+ "P").
Proof.
  intros Hn. unfold human_readable_size.
  assert (Hq : (inject_Z n == n # 1)%Q) by reflexivity.
  split; [|split].
  - intros Hlt. cbn [size_loop]. destruct (Qlt_le_dec (inject_Z n) 1024) as [_|Hge].
    + rewrite Qfloor_Z. reflexivity.
    + exfalso. apply (Qle_not_lt _ _ Hge). apply (Qlt_1024 _ n 1 Hq). lia.
  - intros k unit Hnth [Hlow Hhigh].
    rewrite (size_loop_found (S k) _ unit (inject_Z n) n 1%positive);
      [reflexivity|exact Hnth| |exact Hq| |].
    + apply nth_error_In in Hnth. simpl in Hnth.
      destruct Hnth as [<-|[<-|[<-|[<-|[]]]]]; discriminate.
    + intros _. lia.
    + lia.
  - intros Hlow.
    rewrite (size_loop_exhausted _ (inject_Z n) n 1%positive Hq); [|simpl length; lia].
    reflexivity.
Qed.

Lemma human_readable_size_units_witness :
  human_readable_size 340 = "340B" /\ human_readable_size 1280 = "1.2K" /\
  human_readable_size 1258291 = "1.2M".
Proof.
  split; [|split].
  - destruct (human_readable_size_units 340) as (H & _); [lia|]. apply H. lia.
  - destruct (human_readable_size_units 1280) as (_ & H & _); [lia|].
    apply (H 0%nat "K"); [reflexivity|simpl; lia].
  - destruct (human_readable_size_units 1258291) as (_ & H & _); [lia|].
    apply (H 1%nat "M"); [reflexivity|simpl; lia].
Defined.

(** ** kokoro-generate.py *)

Ltac cli_unfold :=
  unfold KokoroGenerate.script, KokoroGenerate.main, KokoroGenerate.run_pipeline,
    try_except, open_read, bind, ret, fail, sf_write; simpl.

(** X20.  Once the command line is parsed, with an output path of suffix
    .wav: a run of [kokoro-generate.py] that ends normally has read a text
    file whose content is not blank, has obtained at least one audio chunk
    for the stripped text, and has changed one thing: the output path now
    holds the chunks, concatenated, at 24000 Hz.  A run that fails leaves
    every file as it was, and when it ends by one of the [sys.exit] calls of
    the script the status is 1. *)
Theorem kokoro_generate_outcomes (numpy_soundfile kokoro : bool) (eng : Engine)
    (args : KokoroGenerate.Args) (w : World) :
  suffix (KokoroGenerate.output args) = ".wav" ->
  match KokoroGenerate.script numpy_soundfile kokoro eng args w with
  | Ok _ w' =>
      exists t raw,
        fs w !! KokoroGenerate.input args = Some (File t (Text raw)) /\
        Py.strip raw <> [] /\
        let chunks := speak eng (KokoroGenerate.lang_code_of args) (KokoroGenerate.voice args)
                        (KokoroGenerate.speed args) (Py.strip raw) in
        chunks <> [] /\
        fs w' = <[KokoroGenerate.output args :=
                    File (clock w') (Wav SAMPLE_RATE (concat chunks))]> (fs w)
  | Fail e w' =>
      fs w' = fs w /\ (forall code msg, e = SysExit code msg -> code = 1%Z)
  end.
Proof.
  intros _. cli_unfold.
  destruct numpy_soundfile; simpl; [|split; [reflexivity|discriminate]].
  destruct kokoro; simpl; [|split; [reflexivity|discriminate]].
  destruct (fs w !! KokoroGenerate.input args) as [[t|t [raw| |]]|] eqn:Hin; simpl;
    try (split; [reflexivity|discriminate]).
  - destruct (Py.strip raw) as [|ch text] eqn:Hs; simpl.
    + split; [reflexivity|]. intros code msg E. now injection E as <- _.
    + destruct (speak eng _ _ _ (ch :: text)) as [|chunk chunks] eqn:Hc; simpl.
      * split; [reflexivity|]. intros code msg E. now injection E as <- _.
      * destruct (_ && _); simpl.
        -- exists t, raw. split; [reflexivity|]. rewrite Hs. split; [discriminate|].
           cbv zeta. rewrite Hc. split; [discriminate|]. reflexivity.
        -- split; [reflexivity|discriminate].
  - destruct (existsb _ _); simpl.
    + split; [reflexivity|discriminate].
    + split; [reflexivity|]. intros code msg E. now injection E as <- _.
Qed.

(** The narration of the demo, read aloud into out.wav. *)
Lemma kokoro_generate_outcomes_witness :
  let args := KokoroGenerate.default_args demo_txt ["screenshots"; "demo"; "out.wav"] in
  let w := demo_world "Hello." in
  match KokoroGenerate.script true true demo_engine args w with
  | Ok _ w' =>
      exists t raw,
        fs w !! KokoroGenerate.input args = Some (File t (Text raw)) /\
        Py.strip raw <> [] /\
        let chunks := speak demo_engine (KokoroGenerate.lang_code_of args)
                        (KokoroGenerate.voice args) (KokoroGenerate.speed args)
                        (Py.strip raw) in
        chunks <> [] /\
        fs w' = <[KokoroGenerate.output args :=
                    File (clock w') (Wav SAMPLE_RATE (concat chunks))]> (fs w)
  | Fail e w' =>
      fs w' = fs w /\ (forall code msg, e = SysExit code msg -> code = 1%Z)
  end.
Proof.
  intros args w.
  apply (kokoro_generate_outcomes true true demo_engine args w).
  reflexivity.
Defined.

(** X21.  Where a pipeline that is already built means that the kokoro
    package is installed: run with its default options on a narration text,
    [kokoro-generate.py] and [run_kokoro_tts] of [create-video.py] agree:
    one succeeds exactly when the other does, and they leave the same files
    at the same time. *)
Theorem scripts_agree_on_narration (numpy_soundfile kokoro : bool) (eng : Engine)
    (input_txt output_wav : Path) (w : World) :
  (is_Some (kokoro_pipeline w) -> kokoro = true) ->
  let r1 := run_kokoro_tts (in_process numpy_soundfile kokoro eng) input_txt output_wav w in
  let r2 := KokoroGenerate.script numpy_soundfile kokoro eng
              (KokoroGenerate.default_args input_txt output_wav) w in
  succeeded r1 = succeeded r2 /\
  fs (world_of r1) = fs (world_of r2) /\
  clock (world_of r1) = clock (world_of r2).
Proof.
  intros Hk. tts_unfold. cli_unfold.
  destruct numpy_soundfile; simpl; [|auto].
  assert (E : kokoro_pipeline w = None \/ kokoro = true).
  { destruct (kokoro_pipeline w); [right; apply Hk; eauto|now left]. }
  destruct kokoro; simpl.
  - destruct (kokoro_pipeline w); simpl;
      (destruct (fs w !! input_txt) as [[t|t [raw| |]]|]; simpl; auto;
       [destruct (Py.strip raw) as [|ch text]; simpl; auto;
        unfold KokoroGenerate.lang_code_of; simpl;
        destruct (speak eng _ _ _ (ch :: text)); simpl; auto;
        destruct (_ && _); simpl; auto
       |destruct (existsb _ _); simpl; auto]).
  - destruct E as [->|]; [|discriminate]. simpl. auto.
Qed.

Lemma scripts_agree_on_narration_witness :
  let r1 := run_kokoro_tts (in_process true true demo_engine) demo_txt ["screenshots"; "demo"; "out.wav"]
              (demo_world "Hello.") in
  let r2 := KokoroGenerate.script true true demo_engine
              (KokoroGenerate.default_args demo_txt ["screenshots"; "demo"; "out.wav"]) (demo_world "Hello.") in
  succeeded r1 = succeeded r2 /\
  fs (world_of r1) = fs (world_of r2) /\
  clock (world_of r1) = clock (world_of r2).
Proof.
  apply (scripts_agree_on_narration true true demo_engine demo_txt ["screenshots"; "demo"; "out.wav"]
           (demo_world "Hello.")).
  reflexivity.
Defined.
